(** * Seeding and rebalancing scripts: owner selection and task distribution

    A shallow embedding of the two command-line scripts

      - [scripts/generate_project_tasks.py]  (function [pick_owner], and
        [main] up to the creation of the tasks of an account), and
      - [scripts/split_tasks_to_projects.py] (function [main]),

    followed by the properties of the owner selector, of the task
    distributor and of the seeding of the tasks.  Python values are modelled as follows: [int] as [Z] or
    [nat] (lengths and indices), [float] as the kernel's binary64 floats,
    [str] as [string], [Optional] as [option], the insertion-ordered
    [dict] as an association list, exceptions as an explicit outcome. *)

From Stdlib Require Import String Ascii DecimalString.
From Stdlib Require Import List Arith ZArith Lia Bool Permutation Floats.
Import ListNotations.

Set Warnings "-inexact-float".

(** ** Python outcomes *)

(** The exceptions the two scripts can end with.  [SystemExit] is what
    [sys.exit(msg)] raises; [RuntimeError] is raised by [run_sf] and
    [update_record] when the CLI reports a failure. *)
Inductive py_exception : Type :=
| ZeroDivisionError
| IndexError
| ValueError
| RuntimeError
| SystemExit (msg : string).

Inductive outcome (A : Type) : Type :=
| Ok (a : A)
| Raise (e : py_exception).
Arguments Ok {A} a.
Arguments Raise {A} e.

Definition is_failure {A : Type} (o : outcome A) : bool :=
  match o with
  | Ok _ => false
  | Raise _ => true
  end.

(** [a == b] on [Optional[str]] values. *)
Definition opt_str_eqb (a b : option string) : bool :=
  match a, b with
  | Some x, Some y => String.eqb x y
  | None, None => true
  | _, _ => false
  end.

(** ** Weighted sampling: [random.choices]

    [random.choices(population, weights=weights, k=1)[0]] as CPython
    implements it: cumulative weights by [itertools.accumulate], then
    [bisect] of [random() * total] with [hi = n - 1].  The uniform variate
    returned by [random()] is the argument [u]. *)
Module PyRandomChoices.

Local Open Scope float_scope.

(** [sum(weights)]: left-to-right additions starting from [0], the
    summation of CPython before 3.12. *)
Definition sum (ws : list float) : float := fold_left PrimFloat.add ws 0.

Fixpoint accumulate_from (acc : float) (ws : list float) : list float :=
  match ws with
  | [] => []
  | w :: rest => let s := acc + w in s :: accumulate_from s rest
  end.

Definition accumulate (ws : list float) : list float :=
  match ws with
  | [] => []
  | w :: rest => w :: accumulate_from w rest
  end.

(** The [while lo < hi] loop of [bisect_right]; [fuel] bounds the number
    of iterations, [hi - lo] of them always suffice
    (see [bisect_loop_fuel]). *)
Fixpoint bisect_loop (fuel : nat) (a : list float) (x : float)
         (lo hi : nat) : nat :=
  match fuel with
  | O => lo
  | S fuel' =>
      if (lo <? hi)%nat then
        let mid := ((lo + hi) / 2)%nat in
        if PrimFloat.ltb x (nth mid a 0) then bisect_loop fuel' a x lo mid
        else bisect_loop fuel' a x (mid + 1)%nat hi
      else lo
  end.

Definition bisect (a : list float) (x : float) (lo hi : nat) : nat :=
  bisect_loop (hi - lo) a x lo hi.

Definition isfinite (x : float) : bool :=
  negb (PrimFloat.is_nan x || PrimFloat.is_infinity x).

Definition choices {A : Type} (population : list A) (weights : list float)
           (u : float) : outcome A :=
  let n := length population in
  let cum_weights := accumulate weights in
  if negb (length cum_weights =? n)%nat then Raise ValueError
  else
    match rev cum_weights with
    | [] => Raise IndexError                      (* cum_weights[-1] *)
    | last :: _ =>
        let total := last + 0 in
        if PrimFloat.leb total 0 then Raise ValueError
        else if negb (isfinite total) then Raise ValueError
        else
          match nth_error population
                          (bisect cum_weights (u * total) 0 (n - 1)) with
          | Some c => Ok c
          | None => Raise IndexError
          end
    end.

End PyRandomChoices.

(** ** [generate_project_tasks.py]: the owner selector *)
Module Owner.

Import PyRandomChoices.

(** The dictionaries [me_info], [kevin_info] and [william_info] built by
    [main]: keys ["user_id"], ["contact_id"], ["account_id"]. *)
Record info : Type := {
  user_id : option string;
  contact_id : option string;
  account_id : option string
}.

(** A roster entry [{"weight": w, **info}]. *)
Record candidate : Type := {
  weight : float;
  owner : info
}.

(** Lines 152-157: the eligible candidates of one call.  [remaining] is
    [max_william["remaining"]]. *)
Definition william_eligible (acct : string) (william : option info)
           (remaining : Z) : bool :=
  match william with
  | Some w => opt_str_eqb (account_id w) (Some acct) && (0 <? remaining)%Z
  | None => false
  end.

Definition candidates (acct : string) (me : info)
           (kevin william : option info) (remaining : Z) : list candidate :=
  [ {| weight := 0.55; owner := me |} ]
    ++ match kevin with
       | Some k => [ {| weight := 0.35; owner := k |} ]
       | None => []
       end
    ++ match william with
       | Some w =>
           if william_eligible acct william remaining
           then [ {| weight := 0.10; owner := w |} ] else []
       | None => []
       end.

(** [(william or {}).get("user_id")]. *)
Definition william_user_id (william : option info) : option string :=
  match william with
  | Some w => user_id w
  | None => None
  end.

(** [pick_owner]: returns the chosen entry together with the value of
    [max_william["remaining"]] after the call. *)
Definition pick_owner (acct : string) (me : info)
           (kevin william : option info) (remaining : Z) (u : float)
  : outcome (candidate * Z) :=
  let cands := candidates acct me kevin william remaining in
  let weights := map weight cands in
  let total := sum weights in
  let weights := map (fun w => PrimFloat.div w total) weights in
  match choices cands weights u with
  | Raise e => Raise e
  | Ok choice =>
      if opt_str_eqb (user_id (owner choice)) (william_user_id william)
      then Ok (choice, (remaining - 1)%Z)
      else Ok (choice, remaining)
  end.

(** A run of the script: [max_william] is created once and shared by all
    the calls [pick_owner(acct["Id"], me_info, kevin_info, william_info,
    max_william)]; each call has its account id and its variate. *)
Fixpoint run_picks (me : info) (kevin william : option info)
         (calls : list (string * float)) (remaining : Z)
  : outcome (list candidate * Z) :=
  match calls with
  | [] => Ok ([], remaining)
  | (acct, u) :: rest =>
      match pick_owner acct me kevin william remaining u with
      | Raise e => Raise e
      | Ok (choice, remaining') =>
          match run_picks me kevin william rest remaining' with
          | Raise e => Raise e
          | Ok (choices, final) => Ok (choice :: choices, final)
          end
      end
  end.

(** The entry of William in the roster. *)
Definition william_entry (w : info) : candidate :=
  {| weight := 0.10; owner := w |}.

(** The entries that are eligible whatever the scope and the quota. *)
Definition base_candidates (me : info) (kevin : option info)
  : list candidate :=
  [ {| weight := 0.55; owner := me |} ]
    ++ match kevin with
       | Some k => [ {| weight := 0.35; owner := k |} ]
       | None => []
       end.

End Owner.

(** ** Insertion-ordered dictionaries

    A Python [dict] with [str] keys: [d[k] = v] replaces the value of an
    existing key in place and appends a new key at the end; [d.items()]
    walks the entries in that order. *)
Module PyDict.

Definition t (V : Type) : Type := list (string * V).

Definition empty {V : Type} : t V := [].

Fixpoint set {V : Type} (d : t V) (k : string) (v : V) : t V :=
  match d with
  | [] => [(k, v)]
  | (k', v') :: rest =>
      if String.eqb k' k then (k, v) :: rest else (k', v') :: set rest k v
  end.

Fixpoint get {V : Type} (d : t V) (k : string) : option V :=
  match d with
  | [] => None
  | (k', v') :: rest => if String.eqb k' k then Some v' else get rest k
  end.

Definition items {V : Type} (d : t V) : list (string * V) := d.
Definition keys {V : Type} (d : t V) : list string := map fst d.
Definition values {V : Type} (d : t V) : list V := map snd d.

(** [d.get(k, default)]. *)
Definition get_default {V : Type} (d : t V) (k : string) (default : V) : V :=
  match get d k with
  | Some v => v
  | None => default
  end.

End PyDict.

(** ** [split_tasks_to_projects.py] *)
Module Split.

(** Records returned by the queries. *)
Module Task.
Record t : Type := { Id : string; Name : string; Project__c : string }.
End Task.

Module Project.
Record t : Type := { Id : string; Name : string; Account__c : string }.
End Project.

Definition PROJECT_STATUSES : list string :=
  ["Not Started"; "R&D"; "Proposal"; "Development"; "Q&A"; "Deployed";
   "Cancelled"]%string.

(** The command line: [--org], [--project-id], [--num-projects],
    [--dry-run]. *)
Record arguments : Type := {
  org : string;
  project_id : string;
  num_projects : Z;
  dry_run : bool
}.

(** What the script prints, one constructor per [print] of [main]. *)
Inductive message : Type :=
| MsgOriginalProject (name account_name : string)
| MsgFoundTasks (n : nat)
| MsgNoTasks
| MsgCreatingProjects (projects_needed : Z)
| MsgWouldCreateProject (project_values : list (string * string))
| MsgCreatedProject (project_name project_id : string)
| MsgDistributing (ntasks nprojects : nat)
| MsgProjectCount (number count : nat)
| MsgWouldMoveTask (task_id task_name project_id : string)
| MsgDone (updates_made nprojects : nat)
| MsgSummary (original_project : string)
             (total_projects tasks_moved tasks_remaining_in_original : nat)
| MsgNoChanges.

(** The [sf] commands issued through [run_sf]. *)
Inductive sf_command : Type :=
| DataQuery (target_org query : string)
| DataCreateRecord (target_org sobject : string)
                   (values : list (string * string))
| DataUpdateRecord (target_org sobject record_id : string)
                   (values : list (string * string)).

Inductive event : Type :=
| Sf (c : sf_command)
| Stdout (m : message).

(** The org behind the CLI.  The answer to a command may depend on
    everything that happened before, so each answer is a function of the
    number of commands already issued and of the command's arguments.
    An answer [Raise RuntimeError] is a command that [run_sf] rejects. *)
Record salesforce : Type := {
  query_projects : nat -> string -> outcome (list Project.t);
  query_names : nat -> string -> outcome (list string);
  query_tasks : nat -> string -> outcome (list Task.t);
  created_id : nat -> string -> list (string * string) -> outcome string;
  update_status :
    nat -> string -> string -> list (string * string) -> outcome (option Z);
  today : string                    (* dt.date.today().strftime('%Y%m%d') *)
}.

(** The state threaded through a run: the pending draws of the random
    generator, the number of [sf] commands issued, and the events so far
    (oldest first). *)
Record world : Type := {
  rng : list nat;
  commands : nat;
  trace : list event
}.

Definition M (A : Type) : Type := world -> outcome A * world.

Definition ret {A : Type} (a : A) : M A := fun w => (Ok a, w).

Definition bind {A B : Type} (c : M A) (k : A -> M B) : M B :=
  fun w =>
    match c w with
    | (Ok a, w') => k a w'
    | (Raise e, w') => (Raise e, w')
    end.

Definition raise {A : Type} (e : py_exception) : M A :=
  fun w => (Raise e, w).

Declare Scope script_scope.
Delimit Scope script_scope with script.
Notation "x <- c ;; k" := (bind c (fun x => k))
  (at level 61, c at next level, right associativity) : script_scope.
Notation "' pat <- c ;; k" := (bind c (fun x => match x with pat => k end))
  (at level 61, pat pattern, c at next level, right associativity)
  : script_scope.
Notation "c ;; k" := (bind c (fun _ => k))
  (at level 61, right associativity) : script_scope.
Local Open Scope script_scope.

Definition emit (e : event) : M unit :=
  fun w => (Ok tt, {| rng := rng w; commands := commands w;
                      trace := trace w ++ [e] |}).

Definition print (m : message) : M unit := emit (Stdout m).

(** One [sf] command: it is recorded, counted, and answered by the org. *)
Definition run_sf {A : Type} (c : sf_command) (answer : nat -> outcome A)
  : M A :=
  fun w =>
    (answer (commands w),
     {| rng := rng w; commands := S (commands w);
        trace := trace w ++ [Sf c] |}).

(** *** The [random] module on a tape of draws

    [randbelow n] is CPython's [_randbelow(n)]: the next draw, reduced to
    [range(n)]. *)
Definition randbelow (n : nat) : M nat :=
  fun w =>
    match rng w with
    | [] => (Ok 0, w)
    | d :: rest =>
        (Ok (d mod n), {| rng := rest; commands := commands w;
                          trace := trace w |})
    end.

(** [random.choice(seq)]: [seq[randbelow(len(seq))]]. *)
Definition random_choice {A : Type} (seq : list A) : M A :=
  match seq with
  | [] => raise IndexError
  | a :: _ => j <- randbelow (length seq) ;; ret (nth j seq a)
  end.

(** [x[i] = v]. *)
Fixpoint set_nth {A : Type} (x : list A) (i : nat) (v : A) : list A :=
  match x, i with
  | [], _ => []
  | _ :: rest, O => v :: rest
  | a :: rest, S i' => a :: set_nth rest i' v
  end.

(** [x[i], x[j] = x[j], x[i]]. *)
Definition swap {A : Type} (x : list A) (i j : nat) : list A :=
  match nth_error x j, nth_error x i with
  | Some xj, Some xi => set_nth (set_nth x i xj) j xi
  | _, _ => x
  end.

(** [random.shuffle(x)]:
    [for i in reversed(range(1, len(x))): j = randbelow(i + 1); swap]. *)
Fixpoint shuffle_from {A : Type} (i : nat) (x : list A) : M (list A) :=
  match i with
  | O => ret x
  | S i' => j <- randbelow (i + 1) ;; shuffle_from i' (swap x i j)
  end.

Definition random_shuffle {A : Type} (x : list A) : M (list A) :=
  shuffle_from (length x - 1) x.

(** *** Loops *)

(** [for x in xs: body], with the variables the body updates as [s]. *)
Fixpoint for_each {X St : Type} (xs : list X) (body : X -> St -> M St)
         (s : St) : M St :=
  match xs with
  | [] => ret s
  | x :: rest => s' <- body x s ;; for_each rest body s'
  end.

(** [while cond: body], cut after [fuel] iterations. *)
Fixpoint while_loop {St : Type} (fuel : nat) (cond : St -> bool)
         (body : St -> M St) (s : St) : M St :=
  match fuel with
  | O => ret s
  | S fuel' =>
      if cond s then s' <- body s ;; while_loop fuel' cond body s'
      else ret s
  end.

(** [enumerate(xs)]. *)
Definition enumerate {X : Type} (xs : list X) : list (nat * X) :=
  combine (seq 0 (length xs)) xs.

(** [xs[lo:hi]] for [0 <= lo]; as in Python the slice is empty when
    [hi <= lo] and stops at the end of the list. *)
Definition slice {X : Type} (xs : list X) (lo hi : nat) : list X :=
  firstn (hi - lo) (skipn lo xs).

(** [a // b] and [a % b] on lengths. *)
Definition floordiv (a b : nat) : M nat :=
  if b =? 0 then raise ZeroDivisionError else ret (a / b).

Definition modulo (a b : nat) : M nat :=
  if b =? 0 then raise ZeroDivisionError else ret (a mod b).

Definition str (n : nat) : string := NilEmpty.string_of_uint (Nat.to_uint n).

(** *** The CLI wrappers [soql], [create_record], [update_record] *)
Section Script.

Variable sf : salesforce.
Variable args : arguments.

Definition soql_projects (query : string) : M (list Project.t) :=
  run_sf (DataQuery (org args) query)
         (fun n => query_projects sf n query).

Definition soql_names (query : string) : M (list string) :=
  run_sf (DataQuery (org args) query) (fun n => query_names sf n query).

Definition soql_tasks (query : string) : M (list Task.t) :=
  run_sf (DataQuery (org args) query) (fun n => query_tasks sf n query).

Definition create_record (sobject : string)
           (values : list (string * string)) : M string :=
  run_sf (DataCreateRecord (org args) sobject values)
         (fun n => created_id sf n sobject values).

Definition update_record (sobject record_id : string)
           (values : list (string * string)) : M unit :=
  status <- run_sf (DataUpdateRecord (org args) sobject record_id values)
                   (fun n => update_status sf n sobject record_id values) ;;
  match status with
  | Some 0%Z => ret tt
  | _ => raise RuntimeError            (* resp.get("status") != 0 *)
  end.

(** *** Lines 119-165: the projects to distribute across *)

(** The body shared by the two creation loops (lines 130-143 and
    152-165); [number] is [i+2] in the first and [i+1] in the second. *)
Definition new_project (account_name account_id : string) (number : nat)
           (projects_to_use : list string) : M (list string) :=
  let project_name :=
    (account_name ++ " Project " ++ today sf ++ " - " ++ str number)%string
  in
  status <- random_choice PROJECT_STATUSES ;;
  let project_values :=
    [("Name", project_name); ("Account__c", account_id);
     ("Status__c", status)]%string in
  if dry_run args then
    print (MsgWouldCreateProject project_values) ;;
    ret (projects_to_use ++ [("DRYPROJ" ++ str number)%string])
  else
    new_id <- create_record "Project__c" project_values ;;
    print (MsgCreatedProject project_name new_id) ;;
    ret (projects_to_use ++ [new_id]).

Definition build_projects_to_use (account_name account_id : string)
           (existing_projects : list Project.t) : M (list string) :=
  let projects_to_use := [project_id args] in
  let projects_needed :=
    (num_projects args - Z.of_nat (length existing_projects))%Z in
  if (0 <? projects_needed)%Z then
    print (MsgCreatingProjects projects_needed) ;;
    for_each (seq 0 (Z.to_nat projects_needed))
             (fun i projects_to_use =>
                new_project account_name account_id (i + 2)
                            projects_to_use)
             projects_to_use
  else
    projects_to_use <-
      for_each existing_projects
               (fun proj projects_to_use =>
                  if negb (String.eqb (Project.Id proj) (project_id args))
                  then ret (projects_to_use ++ [Project.Id proj])
                  else ret projects_to_use)
               projects_to_use ;;
    while_loop
      (Z.to_nat (num_projects args - Z.of_nat (length projects_to_use)))
      (fun projects_to_use =>
         (Z.of_nat (length projects_to_use) <? num_projects args)%Z)
      (fun projects_to_use =>
         let i := length projects_to_use in
         new_project account_name account_id (i + 1) projects_to_use)
      projects_to_use.

(** *** Lines 170-180: the partition *)

(** Line 177: [tasks_per_project + (1 if i < remainder else 0)]. *)
Definition bucket_count (tasks_per_project remainder i : nat) : nat :=
  tasks_per_project + (if i <? remainder then 1 else 0).

(** The body of the loop of lines 176-180 for the bucket at index [i]. *)
Definition assign_bucket (tasks : list Task.t)
           (tasks_per_project remainder : nat) (entry : nat * string)
           (vars : PyDict.t (list Task.t) * nat)
  : M (PyDict.t (list Task.t) * nat) :=
  let '(i, bucket) := entry in
  let '(distribution, task_idx) := vars in
  let count := bucket_count tasks_per_project remainder i in
  let distribution :=
    PyDict.set distribution bucket
               (slice tasks task_idx (task_idx + count)) in
  let task_idx := task_idx + count in
  print (MsgProjectCount (i + 1) count) ;;
  ret (distribution, task_idx).

Definition partition_tasks (tasks : list Task.t)
           (projects_to_use : list string)
  : M (PyDict.t (list Task.t)) :=
  tasks <- random_shuffle tasks ;;
  tasks_per_project <- floordiv (length tasks) (length projects_to_use) ;;
  remainder <- modulo (length tasks) (length projects_to_use) ;;
  '(distribution, _) <-
    for_each (enumerate projects_to_use)
             (assign_bucket tasks tasks_per_project remainder)
             (PyDict.empty, 0) ;;
  ret distribution.

(** *** Lines 183-192: the moves *)
Definition move_task (bucket : string) (task : Task.t) (updates_made : nat)
  : M nat :=
  if dry_run args then
    print (MsgWouldMoveTask (Task.Id task) (Task.Name task) bucket) ;;
    ret updates_made
  else
    update_record "Project_Task__c" (Task.Id task)
                  [("Project__c"%string, bucket)] ;;
    ret (updates_made + 1).

(** The body of the loop of lines 184-192 for one entry of the
    distribution. *)
Definition move_bucket (entry : string * list Task.t) (updates_made : nat)
  : M nat :=
  let '(bucket, project_tasks) := entry in
  if String.eqb bucket (project_id args)
  then ret updates_made                                  (* continue *)
  else for_each project_tasks (move_task bucket) updates_made.

Definition move_tasks (distribution : PyDict.t (list Task.t)) : M nat :=
  for_each (PyDict.items distribution) move_bucket 0.

(** The task distributor: partition, then moves. *)
Definition distribute (tasks : list Task.t) (projects_to_use : list string)
  : M (PyDict.t (list Task.t) * nat) :=
  distribution <- partition_tasks tasks projects_to_use ;;
  updates_made <- move_tasks distribution ;;
  ret (distribution, updates_made).

(** *** [main] *)

(** The four queries of [main] (lines 101, 107, 112 and 120). *)
Definition original_project_query : string :=
  ("SELECT Id, Name, Account__c FROM Project__c WHERE Id = '"
     ++ project_id args ++ "'")%string.

Definition account_name_query (account_id : string) : string :=
  ("SELECT Name FROM Account WHERE Id = '" ++ account_id ++ "'")%string.

Definition tasks_query : string :=
  ("SELECT Id, Name, Project__c FROM Project_Task__c WHERE Project__c = '"
     ++ project_id args ++ "'")%string.

Definition existing_projects_query (account_id : string) : string :=
  ("SELECT Id, Name FROM Project__c WHERE Account__c = '"
     ++ account_id ++ "'")%string.

Definition main : M unit :=
  projects <- soql_projects original_project_query ;;
  match projects with
  | [] => raise (SystemExit ("Project " ++ project_id args
                               ++ " not found.")%string)
  | original_project :: _ =>
      let account_id := Project.Account__c original_project in
      names <- soql_names (account_name_query account_id) ;;
      match names with
      | [] => raise IndexError
      | account_name :: _ =>
          print (MsgOriginalProject (Project.Name original_project)
                                    account_name) ;;
          tasks <- soql_tasks tasks_query ;;
          print (MsgFoundTasks (length tasks)) ;;
          if length tasks =? 0 then
            print MsgNoTasks                              (* return *)
          else
            existing_projects <-
              soql_projects (existing_projects_query account_id) ;;
            projects_to_use <-
              build_projects_to_use account_name account_id
                                    existing_projects ;;
            print (MsgDistributing (length tasks)
                                   (length projects_to_use)) ;;
            '(distribution, updates_made) <-
              distribute tasks projects_to_use ;;
            if negb (dry_run args) then
              print (MsgDone updates_made (length projects_to_use)) ;;
              print (MsgSummary
                       (project_id args) (length projects_to_use)
                       updates_made
                       (length (PyDict.get_default
                                  distribution (project_id args) [])))
            else
              print MsgNoChanges
      end
  end.

End Script.

(** The world a run starts from: a tape of draws, nothing issued yet. *)
Definition initial (tape : list nat) : world :=
  {| rng := tape; commands := 0; trace := [] |}.

(** The [sf] commands of a trace that create or update records. *)
Definition is_write (e : event) : bool :=
  match e with
  | Sf (DataCreateRecord _ _ _) => true
  | Sf (DataUpdateRecord _ _ _ _) => true
  | _ => false
  end.

End Split.

(** ** [generate_project_tasks.py]: the seeding script

    The script up to the creation of the tasks of an account (lines
    84-109 and 144-297): the current user, the owners, the projects of the
    accounts, the statuses of the tasks to create, their payloads and the
    loop that creates them. *)
Module Generate.

Definition STATUSES : list string :=
  ["Backlog"; "Pending"; "In Progress"; "In Review"; "Blocked"; "Completed";
   "Removed"; "Closed"]%string.

Definition PRIORITIES : list string := ["High"; "Medium"; "Low"]%string.

(** [PROJECT_STATUSES] of line 243. *)
Definition PROJECT_STATUSES : list string :=
  ["Not Started"; "R&D"; "Proposal"; "Development"; "Q&A"; "Deployed";
   "Cancelled"]%string.

(** Records returned by the queries. *)
Module Account.
Record t : Type := { Id : string; Name : string }.
End Account.

Module Project.
Record t : Type := {
  Id : string;
  Name : string;
  Account__c : option string          (* proj.get("Account__c") *)
}.
End Project.

Module Contact.
Record t : Type := { AccountId : option string }.
End Contact.

Module User.
Record t : Type := {
  Id : string;
  ContactId : option string;          (* user.get("ContactId") *)
  Contact : option Contact.t          (* user.get("Contact"), when a dict *)
}.
End User.

(** The command line: [--org], [--min], [--max], [--dry-run],
    [--owner-kevin], [--owner-william]. *)
Record arguments : Type := {
  org : string;
  min_tasks : Z;
  max_tasks : Z;
  dry_run : bool;
  owner_kevin : string;
  owner_william : string
}.

(** What the modelled part of the script prints. *)
Inductive message : Type :=
| MsgWouldCreateProject (project_values : list (string * string))
| MsgCreatedProject (project_name account_name : string)
| MsgNoProjects (account_name : string)
| MsgWouldCreateTask (payload : PyDict.t string).

(** The [sf] commands issued through [run_sf]. *)
Inductive sf_command : Type :=
| OrgDisplay (target_org : string)
| DataQuery (target_org query : string)
| DataCreateRecord (target_org sobject : string)
                   (values : list (string * string)).

Inductive event : Type :=
| Sf (c : sf_command)
| Stdout (m : message).

(** The org behind the CLI and the calendar of the machine.  As in
    [Split.salesforce] an answer is a function of the number of commands
    already issued and of the command's arguments.  [display] answers
    [sf org display] with the entries ["userId"] and ["username"] of the
    result; [today] is [dt.date.today()] as a day number, so that
    [today + dt.timedelta(days=n)] is [today + n]. *)
Record salesforce : Type := {
  display : nat -> outcome (option string * option string);
  query_ids : nat -> string -> outcome (list string);
  query_users : nat -> string -> outcome (list User.t);
  created_id : nat -> string -> list (string * string) -> outcome string;
  today : Z;
  isoformat : Z -> string;            (* date.isoformat() *)
  strftime_Ymd : Z -> string          (* date.strftime('%Y%m%d') *)
}.

(** The state threaded through a run: the pending draws of the random
    generator (integers for [_randbelow], floats for [random()]), the
    number of [sf] commands issued, and the events so far. *)
Record world : Type := {
  draws : list nat;
  variates : list float;
  commands : nat;
  trace : list event
}.

Definition M (A : Type) : Type := world -> outcome A * world.

Definition ret {A : Type} (a : A) : M A := fun w => (Ok a, w).

Definition bind {A B : Type} (c : M A) (k : A -> M B) : M B :=
  fun w =>
    match c w with
    | (Ok a, w') => k a w'
    | (Raise e, w') => (Raise e, w')
    end.

Definition raise {A : Type} (e : py_exception) : M A :=
  fun w => (Raise e, w).

(** A call that returns or raises without touching the world. *)
Definition lift {A : Type} (o : outcome A) : M A := fun w => (o, w).

Declare Scope seed_scope.
Delimit Scope seed_scope with seed.
Notation "x <- c ;; k" := (bind c (fun x => k))
  (at level 61, c at next level, right associativity) : seed_scope.
Notation "' pat <- c ;; k" := (bind c (fun x => match x with pat => k end))
  (at level 61, pat pattern, c at next level, right associativity)
  : seed_scope.
Notation "c ;; k" := (bind c (fun _ => k))
  (at level 61, right associativity) : seed_scope.
Local Open Scope seed_scope.

Definition emit (e : event) : M unit :=
  fun w => (Ok tt, {| draws := draws w; variates := variates w;
                      commands := commands w; trace := trace w ++ [e] |}).

Definition print (m : message) : M unit := emit (Stdout m).

Definition run_sf {A : Type} (c : sf_command) (answer : nat -> outcome A)
  : M A :=
  fun w =>
    (answer (commands w),
     {| draws := draws w; variates := variates w;
        commands := S (commands w); trace := trace w ++ [Sf c] |}).

(** *** The [random] module *)

(** A function of the [random] module that [Split] models on the tape of
    integer draws ([randbelow], [random_choice], [random_shuffle]), run
    on the draws of this world. *)
Definition random {A : Type} (c : Split.M A) : M A :=
  fun w =>
    let (r, after) := c (Split.initial (draws w)) in
    (r, {| draws := Split.rng after; variates := variates w;
           commands := commands w; trace := trace w |}).

(** [random.randint(a, b)], that is [randrange(a, b + 1)]:
    [a + _randbelow(b + 1 - a)], or [ValueError] on an empty range. *)
Definition randint (a b : Z) : M Z :=
  let width := (b + 1 - a)%Z in
  if (width <=? 0)%Z then raise ValueError
  else j <- random (Split.randbelow (Z.to_nat width)) ;;
       ret (a + Z.of_nat j)%Z.

(** [random.random()]: the next variate. *)
Definition random_random : M float :=
  fun w =>
    match variates w with
    | [] => (Ok 0%float, w)
    | u :: rest =>
        (Ok u, {| draws := draws w; variates := rest;
                  commands := commands w; trace := trace w |})
    end.

(** *** Python values *)

(** The truth value of an [Optional[str]]: [None] and [''] are false. *)
Definition truthy (v : option string) : bool :=
  match v with
  | Some s => negb (String.eqb s "")
  | None => false
  end.

(** The string [v] is when [if v:] holds. *)
Definition when_truthy (v : option string) : option string :=
  if truthy v then v else None.

Fixpoint zeros (n : nat) : string :=
  match n with
  | O => EmptyString
  | S n' => String "0" (zeros n')
  end.

(** [f"{n:04d}"] for [n >= 0]. *)
Definition format_04d (n : nat) : string :=
  let digits := Split.str n in
  (zeros (4 - String.length digits) ++ digits)%string.

(** [s[-6:]]. *)
Definition last6 (s : string) : string :=
  substring (String.length s - 6) 6 s.

(** [{"Id": record_id, **payload}]. *)
Definition with_id (record_id : string) (payload : PyDict.t string)
  : PyDict.t string :=
  fold_left (fun d kv => PyDict.set d (fst kv) (snd kv))
            (PyDict.items payload) [("Id"%string, record_id)].

(** [enumerate(xs, start=1)]. *)
Definition enumerate1 {X : Type} (xs : list X) : list (nat * X) :=
  combine (seq 1 (length xs)) xs.

(** [for x in xs: body], with the variables the body updates as [s]. *)
Fixpoint for_each {X St : Type} (xs : list X) (body : X -> St -> M St)
         (s : St) : M St :=
  match xs with
  | [] => ret s
  | x :: rest => s' <- body x s ;; for_each rest body s'
  end.

Section Script.

Variable sf : salesforce.
Variable args : arguments.

(** *** Lines 72-128: the CLI wrappers *)

Definition current_user : M (option string * option string) :=
  run_sf (OrgDisplay (org args)) (display sf).

Definition soql_ids (query : string) : M (list string) :=
  run_sf (DataQuery (org args) query) (fun n => query_ids sf n query).

Definition soql_users (query : string) : M (list User.t) :=
  run_sf (DataQuery (org args) query) (fun n => query_users sf n query).

Definition create_record (sobject : string)
           (values : list (string * string)) : M string :=
  run_sf (DataCreateRecord (org args) sobject values)
         (fun n => created_id sf n sobject values).

Definition user_id_query (username : string) : string :=
  ("SELECT Id FROM User WHERE Username = '" ++ username ++ "' LIMIT 1")%string.

(** Lines 84-99. *)
Definition resolve_current_user_id : M string :=
  '(user_id, username) <- current_user ;;
  match when_truthy user_id with
  | Some user_id => ret user_id
  | None =>
      match when_truthy username with
      | None => raise RuntimeError
      | Some username =>
          records <- soql_ids (user_id_query username) ;;
          match records with
          | [] => raise RuntimeError
          | first :: _ => ret first
          end
      end
  end.

Definition find_user_query (name_fragment : string) : string :=
  ("SELECT Id, Name, Username, ContactId, Contact.AccountId "
     ++ "FROM User WHERE Name LIKE '%" ++ name_fragment ++ "%' "
     ++ "ORDER BY LastModifiedDate DESC LIMIT 1")%string.

(** Lines 102-109. *)
Definition find_user (name_fragment : string) : M (option User.t) :=
  records <- soql_users (find_user_query name_fragment) ;;
  ret (match records with
       | [] => None
       | first :: _ => Some first
       end).

(** Lines 212-218 and 220-230: the info of a user that was found. *)
Definition owner_info (user : User.t) : Owner.info :=
  let account_id :=
    match User.Contact user with
    | Some contact => Contact.AccountId contact
    | None => None
    end in
  {| Owner.user_id := Some (User.Id user);
     Owner.contact_id := User.ContactId user;
     Owner.account_id := account_id |}.

(** Lines 204-230 of [main]: the check of [--min] and [--max], then
    [me_info], [kevin_info] and [william_info]. *)
Definition owners : M (Owner.info * option Owner.info * option Owner.info) :=
  if ((min_tasks args <? 1)%Z || (max_tasks args <? min_tasks args)%Z)%bool
  then raise (SystemExit "Invalid min/max values.")
  else
    me_id <- resolve_current_user_id ;;
    let me_info := {| Owner.user_id := Some me_id;
                      Owner.contact_id := None;
                      Owner.account_id := None |} in
    kevin <- find_user (owner_kevin args) ;;
    let kevin_info := option_map owner_info kevin in
    william <- find_user (owner_william args) ;;
    let william_info := option_map owner_info william in
    ret (me_info, kevin_info, william_info).

(** *** Lines 235-262 of [main]: a project for every account *)

(** Lines 235-239: [projects_by_account]. *)
Definition group_projects (projects : list Project.t)
  : PyDict.t (list Project.t) :=
  fold_left
    (fun projects_by_account proj =>
       match when_truthy (Project.Account__c proj) with
       | Some acct =>
           (* projects_by_account.setdefault(acct, []).append(proj) *)
           PyDict.set projects_by_account acct
                      (PyDict.get_default projects_by_account acct []
                         ++ [proj])
       | None => projects_by_account
       end)
    projects PyDict.empty.

(** The body of the loop of lines 245-262; the variables it updates are
    [projects_by_account] and [projects_created]. *)
Definition create_missing_project (acct : Account.t)
           (vars : PyDict.t (list Project.t) * nat)
  : M (PyDict.t (list Project.t) * nat) :=
  let '(projects_by_account, projects_created) := vars in
  match PyDict.get projects_by_account (Account.Id acct) with
  | Some _ => ret (projects_by_account, projects_created)
  | None =>
      let project_name :=
        (Account.Name acct ++ " Project - "
           ++ strftime_Ymd sf (today sf))%string in
      status <- random (Split.random_choice PROJECT_STATUSES) ;;
      let project_values :=
        [("Name", project_name); ("Account__c", Account.Id acct);
         ("Status__c", status)]%string in
      if dry_run args then
        print (MsgWouldCreateProject project_values) ;;
        let fake_project_id := ("DRYPROJ" ++ last6 (Account.Id acct))%string
        in
        ret (PyDict.set projects_by_account (Account.Id acct)
                        [ {| Project.Id := fake_project_id;
                             Project.Name := project_name;
                             Project.Account__c :=
                               Some (Account.Id acct) |} ],
             projects_created)
      else
        project_id <- create_record "Project__c" project_values ;;
        let projects_by_account :=
          PyDict.set projects_by_account (Account.Id acct)
                     [ {| Project.Id := project_id;
                          Project.Name := project_name;
                          Project.Account__c := Some (Account.Id acct) |} ]
        in
        print (MsgCreatedProject project_name (Account.Name acct)) ;;
        ret (projects_by_account, S projects_created)
  end.

Definition create_missing_projects (accounts : list Account.t)
           (projects : list Project.t)
  : M (PyDict.t (list Project.t) * nat) :=
  for_each accounts create_missing_project (group_projects projects, 0).

(** Lines 272-276: the project of the tasks of an account, or [None] when
    the account is skipped ([continue]). *)
Definition choose_project (projects_by_account : PyDict.t (list Project.t))
           (acct : Account.t) : M (option string) :=
  let acct_projects :=
    PyDict.get_default projects_by_account (Account.Id acct) [] in
  match acct_projects with
  | [] => print (MsgNoProjects (Account.Name acct)) ;; ret None
  | _ :: _ =>
      project <- random (Split.random_choice acct_projects) ;;
      ret (Some (Project.Id project))
  end.

(** *** Lines 278-283 of [main]: the statuses of the tasks to create *)
Definition tasks_to_create : M (list string) :=
  total_tasks <- randint (min_tasks args) (max_tasks args) ;;
  statuses <- random (Split.random_shuffle STATUSES) ;;
  more <- for_each
            (seq 0 (Z.to_nat (total_tasks - Z.of_nat (length STATUSES))))
            (fun _ more =>
               status <- random (Split.random_choice STATUSES) ;;
               ret (more ++ [status]))
            [] ;;
  ret (statuses ++ more).

(** *** Lines 144-165: [pick_owner] on the variates of the world

    The variate is the one [random.choices] draws by its call of
    [random()]. *)
Definition pick_owner (account_id : string) (me : Owner.info)
           (kevin william : option Owner.info) (remaining : Z)
  : M (Owner.candidate * Z) :=
  u <- random_random ;;
  lift (Owner.pick_owner account_id me kevin william remaining u).

(** *** Lines 168-190: [generate_task_payload] *)
Definition generate_task_payload (account : Account.t)
           (project_id status : string) (developer_id : option string)
           (name_suffix : string) : M (PyDict.t string) :=
  due_days <- randint 3 45 ;;
  start_days <- randint (-3) 10 ;;
  priority <- random (Split.random_choice PRIORITIES) ;;
  let payload : PyDict.t string :=
    [("Name", Account.Name account ++ " Task " ++ name_suffix);
     ("Account__c", Account.Id account);
     ("Project__c", project_id);
     ("Status__c", status);
     ("Priority__c", priority);
     ("Start_Date__c", isoformat sf (today sf + start_days)%Z);
     ("Due_Date__c", isoformat sf (today sf + due_days)%Z);
     ("Description__c", "Auto-generated seed task for testing.")]%string in
  match when_truthy developer_id with
  | Some developer_id => ret (PyDict.set payload "Developer__c" developer_id)
  | None => ret payload
  end.

(** *** Lines 285-297 of [main]: the tasks of an account

    The body of the loop; the variables it updates are [created_tasks],
    [summary["tasks"]] and [max_william["remaining"]]. *)
Definition create_task (acct : Account.t) (project_id : string)
           (me : Owner.info) (kevin william : option Owner.info)
           (entry : nat * string)
           (vars : list (PyDict.t string) * nat * Z)
  : M (list (PyDict.t string) * nat * Z) :=
  let '(idx, status) := entry in
  let '(created_tasks, tasks, remaining) := vars in
  '(owner_choice, remaining) <-
    pick_owner (Account.Id acct) me kevin william remaining ;;
  let developer_id := Owner.contact_id (Owner.owner owner_choice) in
  payload <- generate_task_payload acct project_id status developer_id
                                   ("#" ++ Split.str idx) ;;
  if dry_run args then
    print (MsgWouldCreateTask payload) ;;
    let fake_id := ("DRY" ++ format_04d idx)%string in
    ret (created_tasks ++ [with_id fake_id payload], tasks, remaining)
  else
    task_id <- create_record "Project_Task__c" payload ;;
    ret (created_tasks ++ [with_id task_id payload], S tasks, remaining).

Definition create_tasks (acct : Account.t) (project_id : string)
           (me : Owner.info) (kevin william : option Owner.info)
           (tasks_to_create : list string) (tasks : nat) (remaining : Z)
  : M (list (PyDict.t string) * nat * Z) :=
  for_each (enumerate1 tasks_to_create)
           (create_task acct project_id me kevin william)
           ([], tasks, remaining).

End Script.

(** The world a run starts from. *)
Definition initial (ints : list nat) (floats : list float) : world :=
  {| draws := ints; variates := floats; commands := 0; trace := [] |}.

Definition is_create (e : event) : bool :=
  match e with
  | Sf (DataCreateRecord _ _ _) => true
  | _ => false
  end.

End Generate.

(** * Vocabulary of the statements

    Notions the properties below are stated with: what a sequence of
    dictionary assignments leaves behind, the assignments the partition
    loop performs, the move list of a distribution, the events of a run;
    and a few concrete orgs, command lines and tasks for the examples. *)

(** The tests [choices] performs on the total of the weights. *)
Definition total_accepted (weights : list float) : bool :=
  match rev (PyRandomChoices.accumulate weights) with
  | [] => false
  | last :: _ =>
      negb (PrimFloat.leb (last + 0)%float 0%float)
      && PyRandomChoices.isfinite (last + 0)%float
  end.

(** What a sequence of assignments [d[k] = v] leaves in the dictionary. *)
Definition set_all {V : Type} (d : PyDict.t V) (writes : list (string * V))
  : PyDict.t V :=
  fold_left (fun d kv => PyDict.set d (fst kv) (snd kv)) writes d.

(** The assignments [distribution[bucket] = tasks[task_idx:task_idx+count]]
    the loop of lines 176-180 performs, in order, for the buckets from
    index [i] on; [base] and [rem] are [tasks_per_project] and
    [remainder]. *)
Fixpoint assignments (tasks : list Split.Task.t) (base rem i : nat)
         (buckets : list string) (task_idx : nat)
  : list (string * list Split.Task.t) :=
  match buckets with
  | [] => []
  | bucket :: rest =>
      let count := Split.bucket_count base rem i in
      (bucket, Split.slice tasks task_idx (task_idx + count))
        :: assignments tasks base rem (S i) rest (task_idx + count)
  end.

(** The lines ["  Project {i+1}: {count} tasks"] that loop prints. *)
Definition count_events (base rem i n : nat) : list Split.event :=
  map (fun j => Split.Stdout
                  (Split.MsgProjectCount (j + 1)
                                         (Split.bucket_count base rem j)))
      (seq i n).

(** The move list of a distribution: the tasks stored under a bucket other
    than the original project, each with that bucket, in the order of the
    dictionary. *)
Definition moves (original : string) (d : PyDict.t (list Split.Task.t))
  : list (Split.Task.t * string) :=
  flat_map (fun entry : string * list Split.Task.t =>
              if String.eqb (fst entry) original then []
              else map (fun t => (t, fst entry)) (snd entry))
           d.

(** The command that carries out a move, and the line a dry run prints
    instead. *)
Definition update_command (org : string) (move : Split.Task.t * string)
  : Split.sf_command :=
  Split.DataUpdateRecord org "Project_Task__c" (Split.Task.Id (fst move))
                         [("Project__c"%string, snd move)].

Definition would_move (move : Split.Task.t * string) : Split.event :=
  Split.Stdout (Split.MsgWouldMoveTask (Split.Task.Id (fst move))
                                       (Split.Task.Name (fst move))
                                       (snd move)).

(** The world after some more events. *)
Definition add_events (w : Split.world) (es : list Split.event)
  : Split.world :=
  {| Split.rng := Split.rng w;
     Split.commands := Split.commands w;
     Split.trace := Split.trace w ++ es |}.

(** The world after some more commands, all answered. *)
Definition issue (w : Split.world) (cs : list Split.sf_command)
  : Split.world :=
  {| Split.rng := Split.rng w;
     Split.commands := length cs + Split.commands w;
     Split.trace := Split.trace w ++ map Split.Sf cs |}.

(** Every update is accepted by the org. *)
Definition updates_accepted (sf : Split.salesforce) : Prop :=
  forall n sobject record_id values,
    Split.update_status sf n sobject record_id values = Ok (Some 0%Z).

(** Three tasks of project [B0]. *)
Definition task_T1 : Split.Task.t :=
  {| Split.Task.Id := "T1"; Split.Task.Name := "first";
     Split.Task.Project__c := "B0" |}.

Definition task_T2 : Split.Task.t :=
  {| Split.Task.Id := "T2"; Split.Task.Name := "second";
     Split.Task.Project__c := "B0" |}.

Definition task_T3 : Split.Task.t :=
  {| Split.Task.Id := "T3"; Split.Task.Name := "third";
     Split.Task.Project__c := "B0" |}.

(** An org that accepts every command: project [B0] of account [A1],
    named Acme, with two tasks. *)
Definition accepting_org : Split.salesforce :=
  {| Split.query_projects :=
       fun _ _ => Ok [ {| Split.Project.Id := "B0";
                          Split.Project.Name := "Original";
                          Split.Project.Account__c := "A1" |} ];
     Split.query_names := fun _ _ => Ok ["Acme"%string];
     Split.query_tasks := fun _ _ => Ok [task_T1; task_T2];
     Split.created_id := fun n _ _ => Ok ("NEW" ++ Split.str n)%string;
     Split.update_status := fun _ _ _ _ => Ok (Some 0%Z);
     Split.today := "20240101" |}.

(** The same org when project [B0] has no task. *)
Definition org_without_tasks : Split.salesforce :=
  {| Split.query_projects :=
       fun _ _ => Ok [ {| Split.Project.Id := "B0";
                          Split.Project.Name := "Original";
                          Split.Project.Account__c := "A1" |} ];
     Split.query_names := fun _ _ => Ok ["Acme"%string];
     Split.query_tasks := fun _ _ => Ok [];
     Split.created_id := fun n _ _ => Ok ("NEW" ++ Split.str n)%string;
     Split.update_status := fun _ _ _ _ => Ok (Some 0%Z);
     Split.today := "20240101" |}.

(** [--project-id B0 --num-projects 4], live and with [--dry-run]. *)
Definition live_args : Split.arguments :=
  {| Split.org := "milestoneDevOrg"; Split.project_id := "B0";
     Split.num_projects := 4; Split.dry_run := false |}.

Definition dry_args : Split.arguments :=
  {| Split.org := "milestoneDevOrg"; Split.project_id := "B0";
     Split.num_projects := 4; Split.dry_run := true |}.

(** The events of a live run that creates three projects after the
    original one, for account Acme on 2024-01-01. *)
Definition three_projects_created : list Split.event :=
  [ Split.Stdout (Split.MsgCreatingProjects 3);
    Split.Sf (Split.DataCreateRecord
                "milestoneDevOrg" "Project__c"
                [("Name", "Acme Project 20240101 - 2");
                 ("Account__c", "A1");
                 ("Status__c", "Development")]%string);
    Split.Stdout (Split.MsgCreatedProject "Acme Project 20240101 - 2" "NEW0");
    Split.Sf (Split.DataCreateRecord
                "milestoneDevOrg" "Project__c"
                [("Name", "Acme Project 20240101 - 3");
                 ("Account__c", "A1");
                 ("Status__c", "R&D")]%string);
    Split.Stdout (Split.MsgCreatedProject "Acme Project 20240101 - 3" "NEW1");
    Split.Sf (Split.DataCreateRecord
                "milestoneDevOrg" "Project__c"
                [("Name", "Acme Project 20240101 - 4");
                 ("Account__c", "A1");
                 ("Status__c", "Q&A")]%string);
    Split.Stdout (Split.MsgCreatedProject "Acme Project 20240101 - 4" "NEW2") ].

(** A computation that adds no create or update command to the trace,
    however it ends. *)
Definition adds_no_write {A : Type} (c : Split.M A) : Prop :=
  forall w,
    filter Split.is_write (Split.trace (snd (c w)))
    = filter Split.is_write (Split.trace w).

(** The create commands of a trace. *)
Definition is_create (e : Split.event) : bool :=
  match e with
  | Split.Sf (Split.DataCreateRecord _ _ _) => true
  | _ => false
  end.

Definition created_count (tr : list Split.event) : nat :=
  length (filter is_create tr).

(** The world of a run of [main] from the tape [tape] once its four
    queries are answered, when the third one has found [tasks]. *)
Definition before_distribution (args : Split.arguments)
           (original_project : Split.Project.t) (account_name : string)
           (tasks : list Split.Task.t) (tape : list nat) : Split.world :=
  {| Split.rng := tape;
     Split.commands := 4;
     Split.trace :=
       [ Split.Sf (Split.DataQuery (Split.org args)
                                   (Split.original_project_query args));
         Split.Sf (Split.DataQuery
                     (Split.org args)
                     (Split.account_name_query
                        (Split.Project.Account__c original_project)));
         Split.Stdout (Split.MsgOriginalProject
                         (Split.Project.Name original_project) account_name);
         Split.Sf (Split.DataQuery (Split.org args) (Split.tasks_query args));
         Split.Stdout (Split.MsgFoundTasks (length tasks));
         Split.Sf (Split.DataQuery
                     (Split.org args)
                     (Split.existing_projects_query
                        (Split.Project.Account__c original_project))) ] |}.

(** What [update_record] ends with when the org's answer is not the
    status 0: the failure of the command, or the [RuntimeError] of line
    87. *)
Definition update_failure (answer : outcome (option Z)) : py_exception :=
  match answer with
  | Raise e => e
  | Ok _ => RuntimeError
  end.

(** Line 163: the test that decides whether a pick is counted against
    William's quota. *)
Definition counted_for_william (w : Owner.info) (c : Owner.candidate) : bool :=
  opt_str_eqb (Owner.user_id (Owner.owner c)) (Owner.user_id w).

(** The calls of a run whose pick was counted against the quota, each with
    its pick. *)
Definition william_picks (w : Owner.info) (calls : list (string * float))
           (picked : list Owner.candidate)
  : list ((string * float) * Owner.candidate) :=
  filter (fun p => counted_for_william w (snd p)) (combine calls picked).

(** A step of the seeding script that issues no command and prints
    nothing: it can only consume random draws. *)
Definition quiet (w w' : Generate.world) : Prop :=
  Generate.commands w' = Generate.commands w
  /\ Generate.trace w' = Generate.trace w.

(** The number of create commands of a trace of the seeding script. *)
Definition records_created (tr : list Generate.event) : nat :=
  length (filter Generate.is_create tr).

(** The default command line of the seeding script, live and with
    [--dry-run]. *)
Definition seed_args : Generate.arguments :=
  {| Generate.org := "milestoneDevOrg"; Generate.min_tasks := 10;
     Generate.max_tasks := 20; Generate.dry_run := false;
     Generate.owner_kevin := "Kevin P";
     Generate.owner_william := "William Hank" |}.

Definition seed_dry_args : Generate.arguments :=
  {| Generate.org := "milestoneDevOrg"; Generate.min_tasks := 10;
     Generate.max_tasks := 20; Generate.dry_run := true;
     Generate.owner_kevin := "Kevin P";
     Generate.owner_william := "William Hank" |}.

(** An org that accepts every create command of the seeding script. *)
Definition creates_accepted (sf : Generate.salesforce) : Prop :=
  forall n sobject values,
    exists record_id, Generate.created_id sf n sobject values = Ok record_id.

(** An entry the loop of lines 245-262 adds to [projects_by_account]: one
    new project, of an account of the list that had none. *)
Definition project_added (accounts : list Generate.Account.t)
           (projects : list Generate.Project.t)
           (entry : string * list Generate.Project.t) : Prop :=
  exists acct project,
    In acct accounts
    /\ fst entry = Generate.Account.Id acct
    /\ snd entry = [project]
    /\ Generate.Project.Account__c project = Some (Generate.Account.Id acct)
    /\ PyDict.get (Generate.group_projects projects)
                  (Generate.Account.Id acct) = None.

(** A well-formed [projects_by_account]: distinct keys, no empty list. *)
Definition grouped (d : PyDict.t (list Generate.Project.t)) : Prop :=
  NoDup (PyDict.keys d) /\ forall k v, In (k, v) d -> v <> [].

(** What holds of [projects_by_account] and [projects_created] after the
    accounts [done], in a run of the loop of lines 245-262 that started in
    the world [w]. *)
Definition projects_invariant (args : Generate.arguments)
           (projects : list Generate.Project.t) (w : Generate.world)
           (done : list Generate.Account.t)
           (vars : PyDict.t (list Generate.Project.t) * nat)
           (w' : Generate.world) : Prop :=
  exists added,
    fst vars = Generate.group_projects projects ++ added
    /\ Forall (project_added done projects) added
    /\ snd vars = (if Generate.dry_run args then 0 else length added)
    /\ records_created (Generate.trace w')
       = records_created (Generate.trace w) + snd vars
    /\ grouped (fst vars)
    /\ forall acct, In acct done ->
                    PyDict.get (fst vars) (Generate.Account.Id acct) <> None.

(** The payload [generate_task_payload] builds once the two day offsets
    and the priority are drawn: the eight fields of the literal of lines
    178-187, then [Developer__c] when a developer is given. *)
Definition task_fields (sf : Generate.salesforce)
           (account : Generate.Account.t) (project_id status : string)
           (developer_id : option string) (name_suffix : string)
           (start_days due_days : Z) (priority : string) : PyDict.t string :=
  [("Name", Generate.Account.Name account ++ " Task " ++ name_suffix);
   ("Account__c", Generate.Account.Id account);
   ("Project__c", project_id);
   ("Status__c", status);
   ("Priority__c", priority);
   ("Start_Date__c",
    Generate.isoformat sf (Generate.today sf + start_days)%Z);
   ("Due_Date__c", Generate.isoformat sf (Generate.today sf + due_days)%Z);
   ("Description__c", "Auto-generated seed task for testing.")]%string
    ++ match Generate.when_truthy developer_id with
       | Some id => [("Developer__c"%string, id)]
       | None => []
       end.

(** A created task that follows the entry [(idx, status)] of
    [enumerate(tasks_to_create, start=1)]. *)
Definition task_follows (acct : Generate.Account.t) (project_id : string)
           (dry_run : bool) (entry : nat * string) (task : PyDict.t string)
  : Prop :=
  PyDict.get task "Status__c" = Some (snd entry)
  /\ PyDict.get task "Name"
     = Some (Generate.Account.Name acct ++ " Task #"
               ++ Split.str (fst entry))%string
  /\ PyDict.get task "Account__c" = Some (Generate.Account.Id acct)
  /\ PyDict.get task "Project__c" = Some project_id
  /\ (dry_run = true ->
      PyDict.get task "Id"
      = Some ("DRY" ++ Generate.format_04d (fst entry))%string).

(** What the loop of lines 285-297 prints (dry run) or sends to the org
    (live run) for an entry [{"Id": ..., **payload}] of [created_tasks]:
    the payload, that is the entry without its first key. *)
Definition task_event (args : Generate.arguments) (task : PyDict.t string)
  : Generate.event :=
  if Generate.dry_run args
  then Generate.Stdout (Generate.MsgWouldCreateTask (tl task))
  else Generate.Sf (Generate.DataCreateRecord
                      (Generate.org args) "Project_Task__c" (tl task)).

(** The created tasks whose developer is the contact [contact_id]. *)
Definition developed_by (contact_id : string)
           (created_tasks : list (PyDict.t string))
  : list (PyDict.t string) :=
  filter (fun task =>
            opt_str_eqb (PyDict.get task "Developer__c") (Some contact_id))
         created_tasks.

(** An org that accepts every command of the seeding script, with the
    current user [U1]; days are printed by their number. *)
Definition seeding_org : Generate.salesforce :=
  {| Generate.display :=
       fun _ => Ok (Some "U1"%string, Some "me@example.com"%string);
     Generate.query_ids := fun _ _ => Ok ["U1"%string];
     Generate.query_users := fun _ _ => Ok [];
     Generate.created_id := fun n _ _ => Ok ("REC" ++ Split.str n)%string;
     Generate.today := 738000;
     Generate.isoformat := fun day => Split.str (Z.to_nat day);
     Generate.strftime_Ymd := fun day => Split.str (Z.to_nat day) |}.

(** The account Acme, the current user, Kevin (a contact of another
    account) and William (a contact of Acme). *)
Definition account_acme : Generate.Account.t :=
  {| Generate.Account.Id := "A1"; Generate.Account.Name := "Acme" |}.

Definition info_me : Owner.info :=
  {| Owner.user_id := Some "U1"%string; Owner.contact_id := None;
     Owner.account_id := None |}.

Definition info_kevin : Owner.info :=
  {| Owner.user_id := Some "U2"%string;
     Owner.contact_id := Some "C2"%string;
     Owner.account_id := Some "A2"%string |}.

Definition info_william : Owner.info :=
  {| Owner.user_id := Some "U3"%string;
     Owner.contact_id := Some "C3"%string;
     Owner.account_id := Some "A1"%string |}.

(** The world of the seeding script after some more commands. *)
Definition sent (w : Generate.world) (cs : list Generate.sf_command)
  : Generate.world :=
  {| Generate.draws := Generate.draws w;
     Generate.variates := Generate.variates w;
     Generate.commands := length cs + Generate.commands w;
     Generate.trace := Generate.trace w ++ map Generate.Sf cs |}.

(** The three kinds of events of a run of the distributor, each with the
    only shape the script gives it; a printed line is of every kind.
    [org] is the target org of the command line. *)
Definition query_event (org : string) (e : Split.event) : Prop :=
  match e with
  | Split.Stdout _ => True
  | Split.Sf (Split.DataQuery target_org _) => target_org = org
  | Split.Sf _ => False
  end.

Definition project_creation_event (org : string) (e : Split.event) : Prop :=
  match e with
  | Split.Stdout _ => True
  | Split.Sf (Split.DataCreateRecord target_org sobject values) =>
      target_org = org /\ sobject = "Project__c"%string
      /\ exists name account_id status,
          values = [("Name", name); ("Account__c", account_id);
                    ("Status__c", status)]%string
          /\ In status Split.PROJECT_STATUSES
  | Split.Sf _ => False
  end.

Definition task_move_event (org : string) (e : Split.event) : Prop :=
  match e with
  | Split.Stdout _ => True
  | Split.Sf (Split.DataUpdateRecord target_org sobject _ values) =>
      target_org = org /\ sobject = "Project_Task__c"%string
      /\ exists bucket, values = [("Project__c"%string, bucket)]
  | Split.Sf _ => False
  end.

(** A computation that, however it ends, only appends events of the kind
    [P] to the trace. *)
Definition adds (P : Split.event -> Prop) {A : Type} (c : Split.M A)
  : Prop :=
  forall w,
    exists es,
      Split.trace (snd (c w)) = Split.trace w ++ es /\ Forall P es.

(** A computation that appends events of the kind [P1], then of the kind
    [P2]. *)
Definition adds_then (P1 P2 : Split.event -> Prop) {A : Type}
           (c : Split.M A) : Prop :=
  forall w,
    exists es1 es2,
      Split.trace (snd (c w)) = Split.trace w ++ es1 ++ es2
      /\ Forall P1 es1 /\ Forall P2 es2.

(** A computation that appends events of the kind [P1], then [P2], then
    [P3]. *)
Definition adds_three (P1 P2 P3 : Split.event -> Prop) {A : Type}
           (c : Split.M A) : Prop :=
  forall w,
    exists es1 es2 es3,
      Split.trace (snd (c w)) = Split.trace w ++ es1 ++ es2 ++ es3
      /\ Forall P1 es1 /\ Forall P2 es2 /\ Forall P3 es3.

(** * Properties *)

Lemma opt_str_eqb_eq (a b : option string) :
  opt_str_eqb a b = true <-> a = b.
Proof.
  destruct a as [x|], b as [y|]; simpl; split; intro H;
    try discriminate; try reflexivity.
  - apply String.eqb_eq in H. now subst.
  - injection H as ->. apply String.eqb_refl.
Qed.

(** ** Weighted sampling *)
Section ChoicesFacts.

Import PyRandomChoices.

Lemma midpoint_between (lo hi : nat) :
  lo < hi -> lo <= (lo + hi) / 2 < hi.
Proof.
  intro Hlt. split.
  - apply Nat.div_le_lower_bound; lia.
  - apply Nat.Div0.div_lt_upper_bound; lia.
Qed.

(** The bisection stays between its bounds. *)
Lemma bisect_loop_bounds (fuel : nat) (a : list float) (x : float) :
  forall lo hi, lo <= hi ->
    lo <= bisect_loop fuel a x lo hi <= hi.
Proof.
  induction fuel as [|fuel IH]; intros lo hi Hle; cbn [bisect_loop].
  - lia.
  - destruct (Nat.ltb_spec lo hi) as [Hlt|Hge]; [|lia].
    pose proof (midpoint_between lo hi Hlt) as Hmid.
    destruct (PrimFloat.ltb x (nth ((lo + hi) / 2) a 0%float)).
    + pose proof (IH lo ((lo + hi) / 2) (proj1 Hmid)). lia.
    + assert (Hle' : (lo + hi) / 2 + 1 <= hi) by lia.
      pose proof (IH ((lo + hi) / 2 + 1) hi Hle'). lia.
Qed.

(** [hi - lo] iterations are enough: the loop then ends because its
    condition [lo < hi] is false, and more fuel changes nothing. *)
Lemma bisect_loop_fuel (fuel : nat) (a : list float) (x : float) :
  forall lo hi extra, hi - lo <= fuel ->
    bisect_loop (fuel + extra) a x lo hi = bisect_loop fuel a x lo hi.
Proof.
  induction fuel as [|fuel IH]; intros lo hi extra Hfuel.
  - destruct extra as [|extra]; cbn [bisect_loop Nat.add]; [reflexivity|].
    destruct (Nat.ltb_spec lo hi); [lia|reflexivity].
  - cbn [bisect_loop Nat.add].
    destruct (Nat.ltb_spec lo hi) as [Hlt|Hge]; [|reflexivity].
    pose proof (midpoint_between lo hi Hlt) as Hmid.
    destruct (PrimFloat.ltb x (nth ((lo + hi) / 2) a 0%float));
      apply IH; lia.
Qed.

Lemma bisect_bounds (a : list float) (x : float) (lo hi : nat) :
  lo <= hi -> lo <= bisect a x lo hi <= hi.
Proof. apply bisect_loop_bounds. Qed.

Lemma accumulate_from_length (ws : list float) :
  forall acc, length (accumulate_from acc ws) = length ws.
Proof. induction ws as [|w ws IH]; intro acc; simpl; auto. Qed.

Lemma accumulate_length (ws : list float) :
  length (accumulate ws) = length ws.
Proof. destruct ws; simpl; [|rewrite accumulate_from_length]; reflexivity. Qed.

(** Whatever the variate, [choices] returns a member of the population. *)
Lemma choices_In {A : Type} (population : list A) (weights : list float)
      (u : float) (c : A) :
  choices population weights u = Ok c -> In c population.
Proof.
  unfold choices.
  destruct (negb (length (accumulate weights) =? length population));
    [discriminate|].
  destruct (rev (accumulate weights)) as [|last rest]; [discriminate|].
  destruct (PrimFloat.leb (last + 0)%float 0%float); [discriminate|].
  destruct (negb (isfinite (last + 0)%float)); [discriminate|].
  destruct (nth_error population _) as [c'|] eqn:Hnth; [|discriminate].
  intro H. injection H as <-. eapply nth_error_In; eassumption.
Qed.

(** [choices] succeeds on a non-empty population with as many weights
    whose total passes the tests. *)
Lemma choices_ok {A : Type} (population : list A) (weights : list float)
      (u : float) :
  population <> [] ->
  length weights = length population ->
  total_accepted weights = true ->
  exists c, choices population weights u = Ok c.
Proof.
  intros Hne Hlen Htot. unfold choices, total_accepted in *.
  rewrite accumulate_length, Hlen, Nat.eqb_refl. simpl.
  destruct (rev (accumulate weights)) as [|last rest]; [discriminate|].
  apply andb_prop in Htot as [Hpos Hfin].
  apply negb_true_iff in Hpos. rewrite Hpos, Hfin. simpl.
  destruct (nth_error population _) as [c|] eqn:Hnth; [eauto|].
  exfalso. apply nth_error_None in Hnth.
  pose proof (bisect_bounds (accumulate weights)
                (u * (last + 0))%float 0 (length population - 1)
                (Nat.le_0_l _)) as Hb.
  destruct population; [congruence|simpl in *; lia].
Qed.

End ChoicesFacts.

(** ** The owner selector *)
Section OwnerFacts.

Import PyRandomChoices Owner.

Variables (me : info) (kevin : option info).

Lemma candidates_split (acct : string) (william : option info)
      (remaining : Z) :
  candidates acct me kevin william remaining
  = base_candidates me kevin
      ++ match william with
         | Some w => if william_eligible acct william remaining
                     then [william_entry w] else []
         | None => []
         end.
Proof. unfold candidates, base_candidates. destruct kevin; reflexivity. Qed.

Lemma candidates_not_eligible (acct : string) (william : option info)
      (remaining : Z) :
  william_eligible acct william remaining = false ->
  candidates acct me kevin william remaining = base_candidates me kevin.
Proof.
  intro H. rewrite candidates_split. destruct william as [w|].
  - rewrite H. apply app_nil_r.
  - apply app_nil_r.
Qed.

(** The weights of the two kinds of entries differ, so an entry of [me]
    or of Kevin is never the entry of William, even when they describe
    the same user. *)
Lemma base_candidate_not_william (c : candidate) (w : info) :
  In c (base_candidates me kevin) -> c <> william_entry w.
Proof.
  intros Hin Heq. apply (f_equal weight) in Heq. simpl in Heq.
  apply (f_equal (fun x => PrimFloat.ltb x 0.3)) in Heq.
  unfold base_candidates in Hin.
  destruct kevin as [k|]; simpl in Hin;
    repeat (destruct Hin as [<-|Hin]; [vm_compute in Heq; discriminate|]);
    exact Hin.
Qed.

(** The normalised weights of every roster [pick_owner] can build pass
    the tests of [choices]: the call never raises. *)
Lemma roster_weights_accepted (acct : string) (william : option info)
      (remaining : Z) :
  let weights := map weight (candidates acct me kevin william remaining) in
  total_accepted (map (fun w => PrimFloat.div w (sum weights)) weights)
  = true.
Proof.
  unfold candidates.
  destruct kevin as [k|], william as [w|];
    try destruct (william_eligible acct (Some w) remaining);
    vm_compute; reflexivity.
Qed.

Lemma pick_owner_total (acct : string) (william : option info)
      (remaining : Z) (u : float) :
  exists c remaining',
    pick_owner acct me kevin william remaining u = Ok (c, remaining').
Proof.
  unfold pick_owner.
  destruct (choices_ok (candidates acct me kevin william remaining)
              (map (fun w => PrimFloat.div w
                      (sum (map weight
                              (candidates acct me kevin william remaining))))
                   (map weight
                        (candidates acct me kevin william remaining))) u)
    as [c Hc].
  - rewrite candidates_split. unfold base_candidates. discriminate.
  - now rewrite !length_map.
  - apply roster_weights_accepted.
  - rewrite Hc.
    destruct (opt_str_eqb (user_id (owner c)) (william_user_id william));
      eauto.
Qed.

Lemma pick_owner_inv (acct : string) (william : option info)
      (remaining : Z) (u : float) (c : candidate) (remaining' : Z) :
  pick_owner acct me kevin william remaining u = Ok (c, remaining') ->
  In c (candidates acct me kevin william remaining)
  /\ remaining'
     = if opt_str_eqb (user_id (owner c)) (william_user_id william)
       then (remaining - 1)%Z else remaining.
Proof.
  unfold pick_owner.
  destruct (choices _ _ u) as [c'|e] eqn:Hc; [|discriminate].
  apply choices_In in Hc.
  destruct (opt_str_eqb (user_id (owner c')) (william_user_id william))
    eqn:E; intro H; injection H as <- <-; rewrite E; auto.
Qed.

(** The counter never grows. *)
Lemma pick_owner_remaining_le (acct : string) (william : option info)
      (remaining : Z) (u : float) (c : candidate) (remaining' : Z) :
  pick_owner acct me kevin william remaining u = Ok (c, remaining') ->
  (remaining' <= remaining)%Z.
Proof.
  intro H. apply pick_owner_inv in H as [_ ->].
  destruct (opt_str_eqb _ _); lia.
Qed.





(** A run never raises. *)
Lemma run_picks_total (william : option info) (calls : _) :
  forall remaining,
  exists picked final,
    run_picks me kevin william calls remaining = Ok (picked, final)
    /\ (final <= remaining)%Z
    /\ length picked = length calls.
Proof.
  induction calls as [|[acct u] calls IH]; intro remaining; simpl.
  - exists [], remaining. repeat split; lia.
  - destruct (pick_owner_total acct william remaining u) as (c & r' & Hp).
    rewrite Hp. destruct (IH r') as (picked & final & Hrun & Hle & Hlen).
    rewrite Hrun. exists (c :: picked), final.
    apply pick_owner_remaining_le in Hp. simpl. repeat split; lia.
Qed.

End OwnerFacts.






(** When nobody else on the roster has William's user id, the counter
    moves exactly when William's entry is picked, by exactly 1, and it
    never drops below zero. *)
Lemma pick_owner_quota_distinct_users (acct : string) (me : Owner.info)
      (kevin : option Owner.info) (w : Owner.info) (remaining : Z)
      (u : float) (c : Owner.candidate) (remaining' : Z) :
  Owner.user_id me <> Owner.user_id w ->
  (forall k, kevin = Some k -> Owner.user_id k <> Owner.user_id w) ->
  Owner.pick_owner acct me kevin (Some w) remaining u = Ok (c, remaining') ->
  (c = Owner.william_entry w /\ remaining' = (remaining - 1)%Z
   /\ (0 < remaining)%Z)
  \/ (c <> Owner.william_entry w /\ remaining' = remaining).
Proof.
  intros Hme Hkevin Hp.
  apply pick_owner_inv in Hp as [Hin ->]. simpl.
  rewrite candidates_split in Hin. apply in_app_or in Hin as [Hin|Hin].
  - right. split; [now apply (base_candidate_not_william me kevin)|].
    assert (Hid : Owner.user_id (Owner.owner c) <> Owner.user_id w).
    { unfold Owner.base_candidates in Hin.
      destruct kevin as [k|]; simpl in Hin.
      - destruct Hin as [<-|[<-|[]]]; simpl; auto.
      - destruct Hin as [<-|[]]; simpl; auto. }
    destruct (opt_str_eqb _ _) eqn:E; [|reflexivity].
    apply opt_str_eqb_eq in E. contradiction.
  - left. simpl in Hin.
    destruct (opt_str_eqb (Owner.account_id w) (Some acct));
      [|destruct Hin].
    destruct (0 <? remaining)%Z eqn:Hrem; [|destruct Hin].
    destruct Hin as [<-|[]]. simpl.
    replace (opt_str_eqb (Owner.user_id w) (Owner.user_id w)) with true
      by (symmetry; now apply opt_str_eqb_eq).
    apply Z.ltb_lt in Hrem. auto.
Qed.

Lemma pick_owner_quota_nonnegative (acct : string) (me : Owner.info)
      (kevin : option Owner.info) (w : Owner.info) (remaining : Z)
      (u : float) (c : Owner.candidate) (remaining' : Z) :
  Owner.user_id me <> Owner.user_id w ->
  (forall k, kevin = Some k -> Owner.user_id k <> Owner.user_id w) ->
  (0 <= remaining)%Z ->
  Owner.pick_owner acct me kevin (Some w) remaining u = Ok (c, remaining') ->
  (0 <= remaining')%Z.
Proof.
  intros Hme Hkevin Hpos Hp.
  destruct (pick_owner_quota_distinct_users _ _ _ _ _ _ _ _ Hme Hkevin Hp)
    as [(_ & -> & Hlt)|(_ & ->)]; lia.
Qed.

(** The rosters [pick_owner] can build have weights that normalise, in
    binary64 and summed from left to right, to a total of exactly 1. *)
Lemma roster_weights_normalised (acct : string) (me : Owner.info)
      (kevin william : option Owner.info) (remaining : Z) :
  let weights :=
    map Owner.weight (Owner.candidates acct me kevin william remaining) in
  PyRandomChoices.sum
    (map (fun w => PrimFloat.div w (PyRandomChoices.sum weights)) weights)
  = 1%float.
Proof.
  unfold Owner.candidates.
  destruct kevin as [k|], william as [w|];
    try destruct (Owner.william_eligible acct (Some w) remaining);
    vm_compute; reflexivity.
Qed.

(** When [me] has William's user id and there is nobody else on the
    roster, every call decrements the counter, whatever its value. *)
Lemma pick_owner_shared_user_id (acct : string) (me w : Owner.info)
      (remaining : Z) (u : float) :
  Owner.user_id me = Owner.user_id w ->
  Owner.william_eligible acct (Some w) remaining = false ->
  Owner.pick_owner acct me None (Some w) remaining u
  = Ok ({| Owner.weight := 0.55; Owner.owner := me |}, (remaining - 1)%Z).
Proof.
  intros Hid Hne.
  destruct (pick_owner_total me None acct (Some w) remaining u)
    as (c & r' & Hp).
  rewrite Hp. pose proof (pick_owner_inv _ _ _ _ _ _ _ _ Hp) as [Hin ->].
  rewrite (candidates_not_eligible me None acct (Some w) remaining Hne) in Hin.
  destruct Hin as [<-|[]]. simpl. rewrite Hid.
  replace (opt_str_eqb (Owner.user_id w) (Owner.user_id w)) with true
    by (symmetry; now apply opt_str_eqb_eq).
  reflexivity.
Qed.

(** C8 (quota counter), at the input on which the code leaves the claim:
    the current user is William himself, so [me] and William carry the same
    user id.  In a call for another account the roster is [me] alone;
    [me] is picked, the comparison of user ids on line 163 succeeds, and a
    counter that was 0 becomes -1 although William's entry was neither
    eligible nor picked. *)
Theorem quota_decremented_for_other_candidate :
  forall u : float,
    let me := {| Owner.user_id := Some "U1"%string;
                 Owner.contact_id := None;
                 Owner.account_id := None |} in
    let william := {| Owner.user_id := Some "U1"%string;
                      Owner.contact_id := Some "C1"%string;
                      Owner.account_id := Some "A1"%string |} in
    Owner.candidates "A2" me None (Some william) 0
    = [ {| Owner.weight := 0.55; Owner.owner := me |} ]
    /\ Owner.pick_owner "A2" me None (Some william) 0 u
       = Ok ({| Owner.weight := 0.55; Owner.owner := me |}, (-1)%Z)
    /\ {| Owner.weight := 0.55; Owner.owner := me |}
       <> Owner.william_entry william.
Proof.
  intros u me william. split; [reflexivity|]. split.
  - vm_compute. reflexivity.
  - apply (base_candidate_not_william me None). simpl. auto.
Qed.

(** ** Dictionaries *)
Section DictFacts.

Context {V : Type}.

Implicit Types (d : PyDict.t V) (k : string) (v : V).

Lemma dict_set_fresh d k v :
  ~ In k (PyDict.keys d) -> PyDict.set d k v = d ++ [(k, v)].
Proof.
  induction d as [|[k' v'] d IH]; simpl; intro Hnin; [reflexivity|].
  destruct (String.eqb_spec k' k) as [->|Hne].
  - exfalso. apply Hnin. now left.
  - rewrite IH; [reflexivity|]. intro Hin. apply Hnin. now right.
Qed.

Lemma dict_get_set_same d k v : PyDict.get (PyDict.set d k v) k = Some v.
Proof.
  induction d as [|[k' v'] d IH]; simpl.
  - now rewrite String.eqb_refl.
  - destruct (String.eqb_spec k' k) as [->|Hne]; simpl.
    + now rewrite String.eqb_refl.
    + apply String.eqb_neq in Hne. now rewrite Hne.
Qed.

Lemma dict_get_set_other d k k' v :
  k <> k' -> PyDict.get (PyDict.set d k v) k' = PyDict.get d k'.
Proof.
  intro Hne. induction d as [|[k0 v0] d IH]; simpl.
  - apply String.eqb_neq in Hne. now rewrite Hne.
  - destruct (String.eqb_spec k0 k) as [->|Hne0]; simpl.
    + apply String.eqb_neq in Hne. now rewrite Hne.
    + now rewrite IH.
Qed.

Lemma dict_get_In d k v : PyDict.get d k = Some v -> In (k, v) d.
Proof.
  induction d as [|[k' v'] d IH]; simpl; [discriminate|].
  destruct (String.eqb_spec k' k) as [->|Hne].
  - intro H. injection H as ->. now left.
  - intro H. right. now apply IH.
Qed.

Lemma dict_In_get d k v :
  NoDup (PyDict.keys d) -> In (k, v) d -> PyDict.get d k = Some v.
Proof.
  induction d as [|[k' v'] d IH]; simpl; intros Hnd Hin; [destruct Hin|].
  inversion Hnd as [|? ? Hnin Hnd']; subst.
  destruct Hin as [Heq|Hin].
  - injection Heq as -> ->. now rewrite String.eqb_refl.
  - destruct (String.eqb_spec k' k) as [->|Hne]; [|now apply IH].
    exfalso. apply Hnin. unfold PyDict.keys.
    change k with (fst (k, v)). now apply in_map.
Qed.

(** Assignments to pairwise distinct new keys are appended in order. *)
Lemma set_all_distinct (writes : list (string * V)) :
  forall d,
    NoDup (PyDict.keys d ++ map fst writes) ->
    set_all d writes = d ++ writes.
Proof.
  induction writes as [|[k v] writes IH]; intros d Hnd; simpl.
  - now rewrite app_nil_r.
  - simpl in Hnd. rewrite dict_set_fresh.
    + rewrite IH.
      * now rewrite <- app_assoc.
      * unfold PyDict.keys in *. rewrite map_app. simpl.
        rewrite <- app_assoc. simpl.
        eapply Permutation_NoDup; [|exact Hnd].
        apply Permutation_app_head. apply Permutation_refl.
    + apply NoDup_remove_2 in Hnd. intro Hin. apply Hnd.
      apply in_or_app. now left.
Qed.



End DictFacts.

(** ** The shuffle *)
Section ShuffleFacts.

Import Split.

Context {A : Type}.

Lemma set_nth_perm (x : list A) :
  forall i a v,
    nth_error x i = Some a -> Permutation (v :: x) (a :: set_nth x i v).
Proof.
  induction x as [|h x IH]; intros [|i] a v Hnth; simpl in *;
    try discriminate.
  - injection Hnth as ->. apply perm_swap.
  - eapply perm_trans; [apply perm_swap|].
    eapply perm_trans; [apply perm_skip, (IH i a v Hnth)|].
    apply perm_swap.
Qed.

Lemma nth_error_set_nth_same (x : list A) :
  forall i a v,
    nth_error x i = Some a -> nth_error (set_nth x i v) i = Some v.
Proof.
  induction x as [|h x IH]; intros [|i] a v Hnth; simpl in *;
    try discriminate; eauto.
Qed.

Lemma nth_error_set_nth_other (x : list A) :
  forall i j v,
    i <> j -> nth_error (set_nth x i v) j = nth_error x j.
Proof.
  induction x as [|h x IH]; intros [|i] [|j] v Hne; simpl;
    try reflexivity; try congruence.
  apply IH. congruence.
Qed.

Lemma swap_perm (x : list A) (i j : nat) : Permutation x (swap x i j).
Proof.
  unfold swap.
  destruct (nth_error x j) as [xj|] eqn:Hj; [|apply Permutation_refl].
  destruct (nth_error x i) as [xi|] eqn:Hi; [|apply Permutation_refl].
  apply Permutation_cons_inv with (a := xj).
  eapply perm_trans; [apply (set_nth_perm x i xi xj Hi)|].
  apply set_nth_perm.
  destruct (Nat.eq_dec i j) as [->|Hne].
  - eapply nth_error_set_nth_same; eassumption.
  - rewrite nth_error_set_nth_other; assumption.
Qed.

Lemma randbelow_run (n : nat) (w : world) :
  exists j w',
    randbelow n w = (Ok j, w')
    /\ commands w' = commands w /\ trace w' = trace w.
Proof.
  unfold randbelow. destruct (rng w) as [|d rest]; eauto.
Qed.

Lemma shuffle_from_run (i : nat) :
  forall (x : list A) (w : world),
  exists x' w',
    shuffle_from i x w = (Ok x', w')
    /\ Permutation x x'
    /\ commands w' = commands w /\ trace w' = trace w.
Proof.
  induction i as [|i IH]; intros x w.
  - exists x, w. simpl. unfold ret. auto.
  - cbn [shuffle_from]. unfold bind.
    destruct (randbelow_run (S i + 1) w) as (j & w1 & Hr & Hc & Ht).
    rewrite Hr.
    destruct (IH (swap x (S i) j) w1) as (x' & w' & Hs & Hp & Hc' & Ht').
    exists x', w'. repeat split; try congruence.
    eapply perm_trans; [apply swap_perm|exact Hp].
Qed.

(** [random.shuffle] always returns, with a permutation of its argument;
    it issues no command and prints nothing. *)
Lemma random_shuffle_run (x : list A) (w : world) :
  exists x' w',
    random_shuffle x w = (Ok x', w')
    /\ Permutation x x'
    /\ commands w' = commands w /\ trace w' = trace w.
Proof. apply shuffle_from_run. Qed.

End ShuffleFacts.

(** ** Sizes of the slices *)
Section CountFacts.

Import Split.

Variables base rem : nat.

Lemma list_sum_single (x : nat) : list_sum [x] = x.
Proof. simpl. lia. Qed.

Lemma bucket_count_sum (n : nat) :
  list_sum (map (bucket_count base rem) (seq 0 n)) = n * base + Nat.min n rem.
Proof.
  induction n as [|n IH]; [reflexivity|].
  rewrite seq_S, map_app, list_sum_app, IH. cbn [map Nat.add].
  rewrite list_sum_single.
  unfold bucket_count. destruct (Nat.ltb_spec n rem); lia.
Qed.

Lemma bucket_count_larger (n : nat) :
  length (filter (fun c => c =? base + 1)
                 (map (bucket_count base rem) (seq 0 n)))
  = Nat.min n rem.
Proof.
  induction n as [|n IH]; [reflexivity|].
  rewrite seq_S, map_app, filter_app, length_app, IH.
  cbn [map filter Nat.add]. unfold bucket_count.
  destruct (Nat.ltb_spec n rem).
  - replace (base + 1 =? base + 1) with true
      by (symmetry; apply Nat.eqb_refl).
    cbn [length]. lia.
  - replace (base + 0 =? base + 1) with false
      by (symmetry; apply Nat.eqb_neq; lia).
    cbn [length]. lia.
Qed.


End CountFacts.

(** ** The partition loop *)
Section PartitionFacts.

Import Split.

Lemma add_events_nil (w : world) : add_events w [] = w.
Proof. destruct w. unfold add_events. simpl. now rewrite app_nil_r. Qed.

Lemma add_events_app (w : world) (es1 es2 : list event) :
  add_events (add_events w es1) es2 = add_events w (es1 ++ es2).
Proof. unfold add_events. simpl. now rewrite app_assoc. Qed.

Lemma firstn_then_firstn {X : Type} (a b : nat) :
  forall l : list X, firstn a l ++ firstn b (skipn a l) = firstn (a + b) l.
Proof.
  induction a as [|a IH]; intros [|x l]; simpl;
    try reflexivity.
  - now rewrite firstn_nil.
  - now rewrite IH.
Qed.

Variable tasks : list Task.t.
Variables base rem : nat.

Lemma assignments_keys (buckets : list string) :
  forall i task_idx, map fst (assignments tasks base rem i buckets task_idx) = buckets.
Proof.
  induction buckets as [|b buckets IH]; intros i idx; simpl;
    [|rewrite IH]; reflexivity.
Qed.

Lemma assignments_concat (buckets : list string) :
  forall i task_idx,
    concat (map snd (assignments tasks base rem i buckets task_idx))
    = firstn (list_sum (map (bucket_count base rem)
                            (seq i (length buckets))))
             (skipn task_idx tasks).
Proof.
  induction buckets as [|b buckets IH]; intros i idx; simpl.
  - reflexivity.
  - rewrite IH. unfold slice.
    replace (idx + bucket_count base rem i - idx)
      with (bucket_count base rem i) by lia.
    rewrite <- firstn_then_firstn, skipn_skipn.
    now rewrite (Nat.add_comm (bucket_count base rem i) idx).
Qed.

Lemma assignments_lengths (buckets : list string) :
  forall i task_idx,
    task_idx + list_sum (map (bucket_count base rem)
                             (seq i (length buckets))) <= length tasks ->
    map (fun kv => length (snd kv)) (assignments tasks base rem i buckets task_idx)
    = map (bucket_count base rem) (seq i (length buckets)).
Proof.
  induction buckets as [|b buckets IH]; intros i idx Hle; simpl in *.
  - reflexivity.
  - rewrite IH by lia. f_equal. unfold slice.
    rewrite length_firstn, length_skipn. lia.
Qed.


Lemma assign_bucket_run (i : nat) (bucket : string)
      (d : PyDict.t (list Task.t)) (task_idx : nat) (w : world) :
  assign_bucket tasks base rem (i, bucket) (d, task_idx) w
  = (Ok (PyDict.set d bucket
                    (slice tasks task_idx
                           (task_idx + bucket_count base rem i)),
         task_idx + bucket_count base rem i),
     add_events w [Stdout (MsgProjectCount (i + 1)
                                           (bucket_count base rem i))]).
Proof. reflexivity. Qed.

(** The loop of lines 176-180 never fails: it performs the assignments
    and prints one line per bucket. *)
Lemma partition_loop_run (buckets : list string) :
  forall i d task_idx w,
    for_each (combine (seq i (length buckets)) buckets)
             (assign_bucket tasks base rem) (d, task_idx) w
    = (Ok (set_all d (assignments tasks base rem i buckets task_idx),
           task_idx + list_sum (map (bucket_count base rem)
                                    (seq i (length buckets)))),
       add_events w (count_events base rem i (length buckets))).
Proof.
  induction buckets as [|b buckets IH]; intros i d idx w.
  - simpl. unfold ret. now rewrite add_events_nil, Nat.add_0_r.
  - cbn [length seq combine for_each]. unfold bind at 1.
    rewrite assign_bucket_run, IH, add_events_app.
    cbn [assignments set_all fold_left fst snd map list_sum fold_right
         count_events].
    now rewrite Nat.add_assoc.
Qed.

End PartitionFacts.

(** Lines 170-180 as a whole: with at least one bucket the partition
    never fails; it draws the shuffle, then performs the assignments on
    the shuffled list. *)
Lemma partition_tasks_run (tasks : list Split.Task.t) (buckets : list string)
      (w : Split.world) :
  buckets <> [] ->
  exists shuffled w1,
    Split.random_shuffle tasks w = (Ok shuffled, w1)
    /\ Permutation tasks shuffled
    /\ Split.commands w1 = Split.commands w
    /\ Split.trace w1 = Split.trace w
    /\ Split.partition_tasks tasks buckets w
       = (Ok (set_all PyDict.empty
                      (assignments shuffled
                                   (length tasks / length buckets)
                                   (length tasks mod length buckets)
                                   0 buckets 0)),
          add_events w1
                     (count_events (length tasks / length buckets)
                                   (length tasks mod length buckets)
                                   0 (length buckets))).
Proof.
  intro Hne.
  destruct (random_shuffle_run tasks w) as (shuffled & w1 & Hs & Hp & Hc & Ht).
  exists shuffled, w1. repeat split; try assumption.
  unfold Split.partition_tasks, Split.bind. rewrite Hs.
  unfold Split.floordiv, Split.modulo.
  assert (Hk : (length buckets =? 0) = false).
  { apply Nat.eqb_neq. destruct buckets; [congruence|discriminate]. }
  rewrite Hk. unfold Split.ret at 1 2. unfold Split.enumerate.
  rewrite partition_loop_run.
  rewrite <- (Permutation_length Hp). reflexivity.
Qed.

(** With pairwise distinct buckets the dictionary is the list of the
    assignments, one entry per bucket, in the order of the buckets. *)
Lemma partition_tasks_distinct (tasks : list Split.Task.t)
      (buckets : list string) (w : Split.world) :
  buckets <> [] -> NoDup buckets ->
  exists shuffled w',
    Permutation tasks shuffled
    /\ Split.partition_tasks tasks buckets w
       = (Ok (assignments shuffled (length tasks / length buckets)
                          (length tasks mod length buckets) 0 buckets 0),
          w')
    /\ Split.commands w' = Split.commands w
    /\ Split.trace w'
       = Split.trace w
           ++ count_events (length tasks / length buckets)
                           (length tasks mod length buckets)
                           0 (length buckets).
Proof.
  intros Hne Hnd.
  destruct (partition_tasks_run tasks buckets w Hne)
    as (shuffled & w1 & _ & Hp & Hc & Ht & Hrun).
  exists shuffled. eexists. split; [exact Hp|]. split.
  - rewrite Hrun. rewrite set_all_distinct; [reflexivity|].
    simpl. now rewrite assignments_keys.
  - simpl. rewrite Ht. auto.
Qed.

(** The counts of the buckets add up to the number of tasks. *)
Lemma bucket_count_total (m k : nat) :
  k <> 0 ->
  list_sum (map (Split.bucket_count (m / k) (m mod k)) (seq 0 k)) = m.
Proof.
  intro Hk. rewrite bucket_count_sum.
  pose proof (Nat.mod_upper_bound m k Hk).
  pose proof (Nat.div_mod_eq m k). lia.
Qed.

Lemma length_not_nil {X : Type} (l : list X) : l <> [] -> length l <> 0.
Proof. destruct l; [congruence|discriminate]. Qed.

(** The slices of a partition into distinct buckets: their lengths are
    the counts, and together they are the shuffled list. *)
Lemma assignments_total (shuffled : list Split.Task.t)
      (buckets : list string) :
  buckets <> [] ->
  let m := length shuffled in
  let k := length buckets in
  let d := assignments shuffled (m / k) (m mod k) 0 buckets 0 in
  map (fun kv => length (snd kv)) d
  = map (Split.bucket_count (m / k) (m mod k)) (seq 0 k)
  /\ concat (map snd d) = shuffled.
Proof.
  intros Hne m k d.
  pose proof (bucket_count_total m k (length_not_nil _ Hne)) as Hsum.
  split.
  - apply assignments_lengths. simpl. fold m k. lia.
  - unfold d. rewrite assignments_concat. fold m k. rewrite Hsum.
    simpl. apply firstn_all.
Qed.

Lemma assignments_nth (shuffled : list Split.Task.t) (base rem : nat)
      (buckets : list string) :
  forall i0 task_idx j bucket,
    task_idx + list_sum (map (Split.bucket_count base rem)
                             (seq i0 (length buckets)))
    <= length shuffled ->
    nth_error buckets j = Some bucket ->
    exists s,
      In (bucket, s) (assignments shuffled base rem i0 buckets task_idx)
      /\ length s = Split.bucket_count base rem (i0 + j).
Proof.
  induction buckets as [|b buckets IH]; intros i0 idx j bucket Hle Hnth.
  - destruct j; discriminate.
  - simpl in Hle. destruct j as [|j]; simpl in Hnth.
    + injection Hnth as ->. eexists. split; [left; reflexivity|].
      unfold Split.slice. rewrite length_firstn, length_skipn.
      rewrite Nat.add_0_r. lia.
    + destruct (IH (S i0) (idx + Split.bucket_count base rem i0) j bucket)
        as (s & Hin & Hlen); [lia|assumption|].
      exists s. split; [right; exact Hin|].
      now rewrite Nat.add_succ_r.
Qed.

Lemma filter_map_length {X Y : Type} (p : Y -> bool) (g : X -> Y)
      (l : list X) :
  length (filter (fun x => p (g x)) l) = length (filter p (map g l)).
Proof.
  induction l as [|x l IH]; simpl; [reflexivity|].
  destruct (p (g x)); simpl; now rewrite IH.
Qed.

Lemma NoDup_app_disjoint {X : Type} (l1 l2 : list X) (x : X) :
  NoDup (l1 ++ l2) -> In x l1 -> In x l2 -> False.
Proof.
  induction l1 as [|a l1 IH]; simpl; intros Hnd H1 H2; [destruct H1|].
  inversion Hnd as [|? ? Hnin Hnd']; subst.
  destruct H1 as [->|H1].
  - apply Hnin. apply in_or_app. now right.
  - now apply IH.
Qed.

(** In a dictionary whose slices have no element in common, an element
    determines its key. *)
Lemma slices_disjoint {X : Type} (d : list (string * list X)) :
  NoDup (concat (map snd d)) ->
  forall x b1 b2 s1 s2,
    In (b1, s1) d -> In (b2, s2) d -> In x s1 -> In x s2 -> b1 = b2.
Proof.
  induction d as [|[k v] d IH]; simpl; intros Hnd x b1 b2 s1 s2 H1 H2 Hx1 Hx2;
    [destruct H1|].
  assert (Hrest : forall b s, In (b, s) d -> In x s ->
                              In x (concat (map snd d))).
  { intros b s Hin Hx. apply in_concat. exists s. split; [|exact Hx].
    change s with (snd (b, s)). now apply in_map. }
  destruct H1 as [E1|H1], H2 as [E2|H2].
  - congruence.
  - injection E1 as <- <-. exfalso.
    eapply NoDup_app_disjoint; eauto.
  - injection E2 as <- <-. exfalso.
    eapply NoDup_app_disjoint; eauto.
  - apply NoDup_app_remove_l in Hnd. eapply IH; eassumption.
Qed.

(** C1 (partition completeness), for pairwise distinct buckets.  The
    partition of [M] tasks over [K >= 1] pairwise distinct buckets never
    fails and returns a dictionary with one entry per bucket, in the order
    of the buckets, whose slice lengths add up to [M]; the bucket at index
    [i] holds [M / K + 1] tasks when [i < M mod K] and [M / K] otherwise,
    and exactly [M mod K] slices have the larger length. *)
Theorem partition_bucket_sizes :
  forall (tasks : list Split.Task.t) (buckets : list string)
         (w : Split.world),
    tasks <> [] -> buckets <> [] -> NoDup buckets ->
    exists distribution w',
      Split.partition_tasks tasks buckets w = (Ok distribution, w')
      /\ PyDict.keys distribution = buckets
      /\ list_sum (map (fun s => length s) (PyDict.values distribution))
         = length tasks
      /\ (forall i bucket,
             nth_error buckets i = Some bucket ->
             exists s,
               PyDict.get distribution bucket = Some s
               /\ length s
                  = if i <? length tasks mod length buckets
                    then length tasks / length buckets + 1
                    else length tasks / length buckets)
      /\ length (filter (fun s => length s =? length tasks / length buckets + 1)
                        (PyDict.values distribution))
         = length tasks mod length buckets.
Proof.
  intros tasks buckets w _ Hne Hnd.
  destruct (partition_tasks_distinct tasks buckets w Hne Hnd)
    as (shuffled & w' & Hperm & Hrun & _ & _).
  pose proof (Permutation_length Hperm) as Hlen.
  pose proof (assignments_total shuffled buckets Hne) as [Hlens Hcat].
  cbv zeta in Hlens, Hcat. rewrite <- Hlen in *.
  set (m := length tasks) in *. set (k := length buckets) in *.
  set (d := assignments shuffled (m / k) (m mod k) 0 buckets 0) in *.
  assert (Hk : k <> 0) by (apply length_not_nil; exact Hne).
  assert (Hkeys : PyDict.keys d = buckets) by apply assignments_keys.
  exists d, w'. split; [exact Hrun|]. split; [exact Hkeys|].
  unfold PyDict.values. repeat split.
  - rewrite map_map, Hlens. now apply bucket_count_total.
  - intros i bucket Hnth.
    destruct (assignments_nth shuffled (m / k) (m mod k) buckets 0 0 i bucket)
      as (s & Hin & Hs); [|exact Hnth|].
    { simpl. fold k. rewrite bucket_count_total by exact Hk. lia. }
    exists s. split.
    + apply dict_In_get; [now rewrite Hkeys|exact Hin].
    + rewrite Hs. unfold Split.bucket_count. simpl.
      destruct (i <? m mod k); lia.
  - rewrite (filter_map_length (fun c => c =? m / k + 1)
                               (fun s : list Split.Task.t => length s)).
    rewrite map_map, Hlens, bucket_count_larger.
    pose proof (Nat.mod_upper_bound m k Hk). lia.
Qed.

(** Five tasks over three distinct projects. *)
Lemma partition_bucket_sizes_witness :
  let task := fun id : string =>
                {| Split.Task.Id := id; Split.Task.Name := id;
                   Split.Task.Project__c := "P0"%string |} in
  let tasks := map task ["T1"; "T2"; "T3"; "T4"; "T5"]%string in
  let buckets := ["P0"; "P1"; "P2"]%string in
  tasks <> [] /\ buckets <> [] /\ NoDup buckets
  /\ exists distribution w',
      Split.partition_tasks tasks buckets (Split.initial [3; 1; 4; 1])
      = (Ok distribution, w')
      /\ PyDict.keys distribution = buckets
      /\ list_sum (map (fun s => length s) (PyDict.values distribution))
         = length tasks
      /\ (forall i bucket,
             nth_error buckets i = Some bucket ->
             exists s,
               PyDict.get distribution bucket = Some s
               /\ length s
                  = if i <? length tasks mod length buckets
                    then length tasks / length buckets + 1
                    else length tasks / length buckets)
      /\ length (filter (fun s => length s =? length tasks / length buckets + 1)
                        (PyDict.values distribution))
         = length tasks mod length buckets.
Proof.
  intros task tasks buckets.
  assert (Ht : tasks <> []) by discriminate.
  assert (Hb : buckets <> []) by discriminate.
  assert (Hnd : NoDup buckets).
  { repeat constructor; simpl; intuition discriminate. }
  repeat split; try assumption.
  exact (partition_bucket_sizes tasks buckets (Split.initial [3; 1; 4; 1])
                                Ht Hb Hnd).
Defined.

(** C1 as stated, for every bucket list, fails when a bucket occurs twice:
    the second assignment to the key replaces the first slice, so the
    lengths of the slices add up to 1 for 2 tasks, and the dictionary has
    one entry for a bucket list of size 2. *)
Lemma partition_repeated_bucket_loses_tasks :
  [task_T1; task_T2] <> [] /\ ["B0"; "B0"]%string <> []
  /\ fst (Split.partition_tasks [task_T1; task_T2] ["B0"; "B0"]%string
                                (Split.initial []))
     = Ok [("B0"%string, [task_T1])]
  /\ ~ (exists distribution w',
           Split.partition_tasks [task_T1; task_T2] ["B0"; "B0"]%string
                                 (Split.initial [])
           = (Ok distribution, w')
           /\ list_sum (map (fun s => length s)
                            (PyDict.values distribution))
              = length [task_T1; task_T2]).
Proof.
  split; [discriminate|]. split; [discriminate|]. split; [reflexivity|].
  intros (d & w' & Hrun & Hsum).
  vm_compute in Hrun. injection Hrun as <- _.
  vm_compute in Hsum. discriminate.
Qed.

(** C2 (disjoint cover), for pairwise distinct buckets.  The partition
    never fails; the slices of the returned dictionary, taken in the order
    of the buckets, are together a permutation of the tasks, so every task
    is found under some bucket; and when the tasks are pairwise distinct,
    a task found under two keys is under one and the same bucket. *)
Theorem partition_disjoint_cover :
  forall (tasks : list Split.Task.t) (buckets : list string)
         (w : Split.world),
    tasks <> [] -> buckets <> [] -> NoDup buckets ->
    exists distribution w',
      Split.partition_tasks tasks buckets w = (Ok distribution, w')
      /\ Permutation (concat (PyDict.values distribution)) tasks
      /\ (forall t, In t tasks ->
             exists bucket s,
               PyDict.get distribution bucket = Some s /\ In t s)
      /\ (NoDup tasks ->
          forall t b1 b2 s1 s2,
            PyDict.get distribution b1 = Some s1 ->
            PyDict.get distribution b2 = Some s2 ->
            In t s1 -> In t s2 -> b1 = b2).
Proof.
  intros tasks buckets w _ Hne Hnd.
  destruct (partition_tasks_distinct tasks buckets w Hne Hnd)
    as (shuffled & w' & Hperm & Hrun & _ & _).
  pose proof (Permutation_length Hperm) as Hlen.
  pose proof (assignments_total shuffled buckets Hne) as [_ Hcat].
  cbv zeta in Hcat. rewrite <- Hlen in *.
  set (d := assignments shuffled _ _ 0 buckets 0) in *.
  assert (Hkeys : PyDict.keys d = buckets) by apply assignments_keys.
  exists d, w'. split; [exact Hrun|]. unfold PyDict.values.
  rewrite Hcat. repeat split.
  - now apply Permutation_sym.
  - intros t Hin.
    assert (Hin' : In t (concat (map snd d))).
    { rewrite Hcat. eapply Permutation_in; eassumption. }
    apply in_concat in Hin' as (s & Hs & Hts).
    apply in_map_iff in Hs as ([b s'] & Heq & Hbs). simpl in Heq. subst s'.
    exists b, s. split; [|exact Hts].
    apply dict_In_get; [now rewrite Hkeys|exact Hbs].
  - intros Hndt t b1 b2 s1 s2 H1 H2 Ht1 Ht2.
    apply dict_get_In in H1, H2.
    apply (slices_disjoint d) with (x := t) (s1 := s1) (s2 := s2); auto.
    rewrite Hcat. eapply Permutation_NoDup; eassumption.
Qed.

Lemma partition_disjoint_cover_witness :
  let tasks := [task_T1; task_T2] in
  let buckets := ["B0"; "B1"; "B2"]%string in
  tasks <> [] /\ buckets <> [] /\ NoDup buckets
  /\ exists distribution w',
      Split.partition_tasks tasks buckets (Split.initial [7]) = (Ok distribution, w')
      /\ Permutation (concat (PyDict.values distribution)) tasks
      /\ (forall t, In t tasks ->
             exists bucket s,
               PyDict.get distribution bucket = Some s /\ In t s)
      /\ (NoDup tasks ->
          forall t b1 b2 s1 s2,
            PyDict.get distribution b1 = Some s1 ->
            PyDict.get distribution b2 = Some s2 ->
            In t s1 -> In t s2 -> b1 = b2).
Proof.
  intros tasks buckets.
  assert (Ht : tasks <> []) by discriminate.
  assert (Hb : buckets <> []) by discriminate.
  assert (Hnd : NoDup buckets).
  { repeat constructor; simpl; intuition discriminate. }
  repeat split; try assumption.
  exact (partition_disjoint_cover tasks buckets (Split.initial [7])
                                  Ht Hb Hnd).
Defined.

(** C2 as stated, for every bucket list and every item list, fails in two
    ways.  When a bucket occurs twice, the slice first stored under it is
    replaced: task [T2] is under no bucket and the slices do not cover the
    tasks.  When the item list holds the same task twice, that task is
    found under two different buckets. *)
Lemma partition_repeated_bucket_not_cover :
  (exists distribution w',
      Split.partition_tasks [task_T1; task_T2] ["B0"; "B0"]%string
                            (Split.initial [])
      = (Ok distribution, w')
      /\ In task_T2 [task_T1; task_T2]
      /\ (forall bucket s,
             PyDict.get distribution bucket = Some s -> ~ In task_T2 s)
      /\ ~ Permutation (concat (PyDict.values distribution))
                       [task_T1; task_T2])
  /\ (exists distribution w',
         Split.partition_tasks [task_T1; task_T1] ["B0"; "B1"]%string
                               (Split.initial [])
         = (Ok distribution, w')
         /\ "B0"%string <> "B1"%string
         /\ PyDict.get distribution "B0" = Some [task_T1]
         /\ PyDict.get distribution "B1" = Some [task_T1]).
Proof.
  split.
  - eexists. eexists. split; [vm_compute; reflexivity|].
    split; [simpl; auto|]. split.
    + intros bucket s Hget Hin. cbn [PyDict.get] in Hget.
      destruct (String.eqb "B0" bucket); [|discriminate Hget].
      injection Hget as <-. destruct Hin as [Heq|[]]. discriminate Heq.
    + intro Hperm. apply Permutation_length in Hperm. discriminate.
  - eexists. eexists. split; [vm_compute; reflexivity|].
    split; [discriminate|]. split; reflexivity.
Qed.

(** ** The moves *)

Lemma issue_nil (w : Split.world) : issue w [] = w.
Proof. destruct w. unfold issue. simpl. now rewrite app_nil_r. Qed.

Lemma issue_app (w : Split.world) (cs1 cs2 : list Split.sf_command) :
  issue (issue w cs1) cs2 = issue w (cs1 ++ cs2).
Proof.
  unfold issue. simpl. rewrite map_app, app_assoc, length_app. f_equal. lia.
Qed.

Lemma moves_In (original : string) (d : PyDict.t (list Split.Task.t))
      (t : Split.Task.t) (b : string) :
  In (t, b) (moves original d)
  <-> b <> original /\ exists s, In (b, s) d /\ In t s.
Proof.
  unfold moves. rewrite in_flat_map. split.
  - intros ([b' s] & Hin & Hm). simpl in Hm.
    destruct (String.eqb_spec b' original) as [->|Hne]; [destruct Hm|].
    apply in_map_iff in Hm as (t' & Heq & Ht'). injection Heq as -> ->.
    split; [exact Hne|]. exists s. auto.
  - intros (Hne & s & Hin & Ht). exists (b, s). split; [exact Hin|]. simpl.
    destruct (String.eqb_spec b original) as [->|_]; [contradiction|].
    apply in_map_iff. exists t. auto.
Qed.

Lemma moves_length_absent (original : string)
      (d : PyDict.t (list Split.Task.t)) :
  ~ In original (PyDict.keys d) ->
  length (moves original d)
  = list_sum (map (fun s => length s) (PyDict.values d)).
Proof.
  induction d as [|[b s] d IH]; simpl; intro Hnin; [reflexivity|].
  rewrite length_app, IH by tauto.
  destruct (String.eqb_spec b original) as [->|_]; [tauto|].
  now rewrite length_map.
Qed.

(** With distinct keys, the moves and the slice of the original project
    account for every slice. *)
Lemma moves_length (original : string) (d : PyDict.t (list Split.Task.t)) :
  NoDup (PyDict.keys d) ->
  length (moves original d)
  + length (PyDict.get_default d original [])
  = list_sum (map (fun s => length s) (PyDict.values d)).
Proof.
  unfold PyDict.get_default.
  induction d as [|[b s] d IH]; simpl; intro Hnd; [reflexivity|].
  inversion Hnd as [|? ? Hnin Hnd']; subst.
  rewrite length_app.
  destruct (String.eqb_spec b original) as [->|Hne].
  - rewrite (moves_length_absent original d Hnin). simpl. lia.
  - rewrite length_map. specialize (IH Hnd'). lia.
Qed.

Section MoveFacts.

Import Split.

Variable sf : salesforce.
Variable args : arguments.

Lemma move_task_live (bucket : string) (task : Task.t) (updates_made : nat)
      (w : world) :
  dry_run args = false -> updates_accepted sf ->
  move_task sf args bucket task updates_made w
  = (Ok (updates_made + 1),
     issue w [update_command (org args) (task, bucket)]).
Proof.
  intros Hdry Hupd. unfold move_task, update_record, run_sf, bind.
  rewrite Hdry, Hupd. reflexivity.
Qed.

Lemma move_task_dry (bucket : string) (task : Task.t) (updates_made : nat)
      (w : world) :
  dry_run args = true ->
  move_task sf args bucket task updates_made w
  = (Ok updates_made, add_events w [would_move (task, bucket)]).
Proof. intro Hdry. unfold move_task. rewrite Hdry. reflexivity. Qed.

Lemma move_slice_live (bucket : string) (project_tasks : list Task.t) :
  dry_run args = false -> updates_accepted sf ->
  forall updates_made w,
    for_each project_tasks (move_task sf args bucket) updates_made w
    = (Ok (updates_made + length project_tasks),
       issue w (map (fun t => update_command (org args) (t, bucket))
                    project_tasks)).
Proof.
  intros Hdry Hupd.
  induction project_tasks as [|t ts IH]; intros n w.
  - simpl. unfold ret. now rewrite issue_nil, Nat.add_0_r.
  - cbn [for_each]. unfold bind at 1.
    rewrite move_task_live, IH, issue_app by assumption.
    cbn [map app length]. f_equal. f_equal. lia.
Qed.

Lemma move_slice_dry (bucket : string) (project_tasks : list Task.t) :
  dry_run args = true ->
  forall updates_made w,
    for_each project_tasks (move_task sf args bucket) updates_made w
    = (Ok updates_made,
       add_events w (map (fun t => would_move (t, bucket)) project_tasks)).
Proof.
  intro Hdry.
  induction project_tasks as [|t ts IH]; intros n w.
  - simpl. unfold ret. now rewrite add_events_nil.
  - cbn [for_each]. unfold bind at 1.
    rewrite move_task_dry, IH, add_events_app by assumption. reflexivity.
Qed.

(** Lines 183-192 in a live run: the updates issued are the moves, one
    command each, and each one is counted. *)
Lemma move_loop_live (d : PyDict.t (list Task.t)) :
  dry_run args = false -> updates_accepted sf ->
  forall updates_made w,
    for_each d (move_bucket sf args) updates_made w
    = (Ok (updates_made + length (moves (project_id args) d)),
       issue w (map (update_command (org args))
                    (moves (project_id args) d))).
Proof.
  intros Hdry Hupd.
  induction d as [|[b s] d IH]; intros n w.
  - simpl. unfold ret. now rewrite issue_nil, Nat.add_0_r.
  - cbn [for_each]. unfold bind at 1. unfold move_bucket at 1.
    unfold moves. cbn [flat_map fst snd]. fold (moves (project_id args) d).
    destruct (String.eqb b (project_id args)).
    + unfold ret at 1. rewrite IH. reflexivity.
    + rewrite move_slice_live, IH, issue_app by assumption.
      rewrite length_app, length_map, map_app, map_map.
      f_equal. f_equal. lia.
Qed.

(** In a dry run the same moves are only printed. *)
Lemma move_loop_dry (d : PyDict.t (list Task.t)) :
  dry_run args = true ->
  forall updates_made w,
    for_each d (move_bucket sf args) updates_made w
    = (Ok updates_made,
       add_events w (map would_move (moves (project_id args) d))).
Proof.
  intro Hdry.
  induction d as [|[b s] d IH]; intros n w.
  - simpl. unfold ret. now rewrite add_events_nil.
  - cbn [for_each]. unfold bind at 1. unfold move_bucket at 1.
    unfold moves. cbn [flat_map fst snd]. fold (moves (project_id args) d).
    destruct (String.eqb b (project_id args)).
    + unfold ret at 1. rewrite IH. reflexivity.
    + rewrite move_slice_dry, IH, add_events_app by assumption.
      now rewrite map_app, map_map.
Qed.

End MoveFacts.

(** The distributor returns the dictionary of the partition. *)
Lemma distribute_partition (sf : Split.salesforce) (args : Split.arguments)
      (tasks : list Split.Task.t) (buckets : list string) (w : Split.world)
      (distribution : PyDict.t (list Split.Task.t)) (updates_made : nat)
      (w' : Split.world) :
  Split.distribute sf args tasks buckets w
  = (Ok (distribution, updates_made), w') ->
  exists w1, Split.partition_tasks tasks buckets w = (Ok distribution, w1).
Proof.
  unfold Split.distribute, Split.bind.
  destruct (Split.partition_tasks tasks buckets w) as [[d|e] w1];
    [|discriminate].
  destruct (Split.move_tasks sf args d w1) as [[n|e] w2]; [|discriminate].
  unfold Split.ret. intro H. injection H as <- _ _. eauto.
Qed.

(** C3 (moves), over pairwise distinct buckets.  The move list of the
    distribution holds a task with a bucket if and only if the task is
    stored under that bucket and the bucket is not the original project
    [--project-id]; its length is the number of tasks minus the number of
    tasks left under the original project.  In a live run in which the org
    accepts the updates, the distributor issues exactly one update command
    per move, in order, after the lines of the partition, and
    [updates_made] is the number of moves.  In a dry run it issues no
    command: it prints one line per move and [updates_made] is 0. *)
Theorem moves_follow_assignment :
  forall (sf : Split.salesforce) (args : Split.arguments)
         (tasks : list Split.Task.t) (buckets : list string)
         (w : Split.world),
    tasks <> [] -> buckets <> [] -> NoDup buckets ->
    let counts :=
      count_events (length tasks / length buckets)
                   (length tasks mod length buckets) 0 (length buckets) in
    exists distribution,
      let moved := moves (Split.project_id args) distribution in
      (forall t b,
          In (t, b) moved
          <-> b <> Split.project_id args
              /\ exists s, PyDict.get distribution b = Some s /\ In t s)
      /\ length moved
         = length tasks
           - length (PyDict.get_default distribution
                                        (Split.project_id args) [])
      /\ (Split.dry_run args = false -> updates_accepted sf ->
          exists w',
            Split.distribute sf args tasks buckets w
            = (Ok (distribution, length moved), w')
            /\ Split.trace w'
               = Split.trace w ++ counts
                   ++ map Split.Sf
                          (map (update_command (Split.org args)) moved))
      /\ (Split.dry_run args = true ->
          exists w',
            Split.distribute sf args tasks buckets w
            = (Ok (distribution, 0), w')
            /\ Split.commands w' = Split.commands w
            /\ Split.trace w'
               = Split.trace w ++ counts ++ map would_move moved).
Proof.
  intros sf args tasks buckets w _ Hne Hnd counts.
  destruct (partition_tasks_distinct tasks buckets w Hne Hnd)
    as (shuffled & w1 & Hperm & Hrun & Hcmd & Htrace).
  pose proof (Permutation_length Hperm) as Hlen.
  pose proof (assignments_total shuffled buckets Hne) as [Hlens _].
  cbv zeta in Hlens. rewrite <- Hlen in Hlens.
  set (m := length tasks) in *. set (k := length buckets) in *.
  set (d := assignments shuffled (m / k) (m mod k) 0 buckets 0) in *.
  assert (Hkeys : PyDict.keys d = buckets) by apply assignments_keys.
  assert (Hndk : NoDup (PyDict.keys d)) by now rewrite Hkeys.
  exists d. cbv zeta. split; [|split; [|split]].
  - intros t b. rewrite moves_In. split.
    + intros (Hb & s & Hin & Ht). split; [exact Hb|]. exists s.
      split; [now apply dict_In_get|exact Ht].
    + intros (Hb & s & Hget & Ht). split; [exact Hb|]. exists s.
      split; [now apply dict_get_In|exact Ht].
  - pose proof (moves_length (Split.project_id args) d Hndk) as Hm.
    unfold PyDict.values in Hm. rewrite map_map, Hlens in Hm.
    rewrite bucket_count_total in Hm by (apply length_not_nil; exact Hne).
    lia.
  - intros Hdry Hupd. eexists. split.
    + unfold Split.distribute, Split.bind. rewrite Hrun.
      unfold Split.move_tasks, PyDict.items.
      rewrite (move_loop_live sf args d Hdry Hupd). reflexivity.
    + simpl. rewrite Htrace. now rewrite <- app_assoc.
  - intro Hdry. eexists. split; [|split].
    + unfold Split.distribute, Split.bind. rewrite Hrun.
      unfold Split.move_tasks, PyDict.items.
      rewrite (move_loop_dry sf args d Hdry). reflexivity.
    + simpl. exact Hcmd.
    + simpl. rewrite Htrace. now rewrite <- app_assoc.
Qed.

(** Two tasks over the original project and another one, live. *)
Lemma moves_follow_assignment_witness :
  let tasks := [task_T1; task_T2] in
  let buckets := ["B0"; "B1"]%string in
  let counts :=
    count_events (length tasks / length buckets)
                 (length tasks mod length buckets) 0 (length buckets) in
  tasks <> [] /\ buckets <> [] /\ NoDup buckets
  /\ Split.dry_run live_args = false
  /\ updates_accepted accepting_org
  /\ exists distribution,
      let moved := moves (Split.project_id live_args) distribution in
      (forall t b,
          In (t, b) moved
          <-> b <> Split.project_id live_args
              /\ exists s, PyDict.get distribution b = Some s /\ In t s)
      /\ length moved
         = length tasks
           - length (PyDict.get_default distribution
                                        (Split.project_id live_args) [])
      /\ exists w',
          Split.distribute accepting_org live_args tasks buckets
                           (Split.initial [])
          = (Ok (distribution, length moved), w')
          /\ Split.trace w'
             = Split.trace (Split.initial []) ++ counts
                 ++ map Split.Sf
                        (map (update_command (Split.org live_args)) moved).
Proof.
  intros tasks buckets counts.
  assert (Ht : tasks <> []) by discriminate.
  assert (Hb : buckets <> []) by discriminate.
  assert (Hnd : NoDup buckets).
  { repeat constructor; simpl; intuition discriminate. }
  assert (Hdry : Split.dry_run live_args = false) by reflexivity.
  assert (Hupd : updates_accepted accepting_org)
    by (intros n sobject record_id values; reflexivity).
  repeat (split; [assumption|]).
  destruct (moves_follow_assignment accepting_org live_args tasks buckets
                                    (Split.initial []) Ht Hb Hnd)
    as (d & Hin & Hcount & Hlive & _).
  exists d. split; [exact Hin|]. split; [exact Hcount|].
  exact (Hlive Hdry Hupd).
Defined.

(** C3 as stated, for every run, fails in a dry run and on a repeated
    bucket.  In the dry run below task [T1] is assigned to [B1], which is
    not its original project [B0], yet no record is updated and nothing is
    counted, where the claim has 2 - 1 = 1 move.  In the live run on the
    buckets [B0, B1, B1] one task is moved, where the claim has 3 - 1 = 2
    moves. *)
Lemma moves_missing_in_dry_run :
  (exists distribution updates_made w',
      Split.distribute accepting_org dry_args [task_T1; task_T2]
                       ["B0"; "B1"]%string (Split.initial [])
      = (Ok (distribution, updates_made), w')
      /\ PyDict.get distribution "B1" = Some [task_T1]
      /\ "B1"%string <> Split.Task.Project__c task_T1
      /\ "B1"%string <> Split.project_id dry_args
      /\ filter Split.is_write (Split.trace w') = []
      /\ updates_made = 0
      /\ updates_made
         <> length [task_T1; task_T2]
            - length (PyDict.get_default distribution
                                         (Split.project_id dry_args) []))
  /\ (exists distribution updates_made w',
         Split.distribute accepting_org live_args
                          [task_T1; task_T2; task_T3]
                          ["B0"; "B1"; "B1"]%string (Split.initial [])
         = (Ok (distribution, updates_made), w')
         /\ updates_made = 1
         /\ updates_made
            <> length [task_T1; task_T2; task_T3]
               - length (PyDict.get_default distribution
                                            (Split.project_id live_args) [])).
Proof.
  split.
  - eexists. eexists. eexists. split; [vm_compute; reflexivity|].
    repeat split; try discriminate; reflexivity.
  - eexists. eexists. eexists. split; [vm_compute; reflexivity|].
    repeat split; try discriminate; reflexivity.
Qed.

(** ** Loop invariants *)
Section LoopFacts.

Import Split.

Context {X St : Type}.

(** A property of the loop variables kept by every iteration that
    completes holds when the loop completes. *)
Lemma for_each_invariant (P : St -> Prop) (body : X -> St -> M St) :
  (forall x s w s' w', P s -> body x s w = (Ok s', w') -> P s') ->
  forall xs s w s' w',
    P s -> for_each xs body s w = (Ok s', w') -> P s'.
Proof.
  intros Hbody. induction xs as [|x xs IH]; intros s w s' w' Hs Hrun.
  - simpl in Hrun. unfold ret in Hrun. now injection Hrun as <- _.
  - cbn [for_each] in Hrun. unfold bind in Hrun.
    destruct (body x s w) as [[s1|e] w1] eqn:Hb; [|discriminate].
    eapply IH; [|exact Hrun]. eapply Hbody; eassumption.
Qed.

Lemma while_loop_invariant (P : St -> Prop) (cond : St -> bool)
      (body : St -> M St) :
  (forall s w s' w', P s -> body s w = (Ok s', w') -> P s') ->
  forall fuel s w s' w',
    P s -> while_loop fuel cond body s w = (Ok s', w') -> P s'.
Proof.
  intros Hbody. induction fuel as [|fuel IH]; intros s w s' w' Hs Hrun.
  - simpl in Hrun. unfold ret in Hrun. now injection Hrun as <- _.
  - cbn [while_loop] in Hrun. destruct (cond s).
    + unfold bind in Hrun.
      destruct (body s w) as [[s1|e] w1] eqn:Hb; [|discriminate].
      eapply IH; [|exact Hrun]. eapply Hbody; eassumption.
    + unfold ret in Hrun. now injection Hrun as <- _.
Qed.

(** A loop whose body always completes always completes. *)
Lemma for_each_total (body : X -> St -> M St) :
  (forall x s w, exists s' w', body x s w = (Ok s', w')) ->
  forall xs s w, exists s' w', for_each xs body s w = (Ok s', w').
Proof.
  intro Hbody. induction xs as [|x xs IH]; intros s w.
  - exists s, w. reflexivity.
  - cbn [for_each]. unfold bind.
    destruct (Hbody x s w) as (s1 & w1 & Hb). rewrite Hb. apply IH.
Qed.

Lemma while_loop_total (cond : St -> bool) (body : St -> M St) :
  (forall s w, exists s' w', body s w = (Ok s', w')) ->
  forall fuel s w, exists s' w', while_loop fuel cond body s w = (Ok s', w').
Proof.
  intro Hbody. induction fuel as [|fuel IH]; intros s w.
  - exists s, w. reflexivity.
  - cbn [while_loop]. destruct (cond s).
    + unfold bind. destruct (Hbody s w) as (s1 & w1 & Hb). rewrite Hb.
      apply IH.
    + exists s, w. reflexivity.
Qed.

End LoopFacts.

(** ** The projects to distribute across *)
Section BucketFacts.

Import Split.

Variable sf : salesforce.
Variable args : arguments.

(** A completed creation appends one project id. *)
Lemma new_project_appends (account_name account_id : string) (number : nat)
      (projects_to_use : list string) (w : world)
      (projects_to_use' : list string) (w' : world) :
  new_project sf args account_name account_id number projects_to_use w
  = (Ok projects_to_use', w') ->
  exists new_id, projects_to_use' = projects_to_use ++ [new_id].
Proof.
  unfold new_project, bind.
  destruct (random_choice PROJECT_STATUSES w) as [[status|e] w1];
    [|discriminate].
  destruct (dry_run args).
  - unfold print, emit, ret. intro H. injection H as <- _. eauto.
  - unfold create_record, run_sf.
    destruct (created_id sf (commands w1) _ _) as [new_id|e];
      [|discriminate].
    unfold print, emit, ret. intro H. injection H as <- _. eauto.
Qed.

(** The loop of lines 150-165 is given enough iterations: when it
    completes, its condition [len(projects_to_use) < args.num_projects] is
    false. *)
Lemma creation_loop_exit (account_name account_id : string) :
  forall fuel projects_to_use w projects_to_use' w',
    fuel = Z.to_nat (num_projects args
                     - Z.of_nat (length projects_to_use)) ->
    while_loop fuel
               (fun projects_to_use =>
                  (Z.of_nat (length projects_to_use) <? num_projects args)%Z)
               (fun projects_to_use =>
                  new_project sf args account_name account_id
                              (length projects_to_use + 1) projects_to_use)
               projects_to_use w
    = (Ok projects_to_use', w') ->
    (Z.of_nat (length projects_to_use') <? num_projects args)%Z = false.
Proof.
  induction fuel as [|fuel IH]; intros l w l' w' Hfuel Hrun.
  - simpl in Hrun. unfold ret in Hrun. injection Hrun as <- _.
    apply Z.ltb_ge. lia.
  - cbn [while_loop] in Hrun.
    destruct (Z.of_nat (length l) <? num_projects args)%Z eqn:Hcond.
    + unfold bind in Hrun.
      destruct (new_project sf args account_name account_id
                            (length l + 1) l w) as [[l1|e] w1] eqn:Hnew;
        [|discriminate].
      apply new_project_appends in Hnew as [new_id ->].
      eapply IH; [|exact Hrun]. rewrite length_app. simpl. lia.
    + unfold ret in Hrun. injection Hrun as <- _. exact Hcond.
Qed.

(** Line 123 and the appends after it: the original project stays at
    index 0. *)
Lemma build_projects_to_use_head (account_name account_id : string)
      (existing_projects : list Project.t) (w : world)
      (projects_to_use : list string) (w' : world) :
  build_projects_to_use sf args account_name account_id existing_projects w
  = (Ok projects_to_use, w') ->
  exists others, projects_to_use = project_id args :: others.
Proof.
  set (P := fun l : list string => exists others, l = project_id args :: others).
  assert (Happ : forall l x, P l -> P (l ++ [x])).
  { intros l x [others ->]. exists (others ++ [x]). reflexivity. }
  assert (Hnew : forall an ai number l w0 l' w0',
             P l -> new_project sf args an ai number l w0 = (Ok l', w0') ->
             P l').
  { intros an ai number l w0 l' w0' Hl Hrun.
    apply new_project_appends in Hrun as [x ->]. now apply Happ. }
  assert (H0 : P [project_id args]) by (exists []; reflexivity).
  change (build_projects_to_use sf args account_name account_id
                                existing_projects w
          = (Ok projects_to_use, w') -> P projects_to_use).
  unfold build_projects_to_use.
  destruct (0 <? num_projects args - Z.of_nat (length existing_projects))%Z.
  - unfold bind, print, emit. intro Hrun.
    refine (for_each_invariant P _ _ _ _ _ _ _ H0 Hrun).
    intros i l w0 l' w0' Hl Hb. eapply Hnew; eassumption.
  - unfold bind at 1.
    destruct (for_each existing_projects _ [project_id args] w)
      as [[l1|e] w1] eqn:Hfor; [|discriminate].
    intro Hrun.
    assert (H1 : P l1).
    { refine (for_each_invariant P _ _ _ _ _ _ _ H0 Hfor).
      intros proj l w0 l' w0' Hl Hb.
      destruct (negb (String.eqb (Project.Id proj) (project_id args)));
        unfold ret in Hb; injection Hb as <- _; auto. }
    refine (while_loop_invariant P _ _ _ _ _ _ _ _ H1 Hrun).
    intros l w0 l' w0' Hl Hb. eapply Hnew; eassumption.
Qed.

(** The list is always built when the org answers every creation (and
    in a dry run, which creates nothing). *)
Lemma new_project_total (account_name account_id : string) (number : nat)
      (projects_to_use : list string) (w : world) :
  (dry_run args = true
   \/ forall n sobject values,
        exists new_id, created_id sf n sobject values = Ok new_id) ->
  exists projects_to_use' w',
    new_project sf args account_name account_id number projects_to_use w
    = (Ok projects_to_use', w').
Proof.
  intro Hcreate. unfold new_project, bind.
  unfold random_choice, PROJECT_STATUSES, bind.
  destruct (randbelow_run 7 w) as (j & w1 & Hr & _). cbn [length].
  rewrite Hr. unfold ret at 1.
  destruct (dry_run args) eqn:Hdry.
  - unfold print, emit, ret. eauto.
  - destruct Hcreate as [Hcreate|Hcreate]; [discriminate|].
    unfold create_record, run_sf.
    match goal with
    | |- context [created_id sf ?n ?o ?v] =>
        destruct (Hcreate n o v) as [new_id Hid]; rewrite Hid
    end.
    unfold print, emit, ret. eauto.
Qed.

Lemma build_projects_to_use_total (account_name account_id : string)
      (existing_projects : list Project.t) (w : world) :
  (dry_run args = true
   \/ forall n sobject values,
        exists new_id, created_id sf n sobject values = Ok new_id) ->
  exists projects_to_use w',
    build_projects_to_use sf args account_name account_id existing_projects w
    = (Ok projects_to_use, w').
Proof.
  intro Hcreate. unfold build_projects_to_use.
  destruct (0 <? num_projects args - Z.of_nat (length existing_projects))%Z.
  - unfold bind at 1. unfold print, emit.
    apply for_each_total. intros i l w0. now apply new_project_total.
  - unfold bind at 1.
    destruct (for_each_total
                (fun (proj : Project.t) (projects_to_use : list string) =>
                   if negb (String.eqb (Project.Id proj) (project_id args))
                   then ret (projects_to_use ++ [Project.Id proj])
                   else ret projects_to_use))
      with (xs := existing_projects) (s := [project_id args]) (w := w)
      as (l1 & w1 & Hfor).
    { intros proj l w0.
      destruct (negb (String.eqb (Project.Id proj) (project_id args)));
        unfold ret; eauto. }
    rewrite Hfor. apply while_loop_total.
    intros l w0. now apply new_project_total.
Qed.

End BucketFacts.





(** ** Empty inputs *)

(** C10 (no task, no effect).  When the project and its account are found
    and the query of line 112 returns no task, [main] prints
    ["No tasks to redistribute."] and returns normally.  The run consists
    of the three queries and three printed lines: no record is created or
    updated, and no random number is drawn. *)
Theorem empty_task_list_is_noop :
  forall (sf : Split.salesforce) (args : Split.arguments) (tape : list nat)
         (original_project : Split.Project.t)
         (more_projects : list Split.Project.t)
         (account_name : string) (more_names : list string),
    Split.query_projects sf 0 (Split.original_project_query args)
    = Ok (original_project :: more_projects) ->
    Split.query_names
      sf 1 (Split.account_name_query
              (Split.Project.Account__c original_project))
    = Ok (account_name :: more_names) ->
    Split.query_tasks sf 2 (Split.tasks_query args) = Ok [] ->
    exists w',
      Split.main sf args (Split.initial tape) = (Ok tt, w')
      /\ Split.trace w'
         = [ Split.Sf (Split.DataQuery (Split.org args)
                                       (Split.original_project_query args));
             Split.Sf (Split.DataQuery
                         (Split.org args)
                         (Split.account_name_query
                            (Split.Project.Account__c original_project)));
             Split.Stdout (Split.MsgOriginalProject
                             (Split.Project.Name original_project)
                             account_name);
             Split.Sf (Split.DataQuery (Split.org args)
                                       (Split.tasks_query args));
             Split.Stdout (Split.MsgFoundTasks 0);
             Split.Stdout Split.MsgNoTasks ]
      /\ filter Split.is_write (Split.trace w') = []
      /\ Split.rng w' = tape.
Proof.
  intros sf args tape original_project more_projects account_name more_names
         Hproject Hname Htasks.
  eexists. split.
  - unfold Split.main, Split.bind, Split.soql_projects, Split.soql_names,
      Split.soql_tasks, Split.run_sf, Split.initial.
    cbn [Split.commands Split.trace Split.rng].
    rewrite Hproject. cbn [Split.commands Split.trace Split.rng].
    rewrite Hname. unfold Split.print, Split.emit.
    cbn [Split.commands Split.trace Split.rng].
    rewrite Htasks. reflexivity.
  - cbn [Split.trace Split.rng app]. auto.
Qed.

Lemma empty_task_list_is_noop_witness :
  let original_project :=
    {| Split.Project.Id := "B0"%string; Split.Project.Name := "Original"%string;
       Split.Project.Account__c := "A1"%string |} in
  Split.query_projects org_without_tasks 0
                       (Split.original_project_query live_args)
  = Ok [original_project]
  /\ Split.query_names
       org_without_tasks 1
       (Split.account_name_query (Split.Project.Account__c original_project))
     = Ok ["Acme"%string]
  /\ Split.query_tasks org_without_tasks 2 (Split.tasks_query live_args)
     = Ok []
  /\ exists w',
      Split.main org_without_tasks live_args (Split.initial [3; 1; 4])
      = (Ok tt, w')
      /\ Split.trace w'
         = [ Split.Sf (Split.DataQuery
                         (Split.org live_args)
                         (Split.original_project_query live_args));
             Split.Sf (Split.DataQuery
                         (Split.org live_args)
                         (Split.account_name_query
                            (Split.Project.Account__c original_project)));
             Split.Stdout (Split.MsgOriginalProject
                             (Split.Project.Name original_project)
                             "Acme");
             Split.Sf (Split.DataQuery (Split.org live_args)
                                       (Split.tasks_query live_args));
             Split.Stdout (Split.MsgFoundTasks 0);
             Split.Stdout Split.MsgNoTasks ]
      /\ filter Split.is_write (Split.trace w') = []
      /\ Split.rng w' = [3; 1; 4].
Proof.
  intro original_project.
  repeat split; try reflexivity.
  apply (empty_task_list_is_noop org_without_tasks live_args [3; 1; 4]
                                 original_project [] "Acme" []);
    reflexivity.
Defined.

(** With no task every slice is empty. *)
Lemma assignments_of_nothing (base rem : nat) (buckets : list string) :
  forall i task_idx b s,
    In (b, s) (assignments [] base rem i buckets task_idx) -> s = [].
Proof.
  induction buckets as [|b0 buckets IH]; intros i idx b s Hin;
    simpl in Hin; [destruct Hin|].
  destruct Hin as [Heq|Hin].
  - injection Heq as _ <-. unfold Split.slice.
    now rewrite skipn_nil, firstn_nil.
  - eapply IH; eassumption.
Qed.

Lemma dict_set_In {V : Type} (d : PyDict.t V) (k : string) (v : V)
      (b : string) (s : V) :
  In (b, s) (PyDict.set d k v) -> (b, s) = (k, v) \/ In (b, s) d.
Proof.
  induction d as [|[k' v'] d IH]; simpl.
  - intros [H|[]]. now left.
  - destruct (String.eqb k' k); simpl.
    + intros [H|H]; [now left|right; now right].
    + intros [H|H]; [right; now left|].
      apply IH in H as [H|H]; [now left|right; now right].
Qed.

Lemma set_all_In {V : Type} (writes : list (string * V)) :
  forall (d : PyDict.t V) b s,
    In (b, s) (set_all d writes) -> In (b, s) writes \/ In (b, s) d.
Proof.
  induction writes as [|[k v] writes IH]; intros d b s Hin; simpl in *.
  - now right.
  - apply IH in Hin as [Hin|Hin]; [left; now right|].
    apply dict_set_In in Hin as [Heq|Hin]; [left; now left|now right].
Qed.

(** A distribution of empty slices gives nothing to move. *)
Lemma move_loop_nothing (sf : Split.salesforce) (args : Split.arguments)
      (d : PyDict.t (list Split.Task.t)) :
  (forall b s, In (b, s) d -> s = []) ->
  forall updates_made w,
    Split.for_each d (Split.move_bucket sf args) updates_made w
    = (Ok updates_made, w).
Proof.
  induction d as [|[b s] d IH]; intros Hempty n w.
  - reflexivity.
  - cbn [Split.for_each]. unfold Split.bind, Split.move_bucket.
    rewrite (Hempty b s) by now left.
    assert (Hhead : (if String.eqb b (Split.project_id args)
                     then Split.ret n
                     else Split.for_each [] (Split.move_task sf args b) n) w
                    = (Ok n, w))
      by (destruct (String.eqb b (Split.project_id args)); reflexivity).
    rewrite Hhead. apply IH. intros b' s' Hin. apply (Hempty b' s').
    now right.
Qed.

(** C4 (empty inputs), as the code has it.  There is no [InvalidInput]
    condition.  With an empty bucket list the distributor fails at the
    division of line 171, with [ZeroDivisionError], whatever the tasks;
    [main] never gets there, since the list it builds is never empty.
    With an empty task list and at least one bucket the distributor does
    not fail: every bucket gets the empty slice, nothing is moved and
    nothing is counted. *)
Theorem empty_inputs_of_distribute :
  (forall (sf : Split.salesforce) (args : Split.arguments)
          (tasks : list Split.Task.t) (w : Split.world),
      fst (Split.distribute sf args tasks [] w) = Raise ZeroDivisionError)
  /\ (forall (sf : Split.salesforce) (args : Split.arguments)
             (account_name account_id : string)
             (existing_projects : list Split.Project.t)
             (w : Split.world) (projects_to_use : list string)
             (w' : Split.world),
         Split.build_projects_to_use sf args account_name account_id
                                     existing_projects w
         = (Ok projects_to_use, w') ->
         projects_to_use <> [])
  /\ (forall (sf : Split.salesforce) (args : Split.arguments)
             (buckets : list string) (w : Split.world),
         buckets <> [] ->
         exists distribution w',
           Split.distribute sf args [] buckets w = (Ok (distribution, 0), w')
           /\ (forall b s, PyDict.get distribution b = Some s -> s = [])
           /\ Split.commands w' = Split.commands w
           /\ Split.trace w'
              = Split.trace w ++ count_events 0 0 0 (length buckets)).
Proof.
  split; [|split].
  - intros sf args tasks w. unfold Split.distribute, Split.bind at 1.
    unfold Split.partition_tasks, Split.bind at 1.
    destruct (random_shuffle_run tasks w) as (x' & w1 & Hs & _).
    rewrite Hs. reflexivity.
  - intros sf args account_name account_id existing_projects w
           projects_to_use w' Hbuild.
    apply build_projects_to_use_head in Hbuild as [others ->].
    discriminate.
  - intros sf args buckets w Hne.
    destruct (partition_tasks_run [] buckets w Hne)
      as (shuffled & w1 & _ & Hperm & Hc & Ht & Hrun).
    apply Permutation_nil in Hperm. subst shuffled.
    change (length (@nil Split.Task.t)) with 0 in Hrun.
    rewrite Nat.Div0.div_0_l, Nat.Div0.mod_0_l in Hrun.
    set (d := set_all PyDict.empty (assignments [] 0 0 0 buckets 0)) in *.
    assert (Hempty : forall b s, In (b, s) d -> s = []).
    { intros b s Hin. apply set_all_In in Hin as [Hin|[]].
      eapply assignments_of_nothing; eassumption. }
    exists d. eexists. split.
    { unfold Split.distribute, Split.bind. rewrite Hrun.
      unfold Split.move_tasks, PyDict.items.
      rewrite (move_loop_nothing sf args d Hempty). reflexivity. }
    split; [|split].
    + intros b s Hget. apply dict_get_In in Hget. eauto.
    + exact Hc.
    + simpl. now rewrite Ht.
Qed.

(** No task and one bucket: the bucket gets the empty slice. *)
Lemma empty_inputs_of_distribute_witness :
  ["B0"%string] <> []
  /\ exists distribution w',
      Split.distribute accepting_org live_args [] ["B0"%string]
                       (Split.initial [])
      = (Ok (distribution, 0), w')
      /\ (forall b s, PyDict.get distribution b = Some s -> s = [])
      /\ Split.commands w' = Split.commands (Split.initial [])
      /\ Split.trace w'
         = Split.trace (Split.initial [])
             ++ count_events 0 0 0 (length ["B0"%string]).
Proof.
  assert (Hne : ["B0"%string] <> []) by discriminate.
  split; [exact Hne|].
  exact (proj2 (proj2 empty_inputs_of_distribute)
               accepting_org live_args ["B0"%string] (Split.initial []) Hne).
Defined.

(** C4 as stated fails on the empty task list: the distributor returns
    normally, with an empty slice for the bucket, and so does [main],
    after printing ["No tasks to redistribute."].  On the empty bucket
    list the failure is the [ZeroDivisionError] of line 171. *)
Lemma empty_task_list_does_not_fail :
  Split.distribute accepting_org live_args [] ["B0"%string] (Split.initial [])
  = (Ok ([("B0"%string, [])], 0),
     {| Split.rng := []; Split.commands := 0;
        Split.trace := [Split.Stdout (Split.MsgProjectCount 1 0)] |})
  /\ is_failure (fst (Split.distribute accepting_org live_args []
                                       ["B0"%string] (Split.initial [])))
     = false
  /\ fst (Split.main org_without_tasks live_args (Split.initial [])) = Ok tt
  /\ fst (Split.distribute accepting_org live_args [task_T1] []
                           (Split.initial []))
     = Raise ZeroDivisionError.
Proof. repeat split; vm_compute; reflexivity. Qed.

(** * Further properties of [split_tasks_to_projects.py] *)

(** ** Lookups that find nothing *)

(** X1 (unknown project).  When the query of line 101 returns no record,
    [main] ends with [sys.exit("Project <id> not found.")]: that query is
    the only command of the run and nothing is printed. *)
Theorem project_not_found_exits :
  forall (sf : Split.salesforce) (args : Split.arguments) (w : Split.world),
    Split.query_projects sf (Split.commands w)
                         (Split.original_project_query args)
    = Ok [] ->
    Split.main sf args w
    = (Raise (SystemExit ("Project " ++ Split.project_id args
                            ++ " not found.")%string),
       issue w [Split.DataQuery (Split.org args)
                                (Split.original_project_query args)]).
Proof.
  intros sf args w Hq.
  unfold Split.main, Split.bind, Split.soql_projects, Split.run_sf.
  rewrite Hq. reflexivity.
Qed.

(** An org that knows no project. *)
Lemma project_not_found_exits_witness :
  let sf :=
    {| Split.query_projects := fun _ _ => Ok [];
       Split.query_names := fun _ _ => Ok [];
       Split.query_tasks := fun _ _ => Ok [];
       Split.created_id := fun _ _ _ => Raise RuntimeError;
       Split.update_status := fun _ _ _ _ => Raise RuntimeError;
       Split.today := "20240101"%string |} in
  Split.query_projects sf (Split.commands (Split.initial [5]))
                       (Split.original_project_query live_args)
  = Ok []
  /\ Split.main sf live_args (Split.initial [5])
     = (Raise (SystemExit ("Project " ++ Split.project_id live_args
                             ++ " not found.")%string),
        issue (Split.initial [5])
              [Split.DataQuery (Split.org live_args)
                               (Split.original_project_query live_args)]).
Proof.
  intro sf. split; [reflexivity|].
  apply (project_not_found_exits sf live_args (Split.initial [5])).
  reflexivity.
Defined.

(** X2 (unknown account).  When the project is found but the query of
    line 107 for its account returns no record, the subscript [[0]] fails:
    [main] ends with [IndexError] after these two queries, before it
    prints anything or asks for the tasks. *)
Theorem account_not_found_raises :
  forall (sf : Split.salesforce) (args : Split.arguments) (w : Split.world)
         (original_project : Split.Project.t)
         (more_projects : list Split.Project.t),
    Split.query_projects sf (Split.commands w)
                         (Split.original_project_query args)
    = Ok (original_project :: more_projects) ->
    Split.query_names
      sf (S (Split.commands w))
      (Split.account_name_query (Split.Project.Account__c original_project))
    = Ok [] ->
    Split.main sf args w
    = (Raise IndexError,
       issue w [Split.DataQuery (Split.org args)
                                (Split.original_project_query args);
                Split.DataQuery
                  (Split.org args)
                  (Split.account_name_query
                     (Split.Project.Account__c original_project))]).
Proof.
  intros sf args w original_project more_projects Hproject Hname.
  unfold Split.main, Split.bind, Split.soql_projects, Split.soql_names,
    Split.run_sf.
  rewrite Hproject. cbn [Split.commands Split.trace Split.rng].
  rewrite Hname. unfold Split.raise, issue.
  cbn [length map Nat.add]. now rewrite <- app_assoc.
Qed.

(** An org in which the project's account has been deleted. *)
Lemma account_not_found_raises_witness :
  let original_project :=
    {| Split.Project.Id := "B0"%string; Split.Project.Name := "Original"%string;
       Split.Project.Account__c := "A1"%string |} in
  let sf :=
    {| Split.query_projects := fun _ _ => Ok [original_project];
       Split.query_names := fun _ _ => Ok [];
       Split.query_tasks := fun _ _ => Ok [task_T1];
       Split.created_id := fun _ _ _ => Raise RuntimeError;
       Split.update_status := fun _ _ _ _ => Raise RuntimeError;
       Split.today := "20240101"%string |} in
  Split.query_projects sf (Split.commands (Split.initial []))
                       (Split.original_project_query live_args)
  = Ok [original_project]
  /\ Split.query_names
       sf (S (Split.commands (Split.initial [])))
       (Split.account_name_query (Split.Project.Account__c original_project))
     = Ok []
  /\ Split.main sf live_args (Split.initial [])
     = (Raise IndexError,
        issue (Split.initial [])
              [Split.DataQuery (Split.org live_args)
                               (Split.original_project_query live_args);
               Split.DataQuery
                 (Split.org live_args)
                 (Split.account_name_query
                    (Split.Project.Account__c original_project))]).
Proof.
  intros original_project sf. split; [reflexivity|]. split; [reflexivity|].
  apply (account_not_found_raises sf live_args (Split.initial [])
                                  original_project []);
    reflexivity.
Defined.

(** ** Dry runs *)
Section DryRunFacts.

Import Split.

Lemma no_write_ret {A : Type} (a : A) : adds_no_write (ret a).
Proof. intro w. reflexivity. Qed.

Lemma no_write_raise {A : Type} (e : py_exception) :
  adds_no_write (@raise A e).
Proof. intro w. reflexivity. Qed.

Lemma no_write_bind {A B : Type} (c : M A) (k : A -> M B) :
  adds_no_write c -> (forall a, adds_no_write (k a)) ->
  adds_no_write (bind c k).
Proof.
  intros Hc Hk w. unfold bind. specialize (Hc w).
  destruct (c w) as [[a|e] w1]; simpl in *.
  - now rewrite Hk.
  - exact Hc.
Qed.

Lemma no_write_print (m : message) : adds_no_write (print m).
Proof.
  intro w. unfold print, emit. simpl. rewrite filter_app. simpl.
  apply app_nil_r.
Qed.

Lemma no_write_query {A : Type} (target_org query : string)
      (answer : nat -> outcome A) :
  adds_no_write (run_sf (DataQuery target_org query) answer).
Proof.
  intro w. unfold run_sf. simpl. rewrite filter_app. simpl.
  apply app_nil_r.
Qed.

Lemma no_write_randbelow (n : nat) : adds_no_write (randbelow n).
Proof. intro w. unfold randbelow. destruct (rng w); reflexivity. Qed.

Lemma no_write_random_choice {A : Type} (seq : list A) :
  adds_no_write (random_choice seq).
Proof.
  destruct seq as [|a seq]; [apply no_write_raise|].
  apply no_write_bind; [apply no_write_randbelow|].
  intro j. apply no_write_ret.
Qed.

Lemma no_write_shuffle {A : Type} (x : list A) :
  adds_no_write (random_shuffle x).
Proof.
  unfold random_shuffle. generalize (length x - 1). intro i. revert x.
  induction i as [|i IH]; intro x; [apply no_write_ret|].
  cbn [shuffle_from]. apply no_write_bind; [apply no_write_randbelow|].
  intro j. apply IH.
Qed.

Lemma no_write_for_each {X St : Type} (body : X -> St -> M St)
      (xs : list X) :
  (forall x s, adds_no_write (body x s)) ->
  forall s, adds_no_write (for_each xs body s).
Proof.
  intro Hbody. induction xs as [|x xs IH]; intro s; [apply no_write_ret|].
  cbn [for_each]. apply no_write_bind; [apply Hbody|exact IH].
Qed.

Lemma no_write_while_loop {St : Type} (cond : St -> bool) (body : St -> M St)
      (fuel : nat) :
  (forall s, adds_no_write (body s)) ->
  forall s, adds_no_write (while_loop fuel cond body s).
Proof.
  intro Hbody. induction fuel as [|fuel IH]; intro s; [apply no_write_ret|].
  cbn [while_loop]. destruct (cond s); [|apply no_write_ret].
  apply no_write_bind; [apply Hbody|exact IH].
Qed.

(** The partition of lines 170-180 only draws and prints. *)
Lemma no_write_partition (tasks : list Task.t) (buckets : list string) :
  adds_no_write (partition_tasks tasks buckets).
Proof.
  unfold partition_tasks.
  apply no_write_bind; [apply no_write_shuffle|]. intro shuffled.
  apply no_write_bind.
  { unfold floordiv. destruct (length buckets =? 0);
      [apply no_write_raise|apply no_write_ret]. }
  intro tasks_per_project. apply no_write_bind.
  { unfold modulo. destruct (length buckets =? 0);
      [apply no_write_raise|apply no_write_ret]. }
  intro remainder. apply no_write_bind.
  - apply no_write_for_each. intros [i bucket] [d idx]. unfold assign_bucket.
    apply no_write_bind; [apply no_write_print|]. intros _. apply no_write_ret.
  - intros [d idx]. apply no_write_ret.
Qed.

Variable sf : salesforce.
Variable args : arguments.
Hypothesis Hdry : dry_run args = true.

Lemma no_write_new_project (account_name account_id : string) (number : nat)
      (projects_to_use : list string) :
  adds_no_write
    (new_project sf args account_name account_id number projects_to_use).
Proof.
  unfold new_project. apply no_write_bind; [apply no_write_random_choice|].
  intro status. rewrite Hdry.
  apply no_write_bind; [apply no_write_print|]. intros _. apply no_write_ret.
Qed.

Lemma no_write_build (account_name account_id : string)
      (existing_projects : list Project.t) :
  adds_no_write
    (build_projects_to_use sf args account_name account_id
                           existing_projects).
Proof.
  unfold build_projects_to_use.
  destruct (0 <? num_projects args - Z.of_nat (length existing_projects))%Z.
  - apply no_write_bind; [apply no_write_print|]. intros _.
    apply no_write_for_each. intros i l. apply no_write_new_project.
  - apply no_write_bind.
    + apply no_write_for_each. intros proj l.
      destruct (negb (String.eqb (Project.Id proj) (project_id args)));
        apply no_write_ret.
    + intro l. apply no_write_while_loop. intro l'.
      apply no_write_new_project.
Qed.

Lemma no_write_distribute (tasks : list Task.t) (buckets : list string) :
  adds_no_write (distribute sf args tasks buckets).
Proof.
  unfold distribute. apply no_write_bind; [apply no_write_partition|].
  intro d. apply no_write_bind; [|intro n; apply no_write_ret].
  unfold move_tasks. apply no_write_for_each. intros [b s] n.
  unfold move_bucket. destruct (String.eqb b (project_id args));
    [apply no_write_ret|].
  apply no_write_for_each. intros t n'. unfold move_task. rewrite Hdry.
  apply no_write_bind; [apply no_write_print|]. intros _. apply no_write_ret.
Qed.

Lemma no_write_main : adds_no_write (main sf args).
Proof.
  unfold main.
  apply no_write_bind; [apply no_write_query|]. intros [|original more].
  { apply no_write_raise. }
  apply no_write_bind; [apply no_write_query|]. intros [|account_name names].
  { apply no_write_raise. }
  apply no_write_bind; [apply no_write_print|]. intros _.
  apply no_write_bind; [apply no_write_query|]. intro tasks.
  apply no_write_bind; [apply no_write_print|]. intros _.
  destruct (length tasks =? 0); [apply no_write_print|].
  apply no_write_bind; [apply no_write_query|]. intro existing.
  apply no_write_bind; [apply no_write_build|]. intro projects_to_use.
  apply no_write_bind; [apply no_write_print|]. intros _.
  apply no_write_bind; [apply no_write_distribute|]. intros [d n].
  rewrite Hdry. apply no_write_print.
Qed.

End DryRunFacts.

(** X3 (a dry run changes nothing).  With [--dry-run], whatever the org
    answers, whatever the random draws and however the run ends, [main]
    issues no create and no update command: from the start of the run the
    trace holds queries and printed lines only. *)
Theorem dry_run_never_writes :
  forall (sf : Split.salesforce) (args : Split.arguments) (tape : list nat),
    Split.dry_run args = true ->
    filter Split.is_write
           (Split.trace (snd (Split.main sf args (Split.initial tape))))
    = []
    /\ forall e,
        In e (Split.trace (snd (Split.main sf args (Split.initial tape)))) ->
        match e with
        | Split.Sf (Split.DataQuery _ _) | Split.Stdout _ => True
        | Split.Sf _ => False
        end.
Proof.
  intros sf args tape Hdry.
  pose proof (no_write_main sf args Hdry (Split.initial tape)) as Hquiet.
  simpl in Hquiet. split; [exact Hquiet|].
  intros e Hin. destruct e as [[o q|o so v|o so r v]|m]; try exact I.
  - assert (Hf : In (Split.Sf (Split.DataCreateRecord o so v))
                    (filter Split.is_write
                            (Split.trace
                               (snd (Split.main sf args
                                                (Split.initial tape))))))
      by (apply filter_In; split; [exact Hin|reflexivity]).
    rewrite Hquiet in Hf. destruct Hf.
  - assert (Hf : In (Split.Sf (Split.DataUpdateRecord o so r v))
                    (filter Split.is_write
                            (Split.trace
                               (snd (Split.main sf args
                                                (Split.initial tape))))))
      by (apply filter_In; split; [exact Hin|reflexivity]).
    rewrite Hquiet in Hf. destruct Hf.
Qed.

(** A dry run of the example org. *)
Lemma dry_run_never_writes_witness :
  Split.dry_run dry_args = true
  /\ filter Split.is_write
            (Split.trace (snd (Split.main accepting_org dry_args
                                          (Split.initial [3; 1; 4]))))
     = []
  /\ forall e,
      In e (Split.trace (snd (Split.main accepting_org dry_args
                                         (Split.initial [3; 1; 4])))) ->
      match e with
      | Split.Sf (Split.DataQuery _ _) | Split.Stdout _ => True
      | Split.Sf _ => False
      end.
Proof.
  split; [reflexivity|].
  apply (dry_run_never_writes accepting_org dry_args [3; 1; 4]).
  reflexivity.
Defined.

(** ** How many projects the tasks are spread over *)

(** A loop invariant that follows the items already handled, the loop
    variables and the world. *)
Lemma for_each_steps {X St : Type}
      (I : list X -> St -> Split.world -> Prop)
      (body : X -> St -> Split.M St) :
  (forall done x s w s' w',
      I done s w -> body x s w = (Ok s', w') -> I (done ++ [x]) s' w') ->
  forall xs done s w s' w',
    I done s w ->
    Split.for_each xs body s w = (Ok s', w') ->
    I (done ++ xs) s' w'.
Proof.
  intro Hbody. induction xs as [|x xs IH]; intros done s w s' w' Hs Hrun.
  - simpl in Hrun. unfold Split.ret in Hrun. injection Hrun as <- <-.
    now rewrite app_nil_r.
  - cbn [Split.for_each] in Hrun. unfold Split.bind in Hrun.
    destruct (body x s w) as [[s1|e] w1] eqn:Hb; [|discriminate].
    replace (done ++ x :: xs) with ((done ++ [x]) ++ xs)
      by now rewrite <- app_assoc.
    eapply IH; [|exact Hrun]. eapply Hbody; eassumption.
Qed.

Lemma created_count_app (tr1 tr2 : list Split.event) :
  created_count (tr1 ++ tr2) = created_count tr1 + created_count tr2.
Proof. unfold created_count. now rewrite filter_app, length_app. Qed.

Lemma created_count_create (target_org sobject : string)
      (values : list (string * string)) :
  created_count [Split.Sf (Split.DataCreateRecord target_org sobject values)]
  = 1.
Proof. reflexivity. Qed.

Lemma created_count_print (m : Split.message) :
  created_count [Split.Stdout m] = 0.
Proof. reflexivity. Qed.

Section ProjectCountFacts.

Import Split.

Variable sf : salesforce.
Variable args : arguments.

(** One creation: a dry run makes up the id [DRYPROJ<number>] and issues
    nothing, a live run issues one create command. *)
Lemma new_project_run (account_name account_id : string) (number : nat)
      (projects_to_use : list string) (w : world)
      (projects_to_use' : list string) (w' : world) :
  new_project sf args account_name account_id number projects_to_use w
  = (Ok projects_to_use', w') ->
  exists new_id,
    projects_to_use' = projects_to_use ++ [new_id]
    /\ created_count (trace w')
       = created_count (trace w) + (if dry_run args then 0 else 1)
    /\ (dry_run args = true -> new_id = ("DRYPROJ" ++ str number)%string).
Proof.
  unfold new_project, bind.
  unfold random_choice, PROJECT_STATUSES, bind.
  destruct (randbelow_run 7 w) as (j & w1 & Hr & _ & Ht). cbn [length].
  rewrite Hr. unfold ret at 1.
  destruct (dry_run args).
  - unfold print, emit, ret. intro H. injection H as <- <-.
    eexists. split; [reflexivity|]. split; [|reflexivity].
    cbn [trace]. rewrite created_count_app, created_count_print, Ht.
    reflexivity.
  - unfold create_record, run_sf.
    destruct (created_id sf (commands w1) _ _) as [new_id|e];
      [|discriminate].
    unfold print, emit, ret. intro H. injection H as <- <-.
    exists new_id. split; [reflexivity|]. split; [|discriminate].
    cbn [trace].
    rewrite !created_count_app, created_count_create, created_count_print,
      Ht.
    lia.
Qed.

(** The loop of lines 150-165: it appends as many new projects as are
    missing. *)
Lemma creation_loop_run (account_name account_id : string) :
  forall fuel projects_to_use w projects_to_use' w',
    fuel = Z.to_nat (num_projects args
                     - Z.of_nat (length projects_to_use)) ->
    while_loop fuel
               (fun projects_to_use =>
                  (Z.of_nat (length projects_to_use) <? num_projects args)%Z)
               (fun projects_to_use =>
                  new_project sf args account_name account_id
                              (length projects_to_use + 1) projects_to_use)
               projects_to_use w
    = (Ok projects_to_use', w') ->
    exists created,
      projects_to_use' = projects_to_use ++ created
      /\ length created = fuel
      /\ created_count (trace w')
         = created_count (trace w) + (if dry_run args then 0 else fuel).
Proof.
  induction fuel as [|fuel IH]; intros l w l' w' Hfuel Hrun.
  - simpl in Hrun. unfold ret in Hrun. injection Hrun as <- <-.
    exists []. rewrite app_nil_r. destruct (dry_run args); auto.
  - cbn [while_loop] in Hrun.
    destruct (Z.of_nat (length l) <? num_projects args)%Z eqn:Hcond.
    + unfold bind in Hrun.
      destruct (new_project sf args account_name account_id
                            (length l + 1) l w) as [[l1|e] w1] eqn:Hnew;
        [|discriminate].
      apply new_project_run in Hnew as (new_id & -> & Hc1 & _).
      apply IH in Hrun as (created & -> & Hlen & Hc).
      * exists (new_id :: created). rewrite <- app_assoc.
        split; [reflexivity|]. split; [simpl; lia|].
        rewrite Hc, Hc1. destruct (dry_run args); lia.
      * rewrite length_app. simpl. lia.
    + apply Z.ltb_ge in Hcond. lia.
Qed.

Lemma filter_other_length (original : string) (ids : list string) :
  NoDup ids ->
  length ids
  <= 1 + length (filter (fun id => negb (String.eqb id original)) ids).
Proof.
  induction ids as [|id ids IH]; intro Hnd; simpl; [lia|].
  inversion Hnd as [|? ? Hnin Hnd']; subst.
  destruct (String.eqb_spec id original) as [->|Hne]; simpl.
  - assert (Hall : filter (fun id => negb (String.eqb id original)) ids = ids).
    { clear IH Hnd Hnd'. induction ids as [|a ids IH]; [reflexivity|].
      simpl. destruct (String.eqb_spec a original) as [->|_].
      - exfalso. apply Hnin. now left.
      - simpl. rewrite IH; [reflexivity|]. intro H. apply Hnin. now right. }
    rewrite Hall. lia.
  - specialize (IH Hnd'). lia.
Qed.

(** The loop of lines 146-148 keeps the existing projects other than the
    original one, in order; it issues nothing. *)
Lemma reuse_loop_run (existing_projects : list Project.t) :
  forall projects_to_use w,
    for_each existing_projects
             (fun proj projects_to_use =>
                if negb (String.eqb (Project.Id proj) (project_id args))
                then ret (projects_to_use ++ [Project.Id proj])
                else ret projects_to_use)
             projects_to_use w
    = (Ok (projects_to_use
             ++ filter (fun id => negb (String.eqb id (project_id args)))
                       (map Project.Id existing_projects)),
       w).
Proof.
  induction existing_projects as [|proj existing IH]; intros l w.
  - simpl. unfold ret. now rewrite app_nil_r.
  - cbn [for_each map filter]. unfold bind at 1.
    destruct (negb (String.eqb (Project.Id proj) (project_id args)));
      unfold ret at 1; rewrite IH; [|reflexivity].
    now rewrite <- app_assoc.
Qed.

End ProjectCountFacts.

(** X4 (creation branch).  When the account has fewer projects than
    [--num-projects], [main] creates [num_projects - len(existing)] projects
    and spreads the tasks over the original project and these new ones
    only: whenever the list is built it is the original project followed
    by that many ids, a live run has issued one create command for each,
    and a dry run none, its ids being [DRYPROJ2], [DRYPROJ3], ... *)
Theorem creation_branch_projects :
  forall (sf : Split.salesforce) (args : Split.arguments)
         (account_name account_id : string)
         (existing_projects : list Split.Project.t) (w : Split.world)
         (projects_to_use : list string) (w' : Split.world),
    (Z.of_nat (length existing_projects) < Split.num_projects args)%Z ->
    Split.build_projects_to_use sf args account_name account_id
                                existing_projects w
    = (Ok projects_to_use, w') ->
    let needed :=
      Z.to_nat (Split.num_projects args
                - Z.of_nat (length existing_projects)) in
    exists created,
      projects_to_use = Split.project_id args :: created
      /\ length created = needed
      /\ created_count (Split.trace w')
         = created_count (Split.trace w)
           + (if Split.dry_run args then 0 else needed)
      /\ (Split.dry_run args = true ->
          created
          = map (fun i => ("DRYPROJ" ++ Split.str (i + 2))%string)
                (seq 0 needed)).
Proof.
  intros sf args account_name account_id existing w l w' Hlt Hbuild needed.
  unfold Split.build_projects_to_use in Hbuild.
  replace (0 <? Split.num_projects args - Z.of_nat (length existing))%Z
    with true in Hbuild by (symmetry; apply Z.ltb_lt; lia).
  unfold Split.bind at 1, Split.print, Split.emit in Hbuild.
  fold needed in Hbuild.
  set (w0 := {| Split.rng := Split.rng w;
                Split.commands := Split.commands w;
                Split.trace := Split.trace w ++ _ |}) in Hbuild.
  set (I := fun (done : list nat) (l : list string) (w1 : Split.world) =>
              exists created,
                l = Split.project_id args :: created
                /\ length created = length done
                /\ created_count (Split.trace w1)
                   = created_count (Split.trace w)
                     + (if Split.dry_run args then 0 else length done)
                /\ (Split.dry_run args = true ->
                    created
                    = map (fun i => ("DRYPROJ" ++ Split.str (i + 2))%string)
                          done)).
  assert (Hend : I ([] ++ seq 0 needed) l w').
  { refine (for_each_steps I _ _ _ [] _ _ _ _ _ Hbuild).
    - intros done i l1 w1 l2 w2 (created & -> & Hlen & Hc & Hids) Hnew.
      apply new_project_run in Hnew as (new_id & -> & Hc1 & Hid).
      exists (created ++ [new_id]). split; [reflexivity|].
      split; [rewrite !length_app; simpl; lia|]. split.
      + rewrite Hc1, Hc, length_app. simpl.
        destruct (Split.dry_run args); lia.
      + intro Hdry. rewrite map_app, (Hids Hdry), (Hid Hdry). reflexivity.
    - exists []. split; [reflexivity|]. split; [reflexivity|]. split.
      + unfold w0. cbn [Split.trace].
        rewrite created_count_app, created_count_print.
        destruct (Split.dry_run args); cbn [length]; lia.
      + intros _. reflexivity. }
  simpl in Hend. destruct Hend as (created & -> & Hlen & Hc & Hids).
  rewrite length_seq in Hlen, Hc. exists created. auto.
Qed.

(** The example account has one project; with [--num-projects 4] three
    are created. *)
Lemma creation_branch_projects_witness :
  let existing :=
    [ {| Split.Project.Id := "B0"%string; Split.Project.Name := "Original"%string;
         Split.Project.Account__c := "A1"%string |} ] in
  let needed :=
    Z.to_nat (Split.num_projects live_args - Z.of_nat (length existing)) in
  (Z.of_nat (length existing) < Split.num_projects live_args)%Z
  /\ Split.build_projects_to_use accepting_org live_args "Acme" "A1"
                                 existing (Split.initial [3; 1; 4])
     = (Ok ["B0"; "NEW0"; "NEW1"; "NEW2"]%string,
        {| Split.rng := []; Split.commands := 3;
           Split.trace := three_projects_created |})
  /\ exists created,
      ["B0"; "NEW0"; "NEW1"; "NEW2"]%string
      = Split.project_id live_args :: created
      /\ length created = needed
      /\ created_count three_projects_created
         = created_count (Split.trace (Split.initial [3; 1; 4]))
           + (if Split.dry_run live_args then 0 else needed)
      /\ (Split.dry_run live_args = true ->
          created
          = map (fun i => ("DRYPROJ" ++ Split.str (i + 2))%string)
                (seq 0 needed)).
Proof.
  intros existing needed.
  assert (Hlt : (Z.of_nat (length existing) < Split.num_projects live_args)%Z)
    by (vm_compute; reflexivity).
  assert (Hbuild :
            Split.build_projects_to_use accepting_org live_args "Acme" "A1"
                                        existing (Split.initial [3; 1; 4])
            = (Ok ["B0"; "NEW0"; "NEW1"; "NEW2"]%string,
               {| Split.rng := []; Split.commands := 3;
                  Split.trace := three_projects_created |}))
    by (vm_compute; reflexivity).
  split; [exact Hlt|]. split; [exact Hbuild|].
  exact (creation_branch_projects accepting_org live_args "Acme" "A1"
                                  existing (Split.initial [3; 1; 4])
                                  _ _ Hlt Hbuild).
Defined.

(** X5 (reuse branch).  When the account already has at least
    [--num-projects] projects, the tasks are spread over the original
    project followed by every other project of the account, in the order
    of the query, even if that is more than [--num-projects].  With
    distinct project ids nothing is created, no random number is drawn and
    nothing is printed; in general, whenever the list is built, what is
    created is what is still missing to reach [--num-projects]. *)
Theorem reuse_branch_projects :
  forall (sf : Split.salesforce) (args : Split.arguments)
         (account_name account_id : string)
         (existing_projects : list Split.Project.t) (w : Split.world),
    (Split.num_projects args <= Z.of_nat (length existing_projects))%Z ->
    let others :=
      filter (fun id => negb (String.eqb id (Split.project_id args)))
             (map Split.Project.Id existing_projects) in
    (NoDup (map Split.Project.Id existing_projects) ->
     Split.build_projects_to_use sf args account_name account_id
                                 existing_projects w
     = (Ok (Split.project_id args :: others), w))
    /\ forall projects_to_use w',
        Split.build_projects_to_use sf args account_name account_id
                                    existing_projects w
        = (Ok projects_to_use, w') ->
        exists created,
          projects_to_use = Split.project_id args :: others ++ created
          /\ length created
             = Z.to_nat (Split.num_projects args
                         - Z.of_nat (1 + length others))
          /\ created_count (Split.trace w')
             = created_count (Split.trace w)
               + (if Split.dry_run args then 0 else length created).
Proof.
  intros sf args account_name account_id existing w Hle others.
  assert (Hbranch :
            (0 <? Split.num_projects args - Z.of_nat (length existing))%Z
            = false) by (apply Z.ltb_ge; lia).
  assert (Hloop :
            Split.build_projects_to_use sf args account_name account_id
                                        existing w
            = Split.while_loop
                (Z.to_nat (Split.num_projects args
                           - Z.of_nat (length (Split.project_id args
                                                 :: others))))
                (fun projects_to_use =>
                   (Z.of_nat (length projects_to_use)
                    <? Split.num_projects args)%Z)
                (fun projects_to_use =>
                   Split.new_project sf args account_name account_id
                                     (length projects_to_use + 1)
                                     projects_to_use)
                (Split.project_id args :: others) w).
  { unfold Split.build_projects_to_use. rewrite Hbranch.
    unfold Split.bind at 1. rewrite reuse_loop_run. reflexivity. }
  split.
  - intro Hnd. rewrite Hloop.
    pose proof (filter_other_length (Split.project_id args) _ Hnd) as Hlen.
    fold others in Hlen. rewrite length_map in Hlen.
    replace (Z.to_nat (Split.num_projects args
                       - Z.of_nat (length (Split.project_id args :: others))))
      with 0 by (simpl length; lia).
    reflexivity.
  - intros l w' Hbuild. rewrite Hloop in Hbuild.
    apply creation_loop_run in Hbuild as (created & -> & Hlen & Hc);
      [|reflexivity].
    exists created. split; [reflexivity|]. split; [exact Hlen|].
    rewrite Hc, Hlen. reflexivity.
Qed.

(** An account with three projects and [--num-projects 2]: the three are
    used. *)
Lemma reuse_branch_projects_witness :
  let project := fun id : string =>
                   {| Split.Project.Id := id; Split.Project.Name := id;
                      Split.Project.Account__c := "A1"%string |} in
  let existing := map project ["B1"; "B0"; "B2"]%string in
  let args := {| Split.org := "milestoneDevOrg"%string;
                 Split.project_id := "B0"%string;
                 Split.num_projects := 2; Split.dry_run := false |} in
  (Split.num_projects args <= Z.of_nat (length existing))%Z
  /\ NoDup (map Split.Project.Id existing)
  /\ Split.build_projects_to_use accepting_org args "Acme" "A1" existing
                                 (Split.initial [3; 1])
     = (Ok ["B0"; "B1"; "B2"]%string, Split.initial [3; 1]).
Proof.
  intros project existing args.
  assert (Hle : (Split.num_projects args <= Z.of_nat (length existing))%Z)
    by (vm_compute; discriminate).
  assert (Hnd : NoDup (map Split.Project.Id existing)).
  { repeat constructor; simpl; intuition discriminate. }
  split; [exact Hle|]. split; [exact Hnd|].
  exact (proj1 (reuse_branch_projects accepting_org args "Acme" "A1"
                                      existing (Split.initial [3; 1]) Hle)
               Hnd).
Defined.

(** ** An update that the org rejects *)
Section RejectedUpdateFacts.

Import Split.

Lemma for_each_app {X St : Type} (body : X -> St -> M St)
      (xs1 xs2 : list X) :
  forall s w,
    for_each (xs1 ++ xs2) body s w
    = bind (for_each xs1 body s) (for_each xs2 body) w.
Proof.
  induction xs1 as [|x xs1 IH]; intros s w.
  - reflexivity.
  - cbn [app for_each]. unfold bind.
    destruct (body x s w) as [[s1|e] w1]; [|reflexivity].
    rewrite IH. reflexivity.
Qed.

Lemma for_each_map {X Y St : Type} (f : X -> Y) (body : Y -> St -> M St)
      (xs : list X) :
  forall s w,
    for_each (map f xs) body s w = for_each xs (fun x => body (f x)) s w.
Proof.
  induction xs as [|x xs IH]; intros s w; [reflexivity|].
  cbn [map for_each]. unfold bind.
  destruct (body (f x) s w) as [[s1|e] w1]; [apply IH|reflexivity].
Qed.

Variable sf : salesforce.
Variable args : arguments.

(** The nested loops of lines 184-192 handle the moves one after the
    other. *)
Lemma move_loop_flat (d : PyDict.t (list Task.t)) :
  forall updates_made w,
    for_each d (move_bucket sf args) updates_made w
    = for_each (moves (project_id args) d)
               (fun move => move_task sf args (snd move) (fst move))
               updates_made w.
Proof.
  induction d as [|[b s] d IH]; intros n w; [reflexivity|].
  cbn [for_each]. unfold moves. cbn [flat_map fst snd].
  fold (moves (project_id args) d).
  unfold bind at 1. unfold move_bucket at 1.
  destruct (String.eqb b (project_id args)).
  - unfold ret at 1. cbn [app]. apply IH.
  - rewrite for_each_app. unfold bind. rewrite for_each_map. cbn [fst snd].
    change (fun x : Task.t => move_task sf args b x)
      with (move_task sf args b).
    destruct (for_each s (move_task sf args b) n w) as [[n1|e] w1];
      [apply IH|reflexivity].
Qed.

Hypothesis Hlive : dry_run args = false.

Lemma move_task_accepted (bucket : string) (task : Task.t)
      (updates_made : nat) (w : world) :
  update_status sf (commands w) "Project_Task__c" (Task.Id task)
                [("Project__c"%string, bucket)]
  = Ok (Some 0%Z) ->
  move_task sf args bucket task updates_made w
  = (Ok (updates_made + 1),
     issue w [update_command (org args) (task, bucket)]).
Proof.
  intro Hupd. unfold move_task, update_record, run_sf, bind.
  rewrite Hlive, Hupd. reflexivity.
Qed.

Lemma move_task_rejected (bucket : string) (task : Task.t)
      (updates_made : nat) (w : world) :
  update_status sf (commands w) "Project_Task__c" (Task.Id task)
                [("Project__c"%string, bucket)]
  <> Ok (Some 0%Z) ->
  move_task sf args bucket task updates_made w
  = (Raise (update_failure
              (update_status sf (commands w) "Project_Task__c"
                             (Task.Id task)
                             [("Project__c"%string, bucket)])),
     issue w [update_command (org args) (task, bucket)]).
Proof.
  intro Hupd. unfold move_task, update_record, run_sf, bind.
  rewrite Hlive.
  destruct (update_status sf (commands w) "Project_Task__c" (Task.Id task)
                          [("Project__c"%string, bucket)])
    as [[[|p|p]|]|e]; try reflexivity.
  congruence.
Qed.

Lemma moves_stop_at_rejection (j : nat) :
  forall (mvs : list (Task.t * string)) (updates_made : nat) (w : world)
         (task : Task.t) (bucket : string),
    (forall i t b,
        i < j -> nth_error mvs i = Some (t, b) ->
        update_status sf (commands w + i) "Project_Task__c" (Task.Id t)
                      [("Project__c"%string, b)]
        = Ok (Some 0%Z)) ->
    nth_error mvs j = Some (task, bucket) ->
    update_status sf (commands w + j) "Project_Task__c" (Task.Id task)
                  [("Project__c"%string, bucket)]
    <> Ok (Some 0%Z) ->
    for_each mvs (fun move => move_task sf args (snd move) (fst move))
             updates_made w
    = (Raise (update_failure
                (update_status sf (commands w + j) "Project_Task__c"
                               (Task.Id task)
                               [("Project__c"%string, bucket)])),
       issue w (map (update_command (org args)) (firstn (S j) mvs))).
Proof.
  induction j as [|j IH]; intros mvs n w task bucket Hbefore Hnth Hrej;
    destruct mvs as [|[t0 b0] mvs]; try discriminate.
  - simpl in Hnth. injection Hnth as -> ->.
    rewrite Nat.add_0_r in *.
    cbn [for_each fst snd firstn map]. unfold bind.
    rewrite move_task_rejected by assumption. reflexivity.
  - simpl in Hnth.
    cbn [for_each fst snd]. unfold bind.
    rewrite move_task_accepted.
    2:{ specialize (Hbefore 0 t0 b0). rewrite Nat.add_0_r in Hbefore.
        apply Hbefore; [lia|reflexivity]. }
    set (w1 := issue w [update_command (org args) (t0, b0)]).
    assert (Hc : forall i, commands w1 + i = commands w + S i)
      by (intro i; unfold w1, issue; simpl; lia).
    rewrite (IH mvs (n + 1) w1 task bucket).
    + rewrite Hc. unfold w1. rewrite issue_app. reflexivity.
    + intros i t b Hi Hn. rewrite Hc. apply Hbefore; [lia|exact Hn].
    + exact Hnth.
    + rewrite Hc. exact Hrej.
Qed.

End RejectedUpdateFacts.

(** X6 (no rollback).  In a live run, when the org accepts the updates of
    the first [j] moves and rejects the next one (the command fails, or
    its status is not 0), the moves of lines 183-192 stop there with that
    failure or with [RuntimeError]: exactly the first [j + 1] update
    commands have been issued, so the [j] accepted ones are not undone and
    no update is attempted for the moves that follow. *)
Theorem rejected_update_stops_moves :
  forall (sf : Split.salesforce) (args : Split.arguments)
         (distribution : PyDict.t (list Split.Task.t)) (w : Split.world)
         (j : nat) (task : Split.Task.t) (bucket : string),
    Split.dry_run args = false ->
    (forall i t b,
        i < j ->
        nth_error (moves (Split.project_id args) distribution) i
        = Some (t, b) ->
        Split.update_status sf (Split.commands w + i) "Project_Task__c"
                            (Split.Task.Id t) [("Project__c"%string, b)]
        = Ok (Some 0%Z)) ->
    nth_error (moves (Split.project_id args) distribution) j
    = Some (task, bucket) ->
    Split.update_status sf (Split.commands w + j) "Project_Task__c"
                        (Split.Task.Id task) [("Project__c"%string, bucket)]
    <> Ok (Some 0%Z) ->
    Split.move_tasks sf args distribution w
    = (Raise (update_failure
                (Split.update_status
                   sf (Split.commands w + j) "Project_Task__c"
                   (Split.Task.Id task) [("Project__c"%string, bucket)])),
       issue w (map (update_command (Split.org args))
                    (firstn (S j)
                            (moves (Split.project_id args) distribution)))).
Proof.
  intros sf args d w j task bucket Hlive Hbefore Hnth Hrej.
  unfold Split.move_tasks, PyDict.items.
  rewrite move_loop_flat.
  now apply moves_stop_at_rejection.
Qed.

(** Two tasks to move; the org accepts the first update and answers the
    second one with status 1. *)
Lemma rejected_update_stops_moves_witness :
  let sf :=
    {| Split.query_projects := fun _ _ => Ok [];
       Split.query_names := fun _ _ => Ok [];
       Split.query_tasks := fun _ _ => Ok [];
       Split.created_id := fun _ _ _ => Raise RuntimeError;
       Split.update_status :=
         fun n _ _ _ => if n =? 0 then Ok (Some 0%Z) else Ok (Some 1%Z);
       Split.today := "20240101"%string |} in
  let distribution :=
    [("B0"%string, [task_T1]); ("B1"%string, [task_T2; task_T3])] in
  Split.dry_run live_args = false
  /\ nth_error (moves (Split.project_id live_args) distribution) 1
     = Some (task_T3, "B1"%string)
  /\ Split.move_tasks sf live_args distribution (Split.initial [])
     = (Raise RuntimeError,
        issue (Split.initial [])
              [update_command "milestoneDevOrg" (task_T2, "B1"%string);
               update_command "milestoneDevOrg" (task_T3, "B1"%string)]).
Proof.
  intros sf distribution.
  split; [reflexivity|]. split; [reflexivity|].
  refine (rejected_update_stops_moves sf live_args distribution
                                      (Split.initial []) 1 task_T3 "B1"
                                      eq_refl _ eq_refl _).
  - intros [|i] t b Hi Hnth; [reflexivity|lia].
  - discriminate.
Defined.

(** ** A complete live run *)

(** X7 (the summary adds up).  In a live run in which the project, its
    account and at least one task are found, the list of projects is built
    with pairwise distinct ids and the org accepts the updates, [main]
    returns normally.  After building the list it prints the header and
    one line per project, issues one update per move and ends with the
    two summary lines, in which [tasks_moved] is the number of updates
    issued, [tasks_remaining_in_original] is the size of the slice of the
    original project, and the two add up to the number of tasks found. *)
Theorem live_run_summary_adds_up :
  forall (sf : Split.salesforce) (args : Split.arguments) (tape : list nat)
         (original_project : Split.Project.t)
         (more_projects : list Split.Project.t)
         (account_name : string) (more_names : list string)
         (tasks : list Split.Task.t)
         (existing_projects : list Split.Project.t)
         (projects_to_use : list string) (w5 : Split.world),
    Split.dry_run args = false ->
    updates_accepted sf ->
    Split.query_projects sf 0 (Split.original_project_query args)
    = Ok (original_project :: more_projects) ->
    Split.query_names
      sf 1 (Split.account_name_query
              (Split.Project.Account__c original_project))
    = Ok (account_name :: more_names) ->
    Split.query_tasks sf 2 (Split.tasks_query args) = Ok tasks ->
    tasks <> [] ->
    Split.query_projects
      sf 3 (Split.existing_projects_query
              (Split.Project.Account__c original_project))
    = Ok existing_projects ->
    Split.build_projects_to_use
      sf args account_name (Split.Project.Account__c original_project)
      existing_projects
      (before_distribution args original_project account_name tasks tape)
    = (Ok projects_to_use, w5) ->
    NoDup projects_to_use ->
    exists distribution w',
      let moved := length (moves (Split.project_id args) distribution) in
      let remaining :=
        length (PyDict.get_default distribution (Split.project_id args) [])
      in
      Split.main sf args (Split.initial tape) = (Ok tt, w')
      /\ Split.trace w'
         = Split.trace w5
             ++ [Split.Stdout (Split.MsgDistributing
                                 (length tasks) (length projects_to_use))]
             ++ count_events (length tasks / length projects_to_use)
                             (length tasks mod length projects_to_use)
                             0 (length projects_to_use)
             ++ map Split.Sf
                    (map (update_command (Split.org args))
                         (moves (Split.project_id args) distribution))
             ++ [Split.Stdout (Split.MsgDone moved (length projects_to_use));
                 Split.Stdout (Split.MsgSummary
                                 (Split.project_id args)
                                 (length projects_to_use) moved remaining)]
      /\ moved + remaining = length tasks.
Proof.
  intros sf args tape original more_projects account_name more_names tasks
         existing l w5 Hlive Hupd Hproject Hname Htasks Hne Hexisting
         Hbuild Hnd.
  assert (Hl : l <> []).
  { apply build_projects_to_use_head in Hbuild as [others ->]. discriminate. }
  set (w6 := add_events
               w5 [Split.Stdout (Split.MsgDistributing (length tasks)
                                                       (length l))]).
  destruct (partition_tasks_distinct tasks l w6 Hl Hnd)
    as (shuffled & w7 & Hperm & Hrun & _ & Htrace).
  pose proof (Permutation_length Hperm) as Hlen.
  pose proof (assignments_total shuffled l Hl) as [Hlens _].
  cbv zeta in Hlens. rewrite <- Hlen in Hlens.
  set (d := assignments shuffled (length tasks / length l)
                        (length tasks mod length l) 0 l 0) in *.
  assert (Hndk : NoDup (PyDict.keys d))
    by (unfold d, PyDict.keys; now rewrite assignments_keys).
  assert (Hsum : length (moves (Split.project_id args) d)
                 + length (PyDict.get_default d (Split.project_id args) [])
                 = length tasks).
  { pose proof (moves_length (Split.project_id args) d Hndk) as Hm.
    unfold PyDict.values in Hm. rewrite map_map, Hlens in Hm.
    rewrite bucket_count_total in Hm by (apply length_not_nil; exact Hl).
    exact Hm. }
  exists d. eexists. cbv zeta. split; [|split; [|exact Hsum]].
  - unfold Split.main, Split.bind, Split.soql_projects, Split.soql_names,
      Split.soql_tasks, Split.run_sf, Split.initial.
    cbn [Split.commands Split.trace Split.rng].
    rewrite Hproject. cbn [Split.commands Split.trace Split.rng].
    rewrite Hname. unfold Split.print at 1 2, Split.emit.
    cbn [Split.commands Split.trace Split.rng].
    rewrite Htasks.
    replace (length tasks =? 0) with false
      by (symmetry; apply Nat.eqb_neq; now apply length_not_nil).
    cbn [Split.commands Split.trace Split.rng].
    rewrite Hexisting. cbn [app].
    change {| Split.rng := tape; Split.commands := 4;
              Split.trace := _ |}
      with (before_distribution args original account_name tasks tape).
    rewrite Hbuild.
    change (Split.print (Split.MsgDistributing (length tasks) (length l)) w5)
      with (Ok tt, w6).
    unfold Split.distribute, Split.bind. rewrite Hrun.
    unfold Split.move_tasks, PyDict.items.
    rewrite (move_loop_live sf args d Hlive Hupd).
    unfold Split.ret. rewrite Hlive. cbn [negb].
    unfold Split.print, Split.emit. cbn [Split.trace Split.commands
                                         Split.rng issue].
    reflexivity.
  - cbn [Split.trace]. rewrite Htrace. unfold w6, add_events.
    cbn [Split.trace]. rewrite <- !app_assoc. reflexivity.
Qed.

Lemma live_run_summary_adds_up_witness :
  exists distribution w',
    Split.main accepting_org live_args (Split.initial [3; 1; 4; 1; 5])
    = (Ok tt, w')
    /\ length (moves "B0" distribution)
       + length (PyDict.get_default distribution "B0"%string [])
       = 2.
Proof.
  pose (original := {| Split.Project.Id := "B0"%string;
                       Split.Project.Name := "Original"%string;
                       Split.Project.Account__c := "A1"%string |}).
  pose (start := before_distribution live_args original "Acme"
                                     [task_T1; task_T2] [3; 1; 4; 1; 5]).
  pose (built := Split.build_projects_to_use accepting_org live_args
                                             "Acme" "A1" [original] start).
  assert (Hupd : updates_accepted accepting_org) by (intros n s r v; reflexivity).
  assert (Hne : [task_T1; task_T2] <> []) by discriminate.
  assert (Hbuild : built = (Ok ["B0"; "NEW4"; "NEW5"; "NEW6"]%string,
                            snd built))
    by (vm_compute; reflexivity).
  assert (Hnd : NoDup ["B0"; "NEW4"; "NEW5"; "NEW6"]%string).
  { repeat constructor; simpl; intuition discriminate. }
  destruct (live_run_summary_adds_up
              accepting_org live_args [3; 1; 4; 1; 5] original [] "Acme" []
              [task_T1; task_T2] [original]
              ["B0"; "NEW4"; "NEW5"; "NEW6"]%string (snd built)
              eq_refl Hupd eq_refl eq_refl eq_refl Hne eq_refl Hbuild Hnd)
    as (distribution & w' & Hmain & _ & Hsum).
  exists distribution, w'. split; [exact Hmain | exact Hsum].
Defined.

(** * Further properties of [generate_project_tasks.py] *)

(** ** The owner selector over a whole run *)

Lemma william_entry_in_roster (acct : string) (me : Owner.info)
      (kevin : option Owner.info) (w : Owner.info) (remaining : Z) :
  In (Owner.william_entry w)
     (Owner.candidates acct me kevin (Some w) remaining) ->
  Owner.account_id w = Some acct /\ (0 < remaining)%Z.
Proof.
  intro Hin. rewrite candidates_split in Hin.
  apply in_app_or in Hin as [Hin|Hin].
  - exfalso. now apply (base_candidate_not_william me kevin _ w Hin).
  - simpl in Hin.
    destruct (opt_str_eqb (Owner.account_id w) (Some acct)) eqn:Hacct;
      [|destruct Hin].
    destruct (0 <? remaining)%Z eqn:Hrem; [|destruct Hin].
    apply opt_str_eqb_eq in Hacct. apply Z.ltb_lt in Hrem. auto.
Qed.

Lemma counted_william_entry (w : Owner.info) :
  counted_for_william w (Owner.william_entry w) = true.
Proof. unfold counted_for_william. simpl. now apply opt_str_eqb_eq. Qed.

(** One call, when nobody else on the roster has William's user id: the
    pick is counted exactly when it is William's entry, and then the call
    was for William's account with a positive counter. *)
Lemma pick_owner_counted (acct : string) (me : Owner.info)
      (kevin : option Owner.info) (w : Owner.info) (remaining : Z)
      (u : float) (c : Owner.candidate) (remaining' : Z) :
  Owner.user_id me <> Owner.user_id w ->
  (forall k, kevin = Some k -> Owner.user_id k <> Owner.user_id w) ->
  Owner.pick_owner acct me kevin (Some w) remaining u = Ok (c, remaining') ->
  (counted_for_william w c = true /\ c = Owner.william_entry w
   /\ Owner.account_id w = Some acct
   /\ remaining' = (remaining - 1)%Z /\ (0 < remaining)%Z)
  \/ (counted_for_william w c = false /\ c <> Owner.william_entry w
      /\ remaining' = remaining).
Proof.
  intros Hme Hkevin Hp.
  pose proof (pick_owner_inv _ _ _ _ _ _ _ _ Hp) as [Hin Hr].
  destruct (pick_owner_quota_distinct_users _ _ _ _ _ _ _ _ Hme Hkevin Hp)
    as [(-> & -> & Hlt)|(Hneq & ->)].
  - left. apply william_entry_in_roster in Hin as [Hacct _].
    rewrite counted_william_entry. auto.
  - right. simpl in Hr. unfold counted_for_william.
    destruct (opt_str_eqb _ _); [lia|auto].
Qed.

(** X8 (William's quota over a run).  When neither the current user nor
    Kevin has William's user id and the quota starts at [N >= 0], a run of
    calls of [pick_owner] never fails and returns one pick per call; the
    counter ends at [N] minus the number of picks of William's entry and
    never drops below 0, so William is picked at most [N] times, and each
    of his picks is for his own account. *)
Theorem william_picks_within_quota :
  forall (me : Owner.info) (kevin : option Owner.info) (w : Owner.info)
         (calls : list (string * float)) (N : Z),
    Owner.user_id me <> Owner.user_id w ->
    (forall k, kevin = Some k -> Owner.user_id k <> Owner.user_id w) ->
    (0 <= N)%Z ->
    exists picked final,
      Owner.run_picks me kevin (Some w) calls N = Ok (picked, final)
      /\ length picked = length calls
      /\ final = (N - Z.of_nat (length (william_picks w calls picked)))%Z
      /\ (0 <= final)%Z
      /\ (forall c, In c picked ->
                    (c = Owner.william_entry w
                     <-> counted_for_william w c = true))
      /\ Forall (fun p => snd p = Owner.william_entry w
                          /\ Owner.account_id w = Some (fst (fst p)))
                (william_picks w calls picked).
Proof.
  intros me kevin w calls N Hme Hkevin. revert N.
  induction calls as [|[acct u] calls IH]; intros N HN.
  - exists [], N. cbn. repeat split; try lia; try constructor;
      intros; contradiction.
  - destruct (pick_owner_total me kevin acct (Some w) N u) as (c & r' & Hp).
    cbn [Owner.run_picks]. rewrite Hp.
    destruct (pick_owner_counted _ _ _ _ _ _ _ _ Hme Hkevin Hp)
      as [(Hc & -> & Hacct & -> & Hlt)|(Hc & Hneq & ->)].
    + destruct (IH (N - 1)%Z) as (picked & final & Hrun & Hlen & Hfin & Hpos
                                  & Hiff & Hall); [lia|].
      rewrite Hrun. exists (Owner.william_entry w :: picked), final.
      unfold william_picks in *. cbn [combine filter snd length].
      rewrite Hc. cbn [length].
      split; [reflexivity|]. split; [lia|]. split; [lia|].
      split; [exact Hpos|]. split.
      * intros c [<-|Hin]; [|now apply Hiff].
        split; intro; [apply counted_william_entry|reflexivity].
      * constructor; [split; [reflexivity|exact Hacct]|exact Hall].
    + destruct (IH N) as (picked & final & Hrun & Hlen & Hfin & Hpos
                          & Hiff & Hall); [lia|].
      rewrite Hrun. exists (c :: picked), final.
      unfold william_picks in *. cbn [combine filter snd length].
      rewrite Hc.
      split; [reflexivity|]. split; [lia|]. split; [exact Hfin|].
      split; [exact Hpos|]. split.
      * intros c' [<-|Hin]; [|now apply Hiff].
        split; intro; [contradiction|congruence].
      * exact Hall.
Qed.

(** A quota of 1 and four calls, three of them for William's account:
    the first pick is William's, the counter ends at 0. *)
Lemma william_picks_within_quota_witness :
  let me := {| Owner.user_id := Some "U1"%string; Owner.contact_id := None;
               Owner.account_id := None |} in
  let kevin := {| Owner.user_id := Some "U2"%string;
                  Owner.contact_id := Some "C2"%string;
                  Owner.account_id := Some "A2"%string |} in
  let w := {| Owner.user_id := Some "U3"%string;
              Owner.contact_id := Some "C3"%string;
              Owner.account_id := Some "A1"%string |} in
  let calls := [("A1"%string, 0.99%float); ("A1"%string, 0.2%float);
                ("A2"%string, 0.99%float); ("A1"%string, 0.95%float)] in
  exists picked final,
    Owner.run_picks me (Some kevin) (Some w) calls 1 = Ok (picked, final)
    /\ length picked = 4
    /\ final = (1 - Z.of_nat (length (william_picks w calls picked)))%Z
    /\ (0 <= final)%Z.
Proof.
  intros me kevin w calls.
  assert (Hme : Owner.user_id me <> Owner.user_id w) by discriminate.
  assert (Hkevin : forall k, Some kevin = Some k ->
                             Owner.user_id k <> Owner.user_id w).
  { intros k Hk. injection Hk as <-. discriminate. }
  assert (HN : (0 <= 1)%Z) by lia.
  destruct (william_picks_within_quota me (Some kevin) w calls 1
                                       Hme Hkevin HN)
    as (picked & final & Hrun & Hlen & Hfin & Hpos & _).
  exists picked, final. auto.
Defined.

(** X9 (a call always picks somebody).  Whatever the infos, the counter
    and the variate (even one outside [0, 1)), [pick_owner] does not
    raise: the weights it hands to [random.choices] are always accepted.
    The pick is the current user, Kevin when he was found, or William
    when the call is for his account with a positive counter, and the
    counter is left as it was or decremented by 1. *)
Theorem pick_owner_never_raises :
  forall (acct : string) (me : Owner.info) (kevin william : option Owner.info)
         (remaining : Z) (u : float),
  exists c remaining',
    Owner.pick_owner acct me kevin william remaining u = Ok (c, remaining')
    /\ In c (Owner.candidates acct me kevin william remaining)
    /\ (c = {| Owner.weight := 0.55; Owner.owner := me |}
        \/ (exists k, kevin = Some k
                      /\ c = {| Owner.weight := 0.35; Owner.owner := k |})
        \/ (exists w, william = Some w
                      /\ c = Owner.william_entry w
                      /\ Owner.account_id w = Some acct
                      /\ (0 < remaining)%Z))
    /\ (remaining' = remaining \/ remaining' = (remaining - 1)%Z).
Proof.
  intros acct me kevin william remaining u.
  destruct (pick_owner_total me kevin acct william remaining u)
    as (c & r' & Hp).
  exists c, r'. split; [exact Hp|].
  pose proof (pick_owner_inv _ _ _ _ _ _ _ _ Hp) as [Hin Hr].
  split; [exact Hin|]. split.
  - rewrite candidates_split in Hin. apply in_app_or in Hin as [Hin|Hin].
    + unfold Owner.base_candidates in Hin.
      destruct kevin as [k|]; simpl in Hin.
      * destruct Hin as [<-|[<-|[]]]; [left; reflexivity|].
        right. left. exists k. auto.
      * destruct Hin as [<-|[]]. left. reflexivity.
    + destruct william as [w|]; [|destruct Hin].
      right. right. exists w.
      assert (Hw : c = Owner.william_entry w).
      { destruct (Owner.william_eligible acct (Some w) remaining);
          [|destruct Hin].
        destruct Hin as [<-|[]]. reflexivity. }
      subst c. split; [reflexivity|]. split; [reflexivity|].
      apply (william_entry_in_roster acct me kevin).
      rewrite candidates_split. apply in_or_app. right. exact Hin.
  - rewrite Hr. destruct (opt_str_eqb _ _); auto.
Qed.

(** ** The random draws of the seeding script *)
Section SeedRandomFacts.

Import Generate.

Lemma quiet_refl (w : world) : quiet w w.
Proof. split; reflexivity. Qed.

Lemma quiet_trans (w1 w2 w3 : world) : quiet w1 w2 -> quiet w2 w3 -> quiet w1 w3.
Proof. intros [H1 H2] [H3 H4]. split; congruence. Qed.

Lemma split_randbelow_lt (n : nat) (sw : Split.world) :
  0 < n -> exists j, fst (Split.randbelow n sw) = Ok j /\ j < n.
Proof.
  intro Hn. unfold Split.randbelow. destruct (Split.rng sw) as [|d rest].
  - exists 0. auto.
  - exists (d mod n). split; [reflexivity|]. apply Nat.mod_upper_bound. lia.
Qed.

Lemma random_quiet {A : Type} (c : Split.M A) (w : world) :
  quiet w (snd (random c w)).
Proof.
  unfold random. destruct (c (Split.initial (draws w))).
  split; reflexivity.
Qed.

Lemma random_randbelow_run (n : nat) (w : world) :
  0 < n ->
  exists j w',
    random (Split.randbelow n) w = (Ok j, w') /\ j < n /\ quiet w w'.
Proof.
  intro Hn.
  destruct (split_randbelow_lt n (Split.initial (draws w)) Hn)
    as (j & Hj & Hlt).
  pose proof (random_quiet (Split.randbelow n) w) as Hq.
  unfold random in *.
  destruct (Split.randbelow n (Split.initial (draws w))) as [r after].
  simpl in Hj. subst r. eauto.
Qed.

Lemma random_choice_run {A : Type} (seq : list A) (w : world) :
  seq <> [] ->
  exists a w',
    random (Split.random_choice seq) w = (Ok a, w')
    /\ In a seq /\ quiet w w'.
Proof.
  intro Hne. destruct seq as [|a0 rest]; [contradiction|].
  assert (Hn : 0 < length (a0 :: rest)) by (simpl; lia).
  destruct (split_randbelow_lt _ (Split.initial (draws w)) Hn)
    as (j & Hj & Hlt).
  pose proof (random_quiet (Split.random_choice (a0 :: rest)) w) as Hq.
  unfold random, Split.random_choice, Split.bind, Split.ret in *.
  destruct (Split.randbelow (length (a0 :: rest))
                            (Split.initial (draws w))) as [r after].
  simpl in Hj. subst r.
  eexists. eexists. split; [reflexivity|]. split; [|exact Hq].
  apply nth_In. exact Hlt.
Qed.

Lemma random_shuffle_keeps {A : Type} (x : list A) (w : world) :
  exists x' w',
    random (Split.random_shuffle x) w = (Ok x', w')
    /\ Permutation x x' /\ quiet w w'.
Proof.
  destruct (random_shuffle_run x (Split.initial (draws w)))
    as (x' & after & Hrun & Hperm & _).
  pose proof (random_quiet (Split.random_shuffle x) w) as Hq.
  unfold random in *. rewrite Hrun in *. eauto.
Qed.

(** [randint(a, b)] on a non-empty range returns a number of the range. *)
Lemma randint_run (a b : Z) (w : world) :
  (a <= b)%Z ->
  exists n w',
    randint a b w = (Ok n, w') /\ (a <= n <= b)%Z /\ quiet w w'.
Proof.
  intro Hab. unfold randint.
  replace (b + 1 - a <=? 0)%Z with false by (symmetry; apply Z.leb_gt; lia).
  destruct (random_randbelow_run (Z.to_nat (b + 1 - a)) w)
    as (j & w' & Hrun & Hlt & Hq); [lia|].
  unfold bind. rewrite Hrun. unfold ret.
  exists (a + Z.of_nat j)%Z, w'. split; [reflexivity|]. split; [lia|exact Hq].
Qed.

(** [randint(a, b)] on an empty range. *)
Lemma randint_empty (a b : Z) (w : world) :
  (b < a)%Z -> randint a b w = (Raise ValueError, w).
Proof.
  intro Hab. unfold randint.
  replace (b + 1 - a <=? 0)%Z with true by (symmetry; apply Z.leb_le; lia).
  reflexivity.
Qed.

End SeedRandomFacts.

(** ** The statuses of the tasks to create *)

(** The list comprehension of lines 281-283: one member of [STATUSES]
    per round. *)
Lemma more_statuses_run (rounds : list nat) :
  forall (more : list string) (w : Generate.world),
  exists added w',
    Generate.for_each
      rounds
      (fun _ more =>
         Generate.bind
           (Generate.random (Split.random_choice Generate.STATUSES))
           (fun status => Generate.ret (more ++ [status])))
      more w
    = (Ok (more ++ added), w')
    /\ length added = length rounds
    /\ Forall (fun s => In s Generate.STATUSES) added
    /\ quiet w w'.
Proof.
  induction rounds as [|r rounds IH]; intros more w.
  - exists [], w. cbn. unfold Generate.ret. rewrite app_nil_r.
    repeat split; constructor.
  - cbn [Generate.for_each]. unfold Generate.bind at 1 2.
    destruct (random_choice_run Generate.STATUSES w)
      as (s & w1 & Hrun & Hin & Hq1); [discriminate|].
    rewrite Hrun. unfold Generate.ret at 1.
    destruct (IH (more ++ [s]) w1) as (added & w' & Hloop & Hlen & Hall & Hq).
    rewrite Hloop. exists (s :: added), w'.
    rewrite <- app_assoc. split; [reflexivity|].
    split; [simpl; lia|]. split; [constructor; assumption|].
    eapply quiet_trans; eassumption.
Qed.

(** X10 (the statuses of an account's tasks).  When [--min <= --max] (as
    the check of line 204 ensures), the list [tasks_to_create] of lines
    278-283 is always built: [randint] does not raise and [total_tasks]
    lies between [--min] and [--max]; the list starts with the eight
    statuses in some order, continues with [total_tasks - 8] statuses
    picked from [STATUSES], and so has [max(total_tasks, 8)] entries, eight
    of them even when [--max] is below 8.  No command is issued and
    nothing is printed. *)
Theorem tasks_to_create_covers_statuses :
  forall (args : Generate.arguments) (w : Generate.world),
    (Generate.min_tasks args <= Generate.max_tasks args)%Z ->
    exists total_tasks statuses w',
      Generate.tasks_to_create args w = (Ok statuses, w')
      /\ (Generate.min_tasks args <= total_tasks <= Generate.max_tasks args)%Z
      /\ length statuses = Nat.max (Z.to_nat total_tasks) 8
      /\ Permutation Generate.STATUSES (firstn 8 statuses)
      /\ Forall (fun s => In s Generate.STATUSES) statuses
      /\ (forall s, In s Generate.STATUSES -> In s statuses)
      /\ quiet w w'.
Proof.
  intros args w Hle. unfold Generate.tasks_to_create.
  destruct (randint_run _ _ w Hle) as (total & w1 & Hrand & Hrange & Hq1).
  unfold Generate.bind at 1. rewrite Hrand.
  destruct (random_shuffle_keeps Generate.STATUSES w1)
    as (shuffled & w2 & Hshuf & Hperm & Hq2).
  unfold Generate.bind at 1. rewrite Hshuf.
  destruct (more_statuses_run
              (seq 0 (Z.to_nat (total - Z.of_nat (length Generate.STATUSES))))
              [] w2) as (more & w' & Hloop & Hlen & Hall & Hq3).
  unfold Generate.bind at 1. rewrite Hloop. unfold Generate.ret.
  cbn [app].
  pose proof (Permutation_length Hperm) as Hlen8.
  change (length Generate.STATUSES) with 8 in *.
  rewrite length_seq in Hlen.
  exists total, (shuffled ++ more), w'.
  split; [reflexivity|]. split; [exact Hrange|].
  split; [rewrite length_app; lia|].
  split.
  { rewrite firstn_app. replace (8 - length shuffled) with 0 by lia.
    rewrite firstn_O, app_nil_r, firstn_all2 by lia. exact Hperm. }
  split.
  { apply Forall_app. split; [|exact Hall].
    apply Forall_forall. intros s Hs.
    eapply Permutation_in; [apply Permutation_sym; exact Hperm|exact Hs]. }
  split.
  { intros s Hs. apply in_or_app. left.
    eapply Permutation_in; [exact Hperm|exact Hs]. }
  eapply quiet_trans; [exact Hq1|].
  eapply quiet_trans; [exact Hq2|exact Hq3].
Qed.

(** The default range 10-20. *)
Lemma tasks_to_create_covers_statuses_witness :
  exists total_tasks statuses w',
    Generate.tasks_to_create seed_args (Generate.initial [3; 1; 4; 1; 5] [])
    = (Ok statuses, w')
    /\ (10 <= total_tasks <= 20)%Z
    /\ length statuses = Nat.max (Z.to_nat total_tasks) 8
    /\ forall s, In s Generate.STATUSES -> In s statuses.
Proof.
  assert (Hle : (Generate.min_tasks seed_args
                 <= Generate.max_tasks seed_args)%Z)
    by (vm_compute; discriminate).
  destruct (tasks_to_create_covers_statuses
              seed_args (Generate.initial [3; 1; 4; 1; 5] []) Hle)
    as (total & statuses & w' & Hrun & Hrange & Hlen & _ & _ & Hall & _).
  exists total, statuses, w'. auto.
Defined.

(** ** The payload of a task *)

Lemma generate_task_payload_run (sf : Generate.salesforce)
      (account : Generate.Account.t) (project_id status : string)
      (developer_id : option string) (name_suffix : string)
      (w : Generate.world) :
  exists start_days due_days priority w',
    Generate.generate_task_payload sf account project_id status
                                   developer_id name_suffix w
    = (Ok (task_fields sf account project_id status developer_id
                       name_suffix start_days due_days priority), w')
    /\ (-3 <= start_days <= 10)%Z
    /\ (3 <= due_days <= 45)%Z
    /\ In priority Generate.PRIORITIES
    /\ quiet w w'.
Proof.
  unfold Generate.generate_task_payload.
  destruct (randint_run 3 45 w) as (due & w1 & Hdue & Hdr & Hq1); [lia|].
  unfold Generate.bind at 1. rewrite Hdue.
  destruct (randint_run (-3) 10 w1) as (start & w2 & Hstart & Hsr & Hq2);
    [lia|].
  unfold Generate.bind at 1. rewrite Hstart.
  destruct (random_choice_run Generate.PRIORITIES w2)
    as (priority & w' & Hprio & Hin & Hq3); [discriminate|].
  unfold Generate.bind at 1. rewrite Hprio.
  assert (Hq : quiet w w').
  { eapply quiet_trans; [exact Hq1|].
    eapply quiet_trans; [exact Hq2|exact Hq3]. }
  exists start, due, priority, w'. unfold task_fields.
  split; [|auto].
  destruct (Generate.when_truthy developer_id); reflexivity.
Qed.

(** X11 (payload of a task).  [generate_task_payload] never raises, issues
    no command and prints nothing.  The payload has the eight fields of
    the literal, in which the status, the project and the account are the
    arguments, the priority is one of [PRIORITIES], the start date is
    between 3 days before and 10 days after today and the due date
    between 3 and 45 days after today (so the due date is never more than
    7 days before the start date); the field [Developer__c] is present
    exactly when [developer_id] is a non-empty string, and then it is that
    string. *)
Theorem generate_task_payload_fields :
  forall (sf : Generate.salesforce) (account : Generate.Account.t)
         (project_id status : string) (developer_id : option string)
         (name_suffix : string) (w : Generate.world),
  exists start_days due_days priority payload w',
    Generate.generate_task_payload sf account project_id status
                                   developer_id name_suffix w
    = (Ok payload, w')
    /\ (-3 <= start_days <= 10)%Z
    /\ (3 <= due_days <= 45)%Z
    /\ (-7 <= due_days - start_days)%Z
    /\ In priority Generate.PRIORITIES
    /\ PyDict.keys payload
       = ["Name"; "Account__c"; "Project__c"; "Status__c"; "Priority__c";
          "Start_Date__c"; "Due_Date__c"; "Description__c"]%string
           ++ (if Generate.truthy developer_id
               then ["Developer__c"%string] else [])
    /\ PyDict.get payload "Name"
       = Some (Generate.Account.Name account ++ " Task " ++ name_suffix)%string
    /\ PyDict.get payload "Account__c" = Some (Generate.Account.Id account)
    /\ PyDict.get payload "Project__c" = Some project_id
    /\ PyDict.get payload "Status__c" = Some status
    /\ PyDict.get payload "Priority__c" = Some priority
    /\ PyDict.get payload "Start_Date__c"
       = Some (Generate.isoformat sf (Generate.today sf + start_days)%Z)
    /\ PyDict.get payload "Due_Date__c"
       = Some (Generate.isoformat sf (Generate.today sf + due_days)%Z)
    /\ PyDict.get payload "Developer__c" = Generate.when_truthy developer_id
    /\ quiet w w'.
Proof.
  intros sf account project_id status developer_id name_suffix w.
  destruct (generate_task_payload_run sf account project_id status
                                      developer_id name_suffix w)
    as (start & due & priority & w' & Hrun & Hsr & Hdr & Hin & Hq).
  exists start, due, priority.
  eexists. exists w'. split; [exact Hrun|].
  unfold task_fields, Generate.when_truthy.
  destruct (Generate.truthy developer_id) eqn:Htruthy.
  - destruct developer_id as [id|]; [|discriminate Htruthy].
    repeat (split; [first [assumption | lia | reflexivity]|]). exact Hq.
  - repeat (split; [first [assumption | lia | reflexivity]|]). exact Hq.
Qed.

(** ** A project for every account *)
Section SeedProjectFacts.

Import Generate.

Lemma seed_for_each_steps {X St : Type}
      (I : list X -> St -> world -> Prop) (body : X -> St -> M St) :
  (forall done x s w s' w',
      I done s w -> body x s w = (Ok s', w') -> I (done ++ [x]) s' w') ->
  forall xs done s w s' w',
    I done s w ->
    for_each xs body s w = (Ok s', w') ->
    I (done ++ xs) s' w'.
Proof.
  intros Hstep.
  induction xs as [|x xs IH]; intros done s w s' w' HI Hrun.
  - cbn in Hrun. unfold ret in Hrun. injection Hrun as <- <-.
    now rewrite app_nil_r.
  - cbn [for_each] in Hrun. unfold bind in Hrun.
    destruct (body x s w) as [[s1|e] w1] eqn:Hbody; [|discriminate Hrun].
    replace (done ++ x :: xs) with ((done ++ [x]) ++ xs)
      by (rewrite <- app_assoc; reflexivity).
    eapply IH; [|exact Hrun]. eapply Hstep; eassumption.
Qed.

Lemma seed_for_each_total {X St : Type} (body : X -> St -> M St) :
  (forall x s w, exists s' w', body x s w = (Ok s', w')) ->
  forall xs s w, exists s' w', for_each xs body s w = (Ok s', w').
Proof.
  intros Hbody. induction xs as [|x xs IH]; intros s w.
  - exists s, w. reflexivity.
  - cbn [for_each]. unfold bind.
    destruct (Hbody x s w) as (s1 & w1 & ->). apply IH.
Qed.

Lemma dict_get_none {V : Type} (d : PyDict.t V) (k : string) :
  PyDict.get d k = None <-> ~ In k (PyDict.keys d).
Proof.
  induction d as [|[k' v'] d IH]; cbn [PyDict.get PyDict.keys map fst In].
  - tauto.
  - destruct (String.eqb k' k) eqn:E.
    + apply String.eqb_eq in E. split; [discriminate|tauto].
    + apply String.eqb_neq in E. unfold PyDict.keys in IH. tauto.
Qed.

Lemma dict_set_present {V : Type} (d : PyDict.t V) (k : string) (v : V) :
  In k (PyDict.keys d) -> PyDict.keys (PyDict.set d k v) = PyDict.keys d.
Proof.
  induction d as [|[k' v'] d IH]; cbn [PyDict.set PyDict.keys map fst In].
  - contradiction.
  - destruct (String.eqb k' k) eqn:E.
    + apply String.eqb_eq in E. subst k'. reflexivity.
    + apply String.eqb_neq in E. intros [Heq|Hin]; [contradiction|].
      cbn [map fst]. f_equal. apply IH. exact Hin.
Qed.

Lemma dict_set_keys_nodup {V : Type} (d : PyDict.t V) (k : string) (v : V) :
  NoDup (PyDict.keys d) -> NoDup (PyDict.keys (PyDict.set d k v)).
Proof.
  intro Hnd. destruct (in_dec string_dec k (PyDict.keys d)) as [Hin|Hout].
  - now rewrite dict_set_present.
  - rewrite dict_set_fresh by exact Hout. unfold PyDict.keys in *.
    rewrite map_app. cbn [map fst].
    apply NoDup_app; [exact Hnd|repeat constructor; intros []|].
    intros x Hx [<-|[]]. contradiction.
Qed.

Lemma dict_get_app_none {V : Type} (d1 d2 : PyDict.t V) (k : string) :
  PyDict.get (d1 ++ d2) k = None -> PyDict.get d1 k = None.
Proof.
  rewrite !dict_get_none. unfold PyDict.keys. rewrite map_app.
  intros H Hin. apply H, in_or_app. now left.
Qed.

Lemma grouped_set (d : PyDict.t (list Project.t)) (k : string)
      (v : list Project.t) :
  grouped d -> v <> [] -> grouped (PyDict.set d k v).
Proof.
  intros [Hnd Hne] Hv. split; [now apply dict_set_keys_nodup|].
  intros b s Hin. apply dict_set_In in Hin as [Heq|Hin].
  - injection Heq as -> ->. exact Hv.
  - eapply Hne. exact Hin.
Qed.

Lemma group_projects_grouped (projects : list Project.t) :
  grouped (group_projects projects).
Proof.
  unfold group_projects.
  assert (H0 : grouped (@PyDict.empty (list Project.t))).
  { split; [constructor|intros k v []]. }
  revert H0. generalize (@PyDict.empty (list Project.t)).
  induction projects as [|proj projects IH]; intros d Hd; cbn [fold_left].
  - exact Hd.
  - apply IH. destruct (when_truthy (Project.Account__c proj)) as [acct|];
      [|exact Hd].
    apply grouped_set; [exact Hd|]. intro H.
    apply app_eq_nil in H as [_ H]. discriminate H.
Qed.

Lemma grouped_get_default (d : PyDict.t (list Project.t)) (k : string) :
  grouped d -> PyDict.get d k <> None -> PyDict.get_default d k [] <> [].
Proof.
  intros [_ Hne] Hget. unfold PyDict.get_default.
  destruct (PyDict.get d k) as [v|] eqn:E; [|contradiction].
  apply dict_get_In in E. eapply Hne. exact E.
Qed.

End SeedProjectFacts.

Section SeedProjectLoop.

Import Generate.

Variable sf : salesforce.
Variable args : arguments.
Variable projects : list Project.t.

Lemma project_added_more (done : list Account.t) (acct : Account.t)
      (entry : string * list Project.t) :
  project_added done projects entry ->
  project_added (done ++ [acct]) projects entry.
Proof.
  intros (a & p & Hin & H). exists a, p. split; [|exact H].
  apply in_or_app. now left.
Qed.

Lemma records_created_app (tr1 tr2 : list event) :
  records_created (tr1 ++ tr2) = records_created tr1 + records_created tr2.
Proof. unfold records_created. now rewrite filter_app, length_app. Qed.

Lemma create_missing_project_step (w : world) (done : list Account.t)
      (acct : Account.t) (vars : PyDict.t (list Project.t) * nat)
      (w1 : world) (vars' : PyDict.t (list Project.t) * nat) (w' : world) :
  projects_invariant args projects w done vars w1 ->
  create_missing_project sf args acct vars w1 = (Ok vars', w') ->
  projects_invariant args projects w (done ++ [acct]) vars' w'.
Proof.
  intros (added & Hd & Hadded & Hn & Hcount & Hgrouped & Hdone) Hrun.
  destruct vars as [d n]. cbn [fst snd] in *.
  unfold create_missing_project in Hrun.
  destruct (PyDict.get d (Account.Id acct)) as [l|] eqn:Hget.
  - unfold ret in Hrun. injection Hrun as <- <-.
    exists added. cbn [fst snd]. repeat split; try assumption.
    + eapply Forall_impl; [|exact Hadded]. intro. apply project_added_more.
    + apply Hgrouped.
    + apply Hgrouped.
    + intros a Ha. apply in_app_or in Ha as [Ha|[<-|[]]]; [now apply Hdone|].
      rewrite Hget. discriminate.
  - pose proof Hget as Hfresh. apply dict_get_none in Hfresh.
    assert (Hnone : PyDict.get (group_projects projects) (Account.Id acct)
                    = None).
    { apply (dict_get_app_none _ added). now rewrite <- Hd. }
    unfold bind at 1 in Hrun.
    destruct (random_choice_run PROJECT_STATUSES w1)
      as (status & w2 & Hchoice & _ & Hq1 & Hq2); [discriminate|].
    rewrite Hchoice in Hrun.
    assert (Hstep :
              forall project_id d',
                d' = PyDict.set d (Account.Id acct)
                       [ {| Project.Id := project_id;
                            Project.Name :=
                              (Account.Name acct ++ " Project - "
                                 ++ strftime_Ymd sf (today sf))%string;
                            Project.Account__c := Some (Account.Id acct) |} ]
                ->
                exists added',
                  d' = group_projects projects ++ added'
                  /\ Forall (project_added (done ++ [acct]) projects) added'
                  /\ length added' = S (length added)
                  /\ grouped d'
                  /\ forall a, In a (done ++ [acct]) ->
                               PyDict.get d' (Account.Id a) <> None).
    { intros project_id d' ->.
      exists (added ++ [(Account.Id acct,
                         [ {| Project.Id := project_id;
                              Project.Name :=
                                (Account.Name acct ++ " Project - "
                                   ++ strftime_Ymd sf (today sf))%string;
                              Project.Account__c :=
                                Some (Account.Id acct) |} ])]).
      split; [rewrite dict_set_fresh by exact Hfresh;
              rewrite Hd, <- app_assoc; reflexivity|].
      split.
      { apply Forall_app. split.
        - eapply Forall_impl; [|exact Hadded]. intro.
          apply project_added_more.
        - constructor; [|constructor].
          eexists acct, _. split; [apply in_or_app; right; now left|].
          cbn [fst snd]. auto. }
      split; [rewrite length_app; simpl; lia|].
      split; [apply grouped_set; [exact Hgrouped|discriminate]|].
      intros a Ha. apply in_app_or in Ha as [Ha|[<-|[]]].
      - destruct (string_dec (Account.Id acct) (Account.Id a)) as [E|E].
        + rewrite <- E, dict_get_set_same. discriminate.
        + rewrite dict_get_set_other by exact E. now apply Hdone.
      - rewrite dict_get_set_same. discriminate. }
    destruct (dry_run args) eqn:Hdry.
    + unfold bind, print, emit, ret in Hrun. injection Hrun as <- <-.
      destruct (Hstep ("DRYPROJ" ++ last6 (Account.Id acct))%string _ eq_refl)
        as (added' & Hd' & Hall' & Hlen' & Hg' & Hdone').
      exists added'. cbn [fst snd trace]. rewrite Hdry.
      split; [exact Hd'|]. split; [exact Hall'|]. split; [exact Hn|].
      split; [|split; [exact Hg'|exact Hdone']].
      rewrite records_created_app, Hq2, Hcount, Hn. cbn. lia.
    + unfold bind at 1 in Hrun. unfold create_record, run_sf in Hrun.
      destruct (created_id sf (commands w2) _ _) as [project_id|e];
        [|discriminate Hrun].
      unfold bind, print, emit, ret in Hrun. cbn [trace] in Hrun.
      injection Hrun as <- <-.
      destruct (Hstep project_id _ eq_refl)
        as (added' & Hd' & Hall' & Hlen' & Hg' & Hdone').
      exists added'. cbn [fst snd trace]. rewrite Hdry.
      split; [exact Hd'|]. split; [exact Hall'|].
      split; [rewrite Hn, Hlen'; reflexivity|].
      split; [|split; [exact Hg'|exact Hdone']].
      rewrite !records_created_app, Hq2, Hcount. cbn. lia.
Qed.

Lemma create_missing_project_total (acct : Account.t)
      (vars : PyDict.t (list Project.t) * nat) (w : world) :
  dry_run args = true \/ creates_accepted sf ->
  exists vars' w', create_missing_project sf args acct vars w = (Ok vars', w').
Proof.
  intro Hok. destruct vars as [d n]. unfold create_missing_project.
  destruct (PyDict.get d (Account.Id acct)); [unfold ret; eauto|].
  unfold bind at 1.
  destruct (random_choice_run PROJECT_STATUSES w)
    as (status & w1 & -> & _); [discriminate|].
  destruct (dry_run args) eqn:Hdry.
  - unfold bind, print, emit, ret. eauto.
  - destruct Hok as [Hdry'|Hacc]; [discriminate Hdry'|].
    unfold bind at 1. unfold create_record, run_sf.
    destruct (Hacc (commands w1) "Project__c"%string
                   [("Name",
                     Account.Name acct ++ " Project - "
                       ++ strftime_Ymd sf (today sf));
                    ("Account__c", Account.Id acct);
                    ("Status__c", status)]%string) as [project_id ->].
    unfold bind, print, emit, ret. eauto.
Qed.

Lemma choose_project_run (d : PyDict.t (list Project.t)) (acct : Account.t)
      (w : world) :
  PyDict.get_default d (Account.Id acct) [] <> [] ->
  exists project w',
    choose_project d acct w = (Ok (Some (Project.Id project)), w')
    /\ In project (PyDict.get_default d (Account.Id acct) [])
    /\ quiet w w'.
Proof.
  intro Hne. unfold choose_project.
  destruct (PyDict.get_default d (Account.Id acct) []) as [|p ps] eqn:E;
    [contradiction|].
  destruct (random_choice_run (p :: ps) w) as (project & w' & Hrun & Hin & Hq);
    [discriminate|].
  unfold bind. rewrite Hrun. unfold ret. eauto.
Qed.

End SeedProjectLoop.

(** X12 (no account is left without a project).  The loop of lines
    245-262 returns whenever the run is a dry run or the org accepts the
    create commands.  When it returns, [projects_by_account] is the
    grouping of the projects found, unchanged, followed by one entry with
    one new project for each account of the list that had none;
    [projects_created] is the number of create commands issued, none in a
    dry run; and every account of the list has a non-empty list of
    projects, so that lines 272-276 never print the warning nor skip the
    account: they pick one of its projects. *)
Theorem every_account_gets_a_project :
  forall (sf : Generate.salesforce) (args : Generate.arguments)
         (accounts : list Generate.Account.t)
         (projects : list Generate.Project.t) (w : Generate.world),
    (Generate.dry_run args = true \/ creates_accepted sf ->
     exists projects_by_account projects_created w',
       Generate.create_missing_projects sf args accounts projects w
       = (Ok (projects_by_account, projects_created), w'))
    /\ forall projects_by_account projects_created w',
        Generate.create_missing_projects sf args accounts projects w
        = (Ok (projects_by_account, projects_created), w') ->
        (exists added,
            projects_by_account = Generate.group_projects projects ++ added
            /\ Forall (project_added accounts projects) added
            /\ projects_created
               = if Generate.dry_run args then 0 else length added)
        /\ records_created (Generate.trace w')
           = records_created (Generate.trace w) + projects_created
        /\ forall acct,
            In acct accounts ->
            forall w0,
            exists project w1,
              Generate.choose_project projects_by_account acct w0
              = (Ok (Some (Generate.Project.Id project)), w1)
              /\ In project
                    (PyDict.get_default projects_by_account
                                        (Generate.Account.Id acct) [])
              /\ quiet w0 w1.
Proof.
  intros sf args accounts projects w. split.
  - intro Hok. unfold Generate.create_missing_projects.
    destruct (seed_for_each_total
                (Generate.create_missing_project sf args)
                (fun acct vars w =>
                   create_missing_project_total sf args acct vars w Hok)
                accounts (Generate.group_projects projects, 0) w)
      as ([d n] & w' & Hrun).
    eauto.
  - intros d n w' Hrun. unfold Generate.create_missing_projects in Hrun.
    assert (Hinv : projects_invariant args projects w accounts (d, n) w').
    { refine (seed_for_each_steps
                (projects_invariant args projects w) _ _
                accounts [] _ w _ _ _ Hrun).
      - intros done x s w1 s' w2.
        apply create_missing_project_step.
      - exists []. cbn [fst snd]. rewrite app_nil_r.
        split; [reflexivity|]. split; [constructor|].
        split; [destruct (Generate.dry_run args); reflexivity|].
        split; [lia|]. split; [apply group_projects_grouped|].
        intros acct []. }
    destruct Hinv as (added & Hd & Hadded & Hn & Hcount & Hgrouped & Hdone).
    cbn [fst snd] in *.
    split; [exists added; auto|]. split; [exact Hcount|].
    intros acct Hin w0. apply choose_project_run.
    apply grouped_get_default; [exact Hgrouped|]. now apply Hdone.
Qed.

(** ** The tasks of an account *)
Section SeedTaskFacts.

Import Generate.

Variable sf : salesforce.
Variable args : arguments.
Variable acct : Account.t.
Variable project_id : string.
Variable me : Owner.info.
Variables kevin william : option Owner.info.

Lemma random_random_run (w : world) :
  exists u w', random_random w = (Ok u, w') /\ quiet w w'.
Proof.
  unfold random_random. destruct (variates w) as [|u rest].
  - exists 0%float, w. split; [reflexivity|apply quiet_refl].
  - eexists. eexists. split; [reflexivity|]. split; reflexivity.
Qed.

Lemma with_id_fields (record_id status : string)
      (developer_id : option string) (name_suffix : string)
      (start_days due_days : Z) (priority : string) :
  with_id record_id
          (task_fields sf acct project_id status developer_id name_suffix
                       start_days due_days priority)
  = ("Id"%string, record_id)
      :: task_fields sf acct project_id status developer_id name_suffix
                     start_days due_days priority.
Proof.
  unfold task_fields. destruct (when_truthy developer_id); reflexivity.
Qed.

(** One round of the loop that returns. *)
Lemma create_task_inv (idx : nat) (status : string)
      (created_tasks : list (PyDict.t string)) (tasks : nat) (remaining : Z)
      (w : world) (vars' : list (PyDict.t string) * nat * Z) (w' : world) :
  create_task sf args acct project_id me kevin william (idx, status)
              (created_tasks, tasks, remaining) w
  = (Ok vars', w') ->
  exists u owner_choice remaining' start_days due_days priority record_id,
    Owner.pick_owner (Account.Id acct) me kevin william remaining u
    = Ok (owner_choice, remaining')
    /\ (-3 <= start_days <= 10)%Z
    /\ (3 <= due_days <= 45)%Z
    /\ In priority PRIORITIES
    /\ vars'
       = (created_tasks
            ++ [("Id"%string, record_id)
                  :: task_fields sf acct project_id status
                                 (Owner.contact_id (Owner.owner owner_choice))
                                 ("#" ++ Split.str idx)
                                 start_days due_days priority],
          (if dry_run args then tasks else S tasks), remaining')
    /\ trace w'
       = trace w
           ++ [task_event
                 args
                 (("Id"%string, record_id)
                    :: task_fields sf acct project_id status
                                   (Owner.contact_id
                                      (Owner.owner owner_choice))
                                   ("#" ++ Split.str idx)
                                   start_days due_days priority)]
    /\ commands w' = (if dry_run args then 0 else 1) + commands w
    /\ (dry_run args = true -> record_id = ("DRY" ++ format_04d idx)%string).
Proof.
  unfold create_task, pick_owner. intro Hrun.
  unfold bind at 1 2 in Hrun.
  destruct (random_random_run w) as (u & w1 & Hu & Hq1c & Hq1t).
  rewrite Hu in Hrun. unfold lift in Hrun.
  destruct (Owner.pick_owner (Account.Id acct) me kevin william remaining u)
    as [[owner_choice remaining']|e] eqn:Hpick; [|discriminate Hrun].
  unfold bind at 1 in Hrun.
  destruct (generate_task_payload_run
              sf acct project_id status
              (Owner.contact_id (Owner.owner owner_choice))
              ("#" ++ Split.str idx)%string w1)
    as (start & due & priority & w2 & Hpay & Hsr & Hdr & Hin & Hq2c & Hq2t).
  rewrite Hpay in Hrun.
  exists u, owner_choice, remaining', start, due, priority.
  unfold task_event. cbn [tl].
  destruct (dry_run args) eqn:Hdry.
  - unfold bind, print, emit, ret in Hrun. injection Hrun as <- <-.
    exists ("DRY" ++ format_04d idx)%string. cbn [trace commands].
    rewrite with_id_fields, Hq2t, Hq1t, Hq2c, Hq1c.
    repeat (split; [first [assumption | reflexivity]|]).
    reflexivity.
  - unfold bind, create_record, run_sf, ret in Hrun.
    destruct (created_id sf (commands w2) _ _) as [task_id|e];
      [|discriminate Hrun].
    injection Hrun as <- <-. exists task_id. cbn [trace commands].
    rewrite with_id_fields, Hq2t, Hq1t, Hq2c, Hq1c.
    repeat (split; [first [assumption | reflexivity]|]).
    discriminate.
Qed.

Lemma create_task_total (entry : nat * string)
      (vars : list (PyDict.t string) * nat * Z) (w : world) :
  dry_run args = true \/ creates_accepted sf ->
  exists vars' w',
    create_task sf args acct project_id me kevin william entry vars w
    = (Ok vars', w').
Proof.
  intro Hok. destruct entry as [idx status].
  destruct vars as [[created_tasks tasks] remaining].
  unfold create_task, pick_owner. unfold bind at 1 2.
  destruct (random_random_run w) as (u & w1 & -> & _).
  destruct (pick_owner_total me kevin (Account.Id acct) william remaining u)
    as (owner_choice & remaining' & Hpick).
  unfold lift. rewrite Hpick. unfold bind at 1.
  destruct (generate_task_payload_run
              sf acct project_id status
              (Owner.contact_id (Owner.owner owner_choice))
              ("#" ++ Split.str idx)%string w1)
    as (start & due & priority & w2 & -> & _).
  destruct (dry_run args) eqn:Hdry.
  - unfold bind, print, emit, ret. eauto.
  - destruct Hok as [Hdry'|Hacc]; [discriminate Hdry'|].
    unfold bind, create_record, run_sf, ret.
    destruct (Hacc (commands w2) "Project_Task__c"%string
                   (task_fields sf acct project_id status
                                (Owner.contact_id (Owner.owner owner_choice))
                                ("#" ++ Split.str idx) start due priority))
      as [task_id ->].
    eauto.
Qed.

End SeedTaskFacts.

Lemma enumerate1_length {X : Type} (xs : list X) :
  length (Generate.enumerate1 xs) = length xs.
Proof.
  unfold Generate.enumerate1. rewrite length_combine, length_seq. lia.
Qed.

(** X13 (the created tasks follow the statuses).  The loop of lines
    285-297 returns whenever the run is a dry run or the org accepts the
    create commands.  When it returns, [created_tasks] has one task per
    entry of [tasks_to_create], in order: the task number [idx] (from 1)
    has the status of that entry, the name [<account> Task #idx], the
    account and the project of the call and, in a dry run, the id
    [DRY] followed by [idx] on four digits.  For each task, in order, a
    live run has sent one create command with the payload of the task and
    a dry run has printed one line with it and sent nothing;
    [summary["tasks"]] counts the commands sent. *)
Theorem created_tasks_follow_statuses :
  forall (sf : Generate.salesforce) (args : Generate.arguments)
         (acct : Generate.Account.t) (project_id : string)
         (me : Owner.info) (kevin william : option Owner.info)
         (tasks_to_create : list string) (tasks : nat) (remaining : Z)
         (w : Generate.world),
    (Generate.dry_run args = true \/ creates_accepted sf ->
     exists result w',
       Generate.create_tasks sf args acct project_id me kevin william
                             tasks_to_create tasks remaining w
       = (Ok result, w'))
    /\ forall created_tasks tasks' remaining' w',
        Generate.create_tasks sf args acct project_id me kevin william
                              tasks_to_create tasks remaining w
        = (Ok (created_tasks, tasks', remaining'), w') ->
        Forall2 (task_follows acct project_id (Generate.dry_run args))
                (Generate.enumerate1 tasks_to_create) created_tasks
        /\ length created_tasks = length tasks_to_create
        /\ Generate.trace w'
           = Generate.trace w ++ map (task_event args) created_tasks
        /\ tasks'
           = (if Generate.dry_run args then 0 else length tasks_to_create)
             + tasks
        /\ Generate.commands w'
           = (if Generate.dry_run args then 0 else length tasks_to_create)
             + Generate.commands w.
Proof.
  intros sf args acct project_id me kevin william statuses tasks remaining w.
  unfold Generate.create_tasks. split.
  - intro Hok.
    apply (seed_for_each_total
             (Generate.create_task sf args acct project_id me kevin william)).
    intros entry vars w0. now apply create_task_total.
  - intros created tasks' remaining' w' Hrun.
    pose (I := fun (done : list (nat * string))
                   (vars : list (PyDict.t string) * nat * Z)
                   (w1 : Generate.world) =>
                 Forall2 (task_follows acct project_id (Generate.dry_run args))
                         done (fst (fst vars))
                 /\ Generate.trace w1
                    = Generate.trace w
                        ++ map (task_event args) (fst (fst vars))
                 /\ snd (fst vars)
                    = (if Generate.dry_run args then 0 else length done)
                      + tasks
                 /\ Generate.commands w1
                    = (if Generate.dry_run args then 0 else length done)
                      + Generate.commands w).
    assert (Hinv : I ([] ++ Generate.enumerate1 statuses)
                     (created, tasks', remaining') w').
    { refine (seed_for_each_steps I _ _ _ [] _ w _ _ _ Hrun).
      - intros done [idx status] [[created1 tasks1] remaining1] w1 vars' w2
               (Hall & Htrace & Htasks & Hcmds) Hstep.
        cbn [fst snd] in *.
        apply create_task_inv in Hstep
            as (u & owner_choice & r' & start & due & priority & record_id
                & _ & _ & _ & _ & -> & Htrace' & Hcmds' & Hid).
        unfold I. cbn [fst snd].
        split; [|split; [|split]].
        + apply Forall2_app; [exact Hall|]. constructor; [|constructor].
          unfold task_follows. cbn [fst snd].
          repeat split; try reflexivity.
          intro Hdry. rewrite (Hid Hdry). reflexivity.
        + rewrite Htrace', Htrace, map_app, <- app_assoc. reflexivity.
        + rewrite length_app. cbn [length].
          destruct (Generate.dry_run args); lia.
        + rewrite Hcmds', Hcmds, length_app. cbn [length].
          destruct (Generate.dry_run args); lia.
      - unfold I. cbn [fst snd map length].
        rewrite app_nil_r.
        split; [constructor|].
        destruct (Generate.dry_run args); auto. }
    destruct Hinv as (Hall & Htrace & Htasks & Hcmds).
    cbn [fst snd app] in *. rewrite enumerate1_length in *.
    split; [exact Hall|].
    split; [apply Forall2_length in Hall;
            rewrite enumerate1_length in Hall; lia|].
    auto.
Qed.

(** ** The developers of the tasks of an account *)

Lemma task_developer (sf : Generate.salesforce) (acct : Generate.Account.t)
      (project_id record_id status : string) (developer_id : option string)
      (name_suffix : string) (start_days due_days : Z) (priority : string) :
  PyDict.get (("Id"%string, record_id)
                :: task_fields sf acct project_id status developer_id
                               name_suffix start_days due_days priority)
             "Developer__c"
  = Generate.when_truthy developer_id.
Proof.
  unfold task_fields. destruct (Generate.when_truthy developer_id);
    reflexivity.
Qed.

Lemma when_truthy_some (v : option string) (s : string) :
  Generate.when_truthy v = Some s -> v = Some s.
Proof.
  unfold Generate.when_truthy. destruct (Generate.truthy v); [auto|discriminate].
Qed.

Lemma developed_by_app (c : string) (l1 l2 : list (PyDict.t string)) :
  developed_by c (l1 ++ l2) = developed_by c l1 ++ developed_by c l2.
Proof. apply filter_app. Qed.

(** X14 (William develops within his quota).  When neither the current
    user nor Kevin has William's user id or his contact, William has a
    contact and the counter [max_william["remaining"]] is not negative,
    then in the tasks the loop of lines 285-297 creates for an account
    the number of tasks whose [Developer__c] is William's contact is what
    the counter loses, the counter stays non-negative (so at most
    [remaining] tasks go to William, over all the accounts of the run), no
    task of an account other than William's goes to him, and every other
    task has the contact of the current user or of Kevin as developer, or
    no developer when that user has no contact. *)
Theorem william_develops_within_quota :
  forall (sf : Generate.salesforce) (args : Generate.arguments)
         (acct : Generate.Account.t) (project_id : string)
         (me : Owner.info) (kevin : option Owner.info) (william : Owner.info)
         (contact : string)
         (tasks_to_create : list string) (tasks : nat) (remaining : Z)
         (w : Generate.world)
         (created_tasks : list (PyDict.t string)) (tasks' : nat)
         (remaining' : Z) (w' : Generate.world),
    Owner.user_id me <> Owner.user_id william ->
    (forall k, kevin = Some k -> Owner.user_id k <> Owner.user_id william) ->
    Generate.when_truthy (Owner.contact_id william) = Some contact ->
    Owner.contact_id me <> Some contact ->
    (forall k, kevin = Some k -> Owner.contact_id k <> Some contact) ->
    (0 <= remaining)%Z ->
    Generate.create_tasks sf args acct project_id me kevin (Some william)
                          tasks_to_create tasks remaining w
    = (Ok (created_tasks, tasks', remaining'), w') ->
    remaining'
    = (remaining - Z.of_nat (length (developed_by contact created_tasks)))%Z
    /\ (0 <= remaining')%Z
    /\ (Owner.account_id william <> Some (Generate.Account.Id acct) ->
        developed_by contact created_tasks = [])
    /\ Forall (fun task =>
                 PyDict.get task "Developer__c" = Some contact
                 \/ PyDict.get task "Developer__c"
                    = Generate.when_truthy (Owner.contact_id me)
                 \/ exists k,
                     kevin = Some k
                     /\ PyDict.get task "Developer__c"
                        = Generate.when_truthy (Owner.contact_id k))
              created_tasks.
Proof.
  intros sf args acct project_id me kevin william contact statuses tasks
         remaining w created tasks' remaining' w'
         Hme Hkevin Hcontact Hcme Hckevin Hpos Hrun.
  unfold Generate.create_tasks in Hrun.
  pose (I := fun (done : list (nat * string))
                 (vars : list (PyDict.t string) * nat * Z)
                 (w1 : Generate.world) =>
               snd vars
               = (remaining
                  - Z.of_nat (length (developed_by contact (fst (fst vars)))))%Z
               /\ (0 <= snd vars)%Z
               /\ (Owner.account_id william
                   <> Some (Generate.Account.Id acct) ->
                   developed_by contact (fst (fst vars)) = [])
               /\ Forall (fun task =>
                            PyDict.get task "Developer__c" = Some contact
                            \/ PyDict.get task "Developer__c"
                               = Generate.when_truthy (Owner.contact_id me)
                            \/ exists k,
                                kevin = Some k
                                /\ PyDict.get task "Developer__c"
                                   = Generate.when_truthy (Owner.contact_id k))
                         (fst (fst vars))).
  assert (Hinv : I ([] ++ Generate.enumerate1 statuses)
                   (created, tasks', remaining') w').
  { refine (seed_for_each_steps I _ _ _ [] _ w _ _ _ Hrun).
    - intros done [idx status] [[created1 tasks1] remaining1] w1 vars' w2
             (Hrem & Hpos1 & Hscope & Hall) Hstep.
      cbn [fst snd] in *.
      apply create_task_inv in Hstep
          as (u & owner_choice & r' & start & due & priority & record_id
              & Hpick & _ & _ & _ & -> & _).
      unfold I. cbn [fst snd]. rewrite developed_by_app.
      unfold developed_by at 2 4. cbn [filter]. rewrite task_developer.
      pose proof (pick_owner_inv _ _ _ _ _ _ _ _ Hpick) as [Hin _].
      destruct (pick_owner_counted _ _ _ _ _ _ _ _ Hme Hkevin Hpick)
        as [(_ & -> & Hacct & -> & Hlt)|(_ & Hneq & ->)].
      + cbn [Owner.william_entry Owner.owner]. rewrite Hcontact.
        replace (opt_str_eqb (Some contact) (Some contact)) with true
          by (symmetry; now apply opt_str_eqb_eq).
        rewrite length_app. cbn [length].
        split; [lia|]. split; [lia|]. split; [intro H; contradiction|].
        apply Forall_app. split; [exact Hall|].
        constructor; [|constructor]. left.
        rewrite task_developer. cbn [Owner.william_entry Owner.owner].
        exact Hcontact.
      + assert (Hbase : In owner_choice (Owner.base_candidates me kevin)).
        { rewrite candidates_split in Hin.
          apply in_app_or in Hin as [Hin|Hin]; [exact Hin|].
          destruct (Owner.william_eligible _ _ _); [|destruct Hin].
          destruct Hin as [<-|[]]. contradiction. }
        assert (Hwho :
                  Owner.owner owner_choice = me
                  \/ exists k, kevin = Some k /\ Owner.owner owner_choice = k).
        { unfold Owner.base_candidates in Hbase.
          destruct kevin as [k|]; simpl in Hbase.
          - destruct Hbase as [<-|[<-|[]]]; [left; reflexivity|].
            right. exists k. auto.
          - destruct Hbase as [<-|[]]. left. reflexivity. }
        assert (Hother :
                  Generate.when_truthy
                    (Owner.contact_id (Owner.owner owner_choice))
                  <> Some contact).
        { intro H. apply when_truthy_some in H.
          destruct Hwho as [Hw|(k & Hk & Hw)]; rewrite Hw in H.
          - contradiction.
          - now apply (Hckevin k Hk). }
        replace (opt_str_eqb
                   (Generate.when_truthy
                      (Owner.contact_id (Owner.owner owner_choice)))
                   (Some contact)) with false.
        2:{ symmetry. destruct (opt_str_eqb _ _) eqn:E; [|reflexivity].
            apply opt_str_eqb_eq in E. contradiction. }
        rewrite app_nil_r.
        split; [exact Hrem|]. split; [exact Hpos1|]. split; [exact Hscope|].
        apply Forall_app. split; [exact Hall|].
        constructor; [|constructor]. right. rewrite task_developer.
        destruct Hwho as [->|(k & Hk & ->)]; [left; reflexivity|].
        right. exists k. auto.
    - unfold I. cbn [fst snd developed_by filter length].
      split; [lia|]. split; [exact Hpos|]. split; [reflexivity|constructor]. }
  exact Hinv.
Qed.

(** Two tasks for Acme, William's account, with a quota of 4: the first
    pick is William, the second the current user. *)
Lemma william_develops_within_quota_witness :
  let run :=
    Generate.create_tasks seeding_org seed_args account_acme "P1"
                          info_me (Some info_kevin) (Some info_william)
                          ["Backlog"; "Closed"]%string 0 4
                          (Generate.initial [3; 1; 4; 1; 5; 9]
                                            [0.99; 0.2]%float) in
  exists created_tasks,
    run = (Ok (created_tasks, 2, 3%Z), snd run)
    /\ length (developed_by "C3" created_tasks) = 1
    /\ 3%Z = (4 - Z.of_nat (length (developed_by "C3" created_tasks)))%Z.
Proof.
  intro run.
  assert (Hme : Owner.user_id info_me <> Owner.user_id info_william)
    by discriminate.
  assert (Hkevin : forall k, Some info_kevin = Some k ->
                             Owner.user_id k <> Owner.user_id info_william).
  { intros k Hk. injection Hk as <-. discriminate. }
  assert (Hcontact : Generate.when_truthy (Owner.contact_id info_william)
                     = Some "C3"%string) by reflexivity.
  assert (Hcme : Owner.contact_id info_me <> Some "C3"%string)
    by discriminate.
  assert (Hckevin : forall k, Some info_kevin = Some k ->
                              Owner.contact_id k <> Some "C3"%string).
  { intros k Hk. injection Hk as <-. discriminate. }
  assert (Hpos : (0 <= 4)%Z) by lia.
  destruct (fst run) as [[[created_tasks tasks'] remaining']|e] eqn:Hfst;
    [|vm_compute in Hfst; discriminate Hfst].
  assert (Hrest : tasks' = 2 /\ remaining' = 3%Z
                  /\ length (developed_by "C3" created_tasks) = 1).
  { vm_compute in Hfst. injection Hfst as <- <- <-. vm_compute. auto. }
  destruct Hrest as (-> & -> & Hone).
  assert (Hrun : run = (Ok (created_tasks, 2, 3%Z), snd run)).
  { rewrite <- Hfst. destruct run. reflexivity. }
  exists created_tasks. split; [exact Hrun|]. split; [exact Hone|].
  exact (proj1 (william_develops_within_quota
                  seeding_org seed_args account_acme "P1"
                  info_me (Some info_kevin) info_william "C3"
                  ["Backlog"; "Closed"]%string 0 4 _ _ _ _ _
                  Hme Hkevin Hcontact Hcme Hckevin Hpos Hrun)).
Defined.

(** ** The current user and the owners *)

(** X15 (unknown current user).  When [--min] and [--max] pass the check
    of line 204 and [sf org display] reports neither a user id nor a
    username (absent or empty), the script stops with the [RuntimeError]
    of line 92 after that single command: no user is queried and nothing
    is created or printed. *)
Theorem current_user_unknown_raises :
  forall (sf : Generate.salesforce) (args : Generate.arguments)
         (w : Generate.world) (user_id username : option string),
    (1 <= Generate.min_tasks args <= Generate.max_tasks args)%Z ->
    Generate.display sf (Generate.commands w) = Ok (user_id, username) ->
    Generate.truthy user_id = false ->
    Generate.truthy username = false ->
    Generate.owners sf args w
    = (Raise RuntimeError, sent w [Generate.OrgDisplay (Generate.org args)]).
Proof.
  intros sf args w user_id username Hrange Hdisplay Hid Hname.
  unfold Generate.owners.
  replace (Generate.min_tasks args <? 1)%Z with false
    by (symmetry; apply Z.ltb_ge; lia).
  replace (Generate.max_tasks args <? Generate.min_tasks args)%Z with false
    by (symmetry; apply Z.ltb_ge; lia).
  cbn [orb].
  unfold Generate.bind at 1, Generate.resolve_current_user_id.
  unfold Generate.bind at 1, Generate.current_user, Generate.run_sf.
  rewrite Hdisplay. unfold Generate.when_truthy. rewrite Hid, Hname.
  reflexivity.
Qed.

Lemma current_user_unknown_raises_witness :
  let org :=
    {| Generate.display := fun _ => Ok (Some ""%string, None);
       Generate.query_ids := fun _ _ => Ok ["U1"%string];
       Generate.query_users := fun _ _ => Ok [];
       Generate.created_id := fun n _ _ => Ok ("REC" ++ Split.str n)%string;
       Generate.today := 738000;
       Generate.isoformat := fun day => Split.str (Z.to_nat day);
       Generate.strftime_Ymd := fun day => Split.str (Z.to_nat day) |} in
  Generate.owners org seed_args (Generate.initial [] [])
  = (Raise RuntimeError,
     sent (Generate.initial [] []) [Generate.OrgDisplay "milestoneDevOrg"]).
Proof.
  intro org.
  assert (Hrange : (1 <= Generate.min_tasks seed_args
                    <= Generate.max_tasks seed_args)%Z)
    by (vm_compute; split; discriminate).
  exact (current_user_unknown_raises
           org seed_args (Generate.initial [] []) (Some ""%string) None
           Hrange eq_refl eq_refl eq_refl).
Defined.

Lemma resolve_current_user_id_inv (sf : Generate.salesforce)
      (args : Generate.arguments) (w : Generate.world) (me_id : string)
      (w' : Generate.world) :
  Generate.resolve_current_user_id sf args w = (Ok me_id, w') ->
  records_created (Generate.trace w') = records_created (Generate.trace w)
  /\ Generate.draws w' = Generate.draws w
  /\ (Generate.commands w' = 1 + Generate.commands w
      \/ Generate.commands w' = 2 + Generate.commands w).
Proof.
  unfold Generate.resolve_current_user_id, Generate.bind,
    Generate.current_user, Generate.soql_ids, Generate.run_sf.
  destruct (Generate.display sf (Generate.commands w))
    as [[user_id username]|e]; [|discriminate].
  destruct (Generate.when_truthy user_id) as [id|].
  - unfold Generate.ret. intro H. injection H as <- <-. cbn.
    unfold records_created. rewrite filter_app. cbn.
    rewrite app_nil_r. auto.
  - destruct (Generate.when_truthy username) as [name|];
      [|unfold Generate.raise; discriminate].
    cbn [Generate.commands Generate.trace Generate.draws Generate.variates].
    destruct (Generate.query_ids sf _ _) as [[|first rest]|e];
      try (unfold Generate.raise; discriminate).
    unfold Generate.ret. intro H. injection H as <- <-. cbn.
    unfold records_created. rewrite !filter_app. cbn.
    rewrite !app_nil_r. auto.
Qed.

Lemma find_user_inv (sf : Generate.salesforce) (args : Generate.arguments)
      (name_fragment : string) (w : Generate.world)
      (user : option Generate.User.t) (w' : Generate.world) :
  Generate.find_user sf args name_fragment w = (Ok user, w') ->
  records_created (Generate.trace w') = records_created (Generate.trace w)
  /\ Generate.draws w' = Generate.draws w
  /\ Generate.commands w' = 1 + Generate.commands w.
Proof.
  unfold Generate.find_user, Generate.bind, Generate.soql_users,
    Generate.run_sf.
  destruct (Generate.query_users sf _ _) as [records|e]; [|discriminate].
  unfold Generate.ret. intro H. injection H as <- <-. cbn.
  unfold records_created. rewrite filter_app. cbn.
  rewrite app_nil_r. auto.
Qed.

(** X16 (what the owners are).  Whenever lines 204-230 return the three
    infos: [--min] and [--max] satisfy [1 <= min <= max]; the current
    user has a user id but no contact and no account, so that a task
    picked for the current user gets no [Developer__c]; Kevin and William,
    when found, have a user id, and their account is the one of their
    contact, if any.  Three or four commands were issued, none of them a
    create command, and no random number was drawn. *)
Theorem owners_postcondition :
  forall (sf : Generate.salesforce) (args : Generate.arguments)
         (w : Generate.world) (me : Owner.info)
         (kevin william : option Owner.info) (w' : Generate.world),
    Generate.owners sf args w = (Ok (me, kevin, william), w') ->
    (1 <= Generate.min_tasks args <= Generate.max_tasks args)%Z
    /\ (exists me_id, Owner.user_id me = Some me_id)
    /\ Owner.contact_id me = None
    /\ Owner.account_id me = None
    /\ Generate.when_truthy (Owner.contact_id me) = None
    /\ (forall info,
           kevin = Some info \/ william = Some info ->
           exists user,
             info = Generate.owner_info user
             /\ Owner.user_id info = Some (Generate.User.Id user)
             /\ (Generate.User.Contact user = None ->
                 Owner.account_id info = None))
    /\ records_created (Generate.trace w')
       = records_created (Generate.trace w)
    /\ Generate.draws w' = Generate.draws w
    /\ (Generate.commands w' = 3 + Generate.commands w
        \/ Generate.commands w' = 4 + Generate.commands w).
Proof.
  intros sf args w me kevin william w' Hrun.
  unfold Generate.owners in Hrun.
  destruct (Generate.min_tasks args <? 1)%Z eqn:Hmin;
    [discriminate Hrun|].
  destruct (Generate.max_tasks args <? Generate.min_tasks args)%Z eqn:Hmax;
    [discriminate Hrun|].
  cbn [orb] in Hrun. apply Z.ltb_ge in Hmin, Hmax.
  unfold Generate.bind at 1 in Hrun.
  destruct (Generate.resolve_current_user_id sf args w)
    as [[me_id|e] w1] eqn:Hme; [|discriminate Hrun].
  apply resolve_current_user_id_inv in Hme as (Hc1 & Hd1 & Hn1).
  unfold Generate.bind at 1 in Hrun.
  destruct (Generate.find_user sf args (Generate.owner_kevin args) w1)
    as [[kevin_user|e] w2] eqn:Hk; [|discriminate Hrun].
  apply find_user_inv in Hk as (Hc2 & Hd2 & Hn2).
  unfold Generate.bind at 1 in Hrun.
  destruct (Generate.find_user sf args (Generate.owner_william args) w2)
    as [[william_user|e] w3] eqn:Hw; [|discriminate Hrun].
  apply find_user_inv in Hw as (Hc3 & Hd3 & Hn3).
  unfold Generate.ret in Hrun. injection Hrun as <- <- <- <-.
  cbn [Owner.user_id Owner.contact_id Owner.account_id].
  split; [lia|]. split; [eauto|]. split; [reflexivity|].
  split; [reflexivity|]. split; [reflexivity|].
  split.
  { intros info [H|H].
    - destruct kevin_user as [user|]; [|discriminate H].
      injection H as <-. exists user. split; [reflexivity|].
      split; [reflexivity|]. unfold Generate.owner_info. cbn.
      intros ->. reflexivity.
    - destruct william_user as [user|]; [|discriminate H].
      injection H as <-. exists user. split; [reflexivity|].
      split; [reflexivity|]. unfold Generate.owner_info. cbn.
      intros ->. reflexivity. }
  split; [congruence|]. split; [congruence|]. lia.
Qed.

Lemma owners_postcondition_witness :
  exists w',
    Generate.owners seeding_org seed_args (Generate.initial [] [])
    = (Ok (info_me, None, None), w')
    /\ Owner.contact_id info_me = None
    /\ Generate.commands w' = 3.
Proof.
  pose (run := Generate.owners seeding_org seed_args (Generate.initial [] [])).
  assert (Hrun : run = (Ok (info_me, None, None), snd run))
    by (vm_compute; reflexivity).
  exists (snd run). split; [exact Hrun|].
  destruct (owners_postcondition seeding_org seed_args
                                 (Generate.initial [] []) info_me None None
                                 (snd run) Hrun)
    as (_ & _ & Hcontact & _).
  split; [exact Hcontact|]. vm_compute. reflexivity.
Defined.

(** * The order of the commands of [split_tasks_to_projects.py] *)
Section PhaseFacts.

Import Split.

Variable P : event -> Prop.

Lemma adds_ret {A : Type} (a : A) : adds P (ret a).
Proof. intro w. exists []. cbn. rewrite app_nil_r. auto. Qed.

Lemma adds_raise {A : Type} (e : py_exception) : adds P (@raise A e).
Proof. intro w. exists []. cbn. rewrite app_nil_r. auto. Qed.

Lemma adds_bind_post {A B : Type} (Q : A -> Prop) (c : M A) (k : A -> M B) :
  (forall w a w', c w = (Ok a, w') -> Q a) ->
  adds P c -> (forall a, Q a -> adds P (k a)) -> adds P (bind c k).
Proof.
  intros HQ Hc Hk w. unfold bind. destruct (Hc w) as (es1 & Ht1 & H1).
  destruct (c w) as [[a|e] w1] eqn:Hcw; cbn [snd] in Ht1.
  - destruct (Hk a (HQ _ _ _ Hcw) w1) as (es2 & Ht2 & H2).
    exists (es1 ++ es2). rewrite Ht2, Ht1, app_assoc.
    split; [reflexivity|]. apply Forall_app. auto.
  - exists es1. auto.
Qed.

Lemma adds_bind {A B : Type} (c : M A) (k : A -> M B) :
  adds P c -> (forall a, adds P (k a)) -> adds P (bind c k).
Proof.
  intros Hc Hk. apply (adds_bind_post (fun _ => True)); auto.
Qed.

Lemma adds_emit (e : event) : P e -> adds P (emit e).
Proof. intros He w. exists [e]. cbn. auto. Qed.

Lemma adds_run_sf {A : Type} (c : sf_command) (answer : nat -> outcome A) :
  P (Sf c) -> adds P (run_sf c answer).
Proof. intros Hc w. exists [Sf c]. cbn. auto. Qed.

Lemma adds_randbelow (n : nat) : adds P (randbelow n).
Proof.
  intro w. exists []. unfold randbelow.
  destruct (rng w); cbn; rewrite app_nil_r; auto.
Qed.

Lemma adds_random_choice {A : Type} (seq : list A) :
  adds P (random_choice seq).
Proof.
  destruct seq as [|a seq]; [apply adds_raise|].
  apply adds_bind; [apply adds_randbelow|]. intro j. apply adds_ret.
Qed.

Lemma adds_shuffle {A : Type} (x : list A) : adds P (random_shuffle x).
Proof.
  unfold random_shuffle. generalize (length x - 1). intro i. revert x.
  induction i as [|i IH]; intro x; [apply adds_ret|].
  cbn [shuffle_from]. apply adds_bind; [apply adds_randbelow|].
  intro j. apply IH.
Qed.

Lemma adds_for_each {X St : Type} (body : X -> St -> M St) (xs : list X) :
  (forall x s, adds P (body x s)) -> forall s, adds P (for_each xs body s).
Proof.
  intro Hbody. induction xs as [|x xs IH]; intro s; [apply adds_ret|].
  cbn [for_each]. apply adds_bind; [apply Hbody|exact IH].
Qed.

Lemma adds_while_loop {St : Type} (cond : St -> bool) (body : St -> M St)
      (fuel : nat) :
  (forall s, adds P (body s)) ->
  forall s, adds P (while_loop fuel cond body s).
Proof.
  intro Hbody. induction fuel as [|fuel IH]; intro s; [apply adds_ret|].
  cbn [while_loop]. destruct (cond s); [|apply adds_ret].
  apply adds_bind; [apply Hbody|exact IH].
Qed.

(** Sequencing two kinds. *)
Variable P' : event -> Prop.

Lemma adds_then_bind {A B : Type} (c : M A) (k : A -> M B) :
  adds P c -> (forall a, adds P' (k a)) -> adds_then P P' (bind c k).
Proof.
  intros Hc Hk w. unfold bind. destruct (Hc w) as (es1 & Ht1 & H1).
  destruct (c w) as [[a|e] w1]; cbn [snd] in Ht1.
  - destruct (Hk a w1) as (es2 & Ht2 & H2).
    exists es1, es2. rewrite Ht2, Ht1, app_assoc. auto.
  - exists es1, []. rewrite app_nil_r. auto.
Qed.

Variable P'' : event -> Prop.

Lemma adds_three_first {A : Type} (c : M A) :
  adds P c -> adds_three P P' P'' c.
Proof.
  intros Hc w. destruct (Hc w) as (es & Ht & H).
  exists es, [], []. rewrite !app_nil_r. auto.
Qed.

Lemma adds_three_bind {A B : Type} (c : M A) (k : A -> M B) :
  adds P c -> (forall a, adds_three P P' P'' (k a)) ->
  adds_three P P' P'' (bind c k).
Proof.
  intros Hc Hk w. unfold bind. destruct (Hc w) as (es & Ht & H).
  destruct (c w) as [[a|e] w1]; cbn [snd] in Ht.
  - destruct (Hk a w1) as (es1 & es2 & es3 & Ht' & H1 & H2 & H3).
    exists (es ++ es1), es2, es3. rewrite Ht', Ht, <- !app_assoc.
    split; [reflexivity|]. split; [apply Forall_app; auto|auto].
  - exists es, [], []. rewrite !app_nil_r. auto.
Qed.

Lemma adds_three_last {A : Type} (c : M A) :
  adds_then P' P'' c -> adds_three P P' P'' c.
Proof.
  intros Hc w. destruct (Hc w) as (es2 & es3 & Ht & H2 & H3).
  exists [], es2, es3. auto.
Qed.

End PhaseFacts.

Lemma random_choice_In {A : Type} (seq : list A) (w : Split.world) (a : A)
      (w' : Split.world) :
  Split.random_choice seq w = (Ok a, w') -> In a seq.
Proof.
  destruct seq as [|a0 rest]; [discriminate|].
  destruct (split_randbelow_lt (length (a0 :: rest)) w) as (j & Hj & Hlt);
    [simpl; lia|].
  unfold Split.random_choice, Split.bind, Split.ret.
  destruct (Split.randbelow (length (a0 :: rest)) w) as [r w1].
  cbn [fst] in Hj. subst r. intro H. injection H as <- <-.
  change (In (nth j (a0 :: rest) a0) (a0 :: rest)).
  apply nth_In. exact Hlt.
Qed.

Section PhaseOrder.

Import Split.

Variable sf : salesforce.
Variable args : arguments.

Lemma adds_new_project (account_name account_id : string) (number : nat)
      (projects_to_use : list string) :
  adds (project_creation_event (org args))
       (new_project sf args account_name account_id number projects_to_use).
Proof.
  unfold new_project.
  apply (adds_bind_post _ (fun status => In status PROJECT_STATUSES)).
  - intros w a w'. apply random_choice_In.
  - apply adds_random_choice.
  - intros status Hin. destruct (dry_run args).
    + apply adds_bind; [apply adds_emit; exact I|]. intros _. apply adds_ret.
    + apply adds_bind.
      * unfold create_record. apply adds_run_sf. cbn.
        split; [reflexivity|]. split; [reflexivity|]. eauto.
      * intro new_id. apply adds_bind; [apply adds_emit; exact I|].
        intros _. apply adds_ret.
Qed.

Lemma adds_build (account_name account_id : string)
      (existing_projects : list Project.t) :
  adds (project_creation_event (org args))
       (build_projects_to_use sf args account_name account_id
                              existing_projects).
Proof.
  unfold build_projects_to_use.
  destruct (0 <? num_projects args - Z.of_nat (length existing_projects))%Z.
  - apply adds_bind; [apply adds_emit; exact I|]. intros _.
    apply adds_for_each. intros i l. apply adds_new_project.
  - apply adds_bind.
    + apply adds_for_each. intros proj l.
      destruct (negb (String.eqb (Project.Id proj) (project_id args)));
        apply adds_ret.
    + intro l. apply adds_while_loop. intro l'. apply adds_new_project.
Qed.

Lemma adds_partition (tasks : list Task.t) (buckets : list string) :
  adds (task_move_event (org args)) (partition_tasks tasks buckets).
Proof.
  unfold partition_tasks.
  apply adds_bind; [apply adds_shuffle|]. intro shuffled.
  apply adds_bind.
  { unfold floordiv. destruct (length buckets =? 0);
      [apply adds_raise|apply adds_ret]. }
  intro tasks_per_project. apply adds_bind.
  { unfold modulo. destruct (length buckets =? 0);
      [apply adds_raise|apply adds_ret]. }
  intro remainder. apply adds_bind.
  - apply adds_for_each. intros [i bucket] [d idx]. unfold assign_bucket.
    apply adds_bind; [apply adds_emit; exact I|]. intros _. apply adds_ret.
  - intros [d idx]. apply adds_ret.
Qed.

Lemma adds_distribute (tasks : list Task.t) (buckets : list string) :
  adds (task_move_event (org args)) (distribute sf args tasks buckets).
Proof.
  unfold distribute. apply adds_bind; [apply adds_partition|].
  intro d. apply adds_bind; [|intro n; apply adds_ret].
  unfold move_tasks. apply adds_for_each. intros [b s] n.
  unfold move_bucket. destruct (String.eqb b (project_id args));
    [apply adds_ret|].
  apply adds_for_each. intros t n'. unfold move_task.
  destruct (dry_run args).
  - apply adds_bind; [apply adds_emit; exact I|]. intros _. apply adds_ret.
  - apply adds_bind; [|intros _; apply adds_ret].
    unfold update_record. apply adds_bind.
    + apply adds_run_sf. cbn. split; [reflexivity|].
      split; [reflexivity|]. eauto.
    + intros [[| |]|]; first [apply adds_ret | apply adds_raise].
Qed.

(** From the list of projects on: creations, then moves. *)
Lemma adds_writes (account_name account_id : string)
      (tasks : list Task.t) (existing_projects : list Project.t) :
  adds_then
    (project_creation_event (org args)) (task_move_event (org args))
    (bind (build_projects_to_use sf args account_name account_id
                                 existing_projects)
          (fun projects_to_use =>
             bind (print (MsgDistributing (length tasks)
                                          (length projects_to_use)))
                  (fun _ =>
                     bind (distribute sf args tasks projects_to_use)
                          (fun '(distribution, updates_made) =>
                             if negb (dry_run args) then
                               bind (print (MsgDone updates_made
                                                    (length projects_to_use)))
                                    (fun _ =>
                                       print
                                         (MsgSummary
                                            (project_id args)
                                            (length projects_to_use)
                                            updates_made
                                            (length
                                               (PyDict.get_default
                                                  distribution
                                                  (project_id args) []))))
                             else print MsgNoChanges)))).
Proof.
  apply adds_then_bind; [apply adds_build|]. intro projects_to_use.
  apply adds_bind; [apply adds_emit; exact I|]. intros _.
  apply adds_bind; [apply adds_distribute|]. intros [d n].
  destruct (negb (dry_run args)).
  - apply adds_bind; [apply adds_emit; exact I|]. intros _.
    apply adds_emit. exact I.
  - apply adds_emit. exact I.
Qed.

End PhaseOrder.

(** X17 (queries, then creations, then moves).  In every run of [main],
    whatever the org answers, whatever the random draws and however the
    run ends, the commands come in three phases: first queries only, then
    creations only, then updates only.  Each command targets the org of
    the command line; a creation is a [Project__c] record with a name, an
    account and a status of [PROJECT_STATUSES]; an update sets the single
    field [Project__c] of a [Project_Task__c] record.  So no task is
    moved before every project exists, and nothing else is ever
    written. *)
Theorem queries_then_creations_then_moves :
  forall (sf : Split.salesforce) (args : Split.arguments) (tape : list nat),
  exists queries creations moves,
    Split.trace (snd (Split.main sf args (Split.initial tape)))
    = queries ++ creations ++ moves
    /\ Forall (query_event (Split.org args)) queries
    /\ Forall (project_creation_event (Split.org args)) creations
    /\ Forall (task_move_event (Split.org args)) moves.
Proof.
  intros sf args tape.
  assert (H : adds_three (query_event (Split.org args))
                         (project_creation_event (Split.org args))
                         (task_move_event (Split.org args))
                         (Split.main sf args)).
  { unfold Split.main.
    apply adds_three_bind; [apply adds_run_sf; reflexivity|].
    intros [|original more]; [apply adds_three_first, adds_raise|].
    apply adds_three_bind; [apply adds_run_sf; reflexivity|].
    intros [|account_name names]; [apply adds_three_first, adds_raise|].
    apply adds_three_bind; [apply adds_emit; exact I|]. intros _.
    apply adds_three_bind; [apply adds_run_sf; reflexivity|]. intro tasks.
    apply adds_three_bind; [apply adds_emit; exact I|]. intros _.
    destruct (length tasks =? 0);
      [apply adds_three_first, adds_emit; exact I|].
    apply adds_three_bind; [apply adds_run_sf; reflexivity|].
    intro existing. apply adds_three_last. apply adds_writes. }
  destruct (H (Split.initial tape)) as (q & c & m & Ht & Hq & Hc & Hm).
  exists q, c, m. auto.
Qed.
